(** * pdf-to-excel: the extraction and validation engine

    A shallow embedding of [populater.py] (numeric normalizer, field
    extractor, template populator) and [validator.py] (balance validator,
    coverage analyzer), with the properties of the specification stated
    and proved over it.

    Conventions of the embedding:
    - a Python [str] is a [string]; each character is the code point of
      that number, so texts range over the code points below 256;
    - a Python [float] is an IEEE-754 binary64 value, a [spec_float] with
      precision 53 and maximal exponent 1024;
    - a Python [int] is a [Z];
    - a raised exception is the [Raise] branch of [result];
    - [dict] objects live in a store and are referred to by address, so
      that two names for one object see each other's writes. *)

From Stdlib Require Import ZArith List String Ascii Bool Lia PeanoNat.
From Stdlib Require Import Floats.SpecFloat.
Import ListNotations.

Local Open Scope string_scope.
Local Open Scope list_scope.

Set Implicit Arguments.

(* ================================================================= *)
(** * Characters *)

Module Chars.

Definition code (c : ascii) : nat := nat_of_ascii c.

Definition in_range (lo hi : nat) (c : ascii) : bool :=
  (lo <=? code c)%nat && (code c <=? hi)%nat.

(** [str.isspace] on the code points below 256, which is also what
    [\s] matches in a [str] pattern: tab, line feed, vertical tab, form
    feed, carriage return, the separators 28 to 31, space, next line
    (133) and no-break space (160). *)
Definition is_space (c : ascii) : bool :=
  in_range 9 13 c || in_range 28 32 c
  || (code c =? 133)%nat || (code c =? 160)%nat.

(** [\d] in a [str] pattern: the decimal digits; below 256 these are
    the ten ASCII digits. *)
Definition is_digit (c : ascii) : bool := in_range 48 57 c.

Definition digit_value (c : ascii) : Z := Z.of_nat (code c) - 48.

(** Lower-casing below 256: [A-Z] and the accented capitals 192 to 222
    (but not the multiplication sign 215) move up by 32. *)
Definition lower (c : ascii) : ascii :=
  if in_range 65 90 c
     || (in_range 192 222 c && negb (code c =? 215)%nat)
  then ascii_of_nat (code c + 32) else c.

Definition upper (c : ascii) : ascii :=
  if in_range 97 122 c
     || (in_range 224 254 c && negb (code c =? 247)%nat)
  then ascii_of_nat (code c - 32) else c.

Definition newline : ascii := ascii_of_nat 10.

End Chars.

(** Texts are handled as lists of characters inside the matcher. *)
Definition chars : Type := list ascii.
Definition s2l : string -> chars := list_ascii_of_string.
Definition l2s : chars -> string := string_of_list_ascii.

(* ================================================================= *)
(** * Exceptions *)

Inductive exn : Type :=
| KeyError | TypeError | AttributeError | IndexError
| OverflowError | ZeroDivisionError | ReError.

Inductive result (A : Type) : Type :=
| Ok (a : A)
| Raise (e : exn).
Arguments Ok {A} a.
Arguments Raise {A} e.

Definition rbind {A B} (m : result A) (f : A -> result B) : result B :=
  match m with Ok a => f a | Raise e => Raise e end.

(* ================================================================= *)
(** * Regular expressions: the part of [re] the locator patterns use *)

Module Re.

(** Flags of [re.search]. [multiline] only changes the anchors, which
    no locator uses; it is carried for the record. *)
Record flags : Type := Flags
  { ignorecase : bool; multiline : bool; dotall : bool }.

Definition no_flags : flags := Flags false false false.
Definition IGNORECASE : flags := Flags true false false.
(** [re.IGNORECASE | re.MULTILINE | re.DOTALL] *)
Definition IMS : flags := Flags true true true.

Inductive set_item : Type :=
| IChar (c : ascii)
| IRange (lo hi : ascii)
| ISpace
| IDigit.

Inductive regex : Type :=
| Eps
| Lit (c : ascii)
| Any
| Space
| Digit
| CSet (negated : bool) (items : list set_item)
| Cat (r1 r2 : regex)
| Alt (r1 r2 : regex)
| Star (r : regex)
| Group (n : nat) (r : regex).

(** ** Single characters *)

Definition item_has (i : set_item) (c : ascii) : bool :=
  match i with
  | IChar x => Ascii.eqb x c
  | IRange lo hi => Chars.in_range (Chars.code lo) (Chars.code hi) c
  | ISpace => Chars.is_space c
  | IDigit => Chars.is_digit c
  end.

Definition items_have (l : list set_item) (c : ascii) : bool :=
  existsb (fun i => item_has i c) l.

Definition lit_matches (fl : flags) (x c : ascii) : bool :=
  if ignorecase fl then Ascii.eqb (Chars.lower x) (Chars.lower c)
  else Ascii.eqb x c.

Definition set_matches (fl : flags) (neg : bool) (l : list set_item)
           (c : ascii) : bool :=
  let hit :=
    if ignorecase fl
    then items_have l c || items_have l (Chars.lower c)
         || items_have l (Chars.upper c)
    else items_have l c in
  xorb neg hit.

Definition any_matches (fl : flags) (c : ascii) : bool :=
  dotall fl || negb (Ascii.eqb c Chars.newline).

(** ** The language of a pattern *)

Inductive matches (fl : flags) : regex -> chars -> Prop :=
| MEps : matches fl Eps []
| MLit x c : lit_matches fl x c = true -> matches fl (Lit x) [c]
| MAny c : any_matches fl c = true -> matches fl Any [c]
| MSpace c : Chars.is_space c = true -> matches fl Space [c]
| MDigit c : Chars.is_digit c = true -> matches fl Digit [c]
| MSet neg l c : set_matches fl neg l c = true -> matches fl (CSet neg l) [c]
| MCat r1 r2 s1 s2 :
    matches fl r1 s1 -> matches fl r2 s2 -> matches fl (Cat r1 r2) (s1 ++ s2)
| MAltL r1 r2 s : matches fl r1 s -> matches fl (Alt r1 r2) s
| MAltR r1 r2 s : matches fl r2 s -> matches fl (Alt r1 r2) s
| MStar0 r : matches fl (Star r) []
| MStarS r s1 s2 :
    matches fl r s1 -> matches fl (Star r) s2 -> matches fl (Star r) (s1 ++ s2)
| MGroup n r s : matches fl r s -> matches fl (Group n r) s.

(** ** The backtracking matcher

    [run fl r s i g k] matches [r] at the front of [s], which begins at
    position [i] of the text, and hands the rest of the text, the
    position reached and the capture of group 1 to the continuation [k].
    Alternatives are tried in the order of [re]: the left branch first,
    one more repetition before stopping. After a repetition that did not
    advance the position the loop is left: the rest of the pattern
    follows, with what that repetition captured. *)

Section Run.
Variable fl : flags.
Variable R : Type.

Definition cont : Type := chars -> nat -> option chars -> option R.

Definition step_char (p : ascii -> bool) (s : chars) (i : nat)
           (g : option chars) (k : cont) : option R :=
  match s with
  | c :: s' => if p c then k s' (S i) g else None
  | [] => None
  end.

Definition orelse (a : option R) (b : unit -> option R) : option R :=
  match a with Some x => Some x | None => b tt end.

Fixpoint run (r : regex) (s : chars) (i : nat) (g : option chars)
         (k : cont) {struct r} : option R :=
  match r with
  | Eps => k s i g
  | Lit x => step_char (lit_matches fl x) s i g k
  | Any => step_char (any_matches fl) s i g k
  | Space => step_char Chars.is_space s i g k
  | Digit => step_char Chars.is_digit s i g k
  | CSet neg l => step_char (set_matches fl neg l) s i g k
  | Cat r1 r2 => run r1 s i g (fun s' i' g' => run r2 s' i' g' k)
  | Alt r1 r2 => orelse (run r1 s i g k) (fun _ => run r2 s i g k)
  | Star r1 =>
      (fix loop (n : nat) (s : chars) (i : nat) (g : option chars)
           {struct n} : option R :=
         match n with
         | O => k s i g
         | S n' =>
             orelse
               (run r1 s i g (fun s' i' g' =>
                  if (i <? i')%nat then loop n' s' i' g' else k s' i' g'))
               (fun _ => k s i g)
         end) (S (List.length s)) s i g
  | Group n r1 =>
      run r1 s i g (fun s' i' g' =>
        k s' i' (if (n =? 1)%nat then Some (firstn (i' - i) s) else g'))
  end.
End Run.

(** ** Match objects and [re.search] *)

Record match_obj : Type := MatchObj
  { m_start : nat;           (* where the match begins *)
    m_group0 : chars;        (* the matched text *)
    m_group1 : option chars  (* group 1, if it took part *) }.

(** a match beginning at the front of [s]: its length and group 1 *)
Definition match_at (fl : flags) (r : regex) (s : chars)
  : option (nat * option chars) :=
  run fl r s 0 None (fun _ i g => Some (i, g)).

(** the scan of [re.search]: the first position, from the left, where
    the pattern matches *)
Fixpoint scan (fl : flags) (r : regex) (i : nat) (s : chars)
  : option match_obj :=
  match match_at fl r s with
  | Some (n, g1) => Some (MatchObj i (firstn n s) g1)
  | None =>
      match s with
      | [] => None
      | _ :: s' => scan fl r (S i) s'
      end
  end.

Definition search_re (fl : flags) (r : regex) (text : string)
  : option match_obj :=
  scan fl r 0 (s2l text).

(** the number of capturing groups, for [match.group(1)] *)
Fixpoint has_group1 (r : regex) : bool :=
  match r with
  | Cat a b | Alt a b => has_group1 a || has_group1 b
  | Star a => has_group1 a
  | Group n a => (n =? 1)%nat || has_group1 a
  | _ => false
  end.

End Re.

(* ================================================================= *)
(** * Reading a pattern: [re.compile] on the syntax the locators use

    Literals, [.], the escapes [\s \d \n \t \r] and escaped punctuation,
    sets with ranges and negation, capturing and [(?:...)] groups, [|] and
    the greedy postfix operators [* + ?]. Anything else (anchors, counted
    or lazy repetition, other escapes) is refused, as is a malformed
    pattern. *)

Module ReParse.
Import Re.

Record frame : Type := Frame
  { f_group : option nat;     (* [Some n]: capturing group [n] *)
    f_alts : list regex;      (* finished alternatives, last first *)
    f_seq : list regex;       (* atoms of the current one, last first *)
    f_quant : bool }.         (* the last atom already has a postfix *)

Inductive mode : Type :=
| Normal
| Escape
| GroupOpen
| GroupQ
| SetOpen
| SetBody (neg : bool) (items : list set_item) (dash : bool)
| SetEscape (neg : bool) (items : list set_item) (dash : bool).

Record pstate : Type := PState
  { p_top : frame; p_stack : list frame; p_next : nat; p_mode : mode }.

Definition seq_of (atoms_rev : list regex) : regex :=
  match atoms_rev with
  | [] => Eps
  | last :: before => fold_left (fun acc a => Cat a acc) before last
  end.

Definition alts_of (f : frame) : regex :=
  fold_left (fun acc a => Alt a acc) (f_alts f) (seq_of (f_seq f)).

Definition push_atom (a : regex) (st : pstate) : pstate :=
  let f := p_top st in
  PState (Frame (f_group f) (f_alts f) (a :: f_seq f) false)
         (p_stack st) (p_next st) Normal.

Definition postfix (op : regex -> regex) (st : pstate) : option pstate :=
  let f := p_top st in
  match f_seq f, f_quant f with
  | a :: before, false =>
      Some (PState (Frame (f_group f) (f_alts f) (op a :: before) true)
                   (p_stack st) (p_next st) Normal)
  | _, _ => None
  end.

Definition open_group (capturing : bool) (st : pstate) : pstate :=
  if capturing
  then PState (Frame (Some (p_next st)) [] [] false)
              (p_top st :: p_stack st) (S (p_next st)) Normal
  else PState (Frame None [] [] false)
              (p_top st :: p_stack st) (p_next st) Normal.

Definition close_group (st : pstate) : option pstate :=
  match p_stack st with
  | [] => None
  | parent :: rest =>
      let body := alts_of (p_top st) in
      let atom := match f_group (p_top st) with
                  | Some n => Group n body
                  | None => body
                  end in
      Some (push_atom atom (PState parent rest (p_next st) Normal))
  end.

Definition is_alnum (c : ascii) : bool :=
  Chars.in_range 48 57 c || Chars.in_range 65 90 c || Chars.in_range 97 122 c.

Definition escaped_char (c : ascii) : option ascii :=
  if Ascii.eqb c "n" then Some (ascii_of_nat 10)
  else if Ascii.eqb c "t" then Some (ascii_of_nat 9)
  else if Ascii.eqb c "r" then Some (ascii_of_nat 13)
  else if is_alnum c then None
  else Some c.

Definition normal_step (c : ascii) (st : pstate) : option pstate :=
  if Ascii.eqb c "\" then
    Some (PState (p_top st) (p_stack st) (p_next st) Escape)
  else if Ascii.eqb c "(" then
    Some (PState (p_top st) (p_stack st) (p_next st) GroupOpen)
  else if Ascii.eqb c ")" then close_group st
  else if Ascii.eqb c "[" then
    Some (PState (p_top st) (p_stack st) (p_next st) SetOpen)
  else if Ascii.eqb c "|" then
    let f := p_top st in
    Some (PState (Frame (f_group f) (seq_of (f_seq f) :: f_alts f) [] false)
                 (p_stack st) (p_next st) Normal)
  else if Ascii.eqb c "*" then postfix Star st
  else if Ascii.eqb c "+" then postfix (fun r => Cat r (Star r)) st
  else if Ascii.eqb c "?" then postfix (fun r => Alt r Eps) st
  else if Ascii.eqb c "." then Some (push_atom Any st)
  else if Ascii.eqb c "^" || Ascii.eqb c "$" || Ascii.eqb c "{" then None
  else Some (push_atom (Lit c) st).

Definition set_add (neg : bool) (items : list set_item) (dash : bool)
           (i : set_item) (st : pstate) : option pstate :=
  let continue l :=
    Some (PState (p_top st) (p_stack st) (p_next st) (SetBody neg l false)) in
  if dash then
    match items, i with
    | IChar lo :: before, IChar hi =>
        if (Chars.code lo <=? Chars.code hi)%nat
        then continue (IRange lo hi :: before) else None
    | _, _ => None
    end
  else continue (i :: items).

Definition step (c : ascii) (st : pstate) : option pstate :=
  match p_mode st with
  | Normal => normal_step c st
  | Escape =>
      if Ascii.eqb c "s" then Some (push_atom Space st)
      else if Ascii.eqb c "d" then Some (push_atom Digit st)
      else option_map (fun x => push_atom (Lit x) st) (escaped_char c)
  | GroupOpen =>
      if Ascii.eqb c "?" then
        Some (PState (p_top st) (p_stack st) (p_next st) GroupQ)
      else normal_step c (open_group true st)
  | GroupQ =>
      if Ascii.eqb c ":" then Some (open_group false st) else None
  | SetOpen =>
      if Ascii.eqb c "^" then
        Some (PState (p_top st) (p_stack st) (p_next st) (SetBody true [] false))
      else if Ascii.eqb c "\" then
        Some (PState (p_top st) (p_stack st) (p_next st) (SetEscape false [] false))
      else set_add false [] false (IChar c) st
  | SetBody neg items dash =>
      if Ascii.eqb c "]" then
        match items with
        | [] => set_add neg items dash (IChar c) st
        | _ => Some (push_atom
                       (CSet neg (rev (if dash then IChar "-" :: items else items)))
                       st)
        end
      else if Ascii.eqb c "\" then
        Some (PState (p_top st) (p_stack st) (p_next st) (SetEscape neg items dash))
      else if Ascii.eqb c "-" && negb dash then
        match items with
        | IChar _ :: _ | ISpace :: _ | IDigit :: _ =>
            Some (PState (p_top st) (p_stack st) (p_next st) (SetBody neg items true))
        | _ => set_add neg items dash (IChar c) st
        end
      else set_add neg items dash (IChar c) st
  | SetEscape neg items dash =>
      if Ascii.eqb c "s" then
        if dash then None else set_add neg items dash ISpace st
      else if Ascii.eqb c "d" then
        if dash then None else set_add neg items dash IDigit st
      else match escaped_char c with
           | Some x => set_add neg items dash (IChar x) st
           | None => None
           end
  end.

Fixpoint steps (s : chars) (st : pstate) : option pstate :=
  match s with
  | [] => Some st
  | c :: s' => match step c st with
               | Some st' => steps s' st'
               | None => None
               end
  end.

(** [re.compile]: [None] stands for [re.error] (or for syntax outside
    the part covered here). *)
Definition compile (pattern : string) : option regex :=
  match steps (s2l pattern) (PState (Frame None [] [] false) [] 1 Normal) with
  | Some st =>
      match p_mode st, p_stack st with
      | Normal, [] => Some (alts_of (p_top st))
      | _, _ => None
      end
  | None => None
  end.

End ReParse.

(* ================================================================= *)
(** * Floats: binary64 *)

Module Float.
Local Open Scope Z_scope.

Definition prec : Z := 53.
Definition emax : Z := 1024.

Definition float : Type := spec_float.

Definition add : float -> float -> float := SFadd prec emax.
Definition sub : float -> float -> float := SFsub prec emax.
Definition mul : float -> float -> float := SFmul prec emax.
Definition div : float -> float -> float := SFdiv prec emax.
Definition opp : float -> float := SFopp.
Definition abs : float -> float := SFabs.

(** the double nearest to an integer (ties to even), infinite when the
    integer is out of range *)
Definition of_Z (z : Z) : float := binary_normalize prec emax z 0 false.

(** the double nearest to the quotient of two positive integers *)
Definition div_pos (a b : positive) : float :=
  div (S754_finite false a 0) (S754_finite false b 0).

Definition is_infinite (f : float) : bool :=
  match f with S754_infinity _ => true | _ => false end.

Definition is_zero (f : float) : bool :=
  match f with S754_zero _ => true | _ => false end.

Definition one : float := Eval vm_compute in of_Z 1.
Definition hundred : float := Eval vm_compute in of_Z 100.

(** ** Exact values

    A finite double is the dyadic number [m * 2^e]; comparisons between
    numbers are made on these exact values, as Python compares an [int]
    with a [float]. *)

Inductive ext : Type :=
| XNaN
| XNegInf
| XPosInf
| XFin (m e : Z).

Definition view (f : float) : ext :=
  match f with
  | S754_nan => XNaN
  | S754_infinity true => XNegInf
  | S754_infinity false => XPosInf
  | S754_zero _ => XFin 0 0
  | S754_finite s m e => XFin (if s then Z.neg m else Z.pos m) e
  end.

Definition cmp_fin (m1 e1 m2 e2 : Z) : comparison :=
  let e := Z.min e1 e2 in
  Z.compare (m1 * 2 ^ (e1 - e)) (m2 * 2 ^ (e2 - e)).

Definition cmp (x y : ext) : option comparison :=
  match x, y with
  | XNaN, _ | _, XNaN => None
  | XNegInf, XNegInf | XPosInf, XPosInf => Some Eq
  | XNegInf, _ | _, XPosInf => Some Lt
  | _, XNegInf | XPosInf, _ => Some Gt
  | XFin m1 e1, XFin m2 e2 => Some (cmp_fin m1 e1 m2 e2)
  end.

(** the integer a double is equal to, when it is one *)
Definition to_Z_exact (f : float) : option Z :=
  match view f with
  | XFin m e =>
      if 0 <=? e then Some (m * 2 ^ e)
      else if m mod 2 ^ (- e) =? 0 then Some (m / 2 ^ (- e)) else None
  | _ => None
  end.

(** ** Decimal literals

    [of_decimal neg m e] is the double nearest to [(-1)^neg * m * 10^e]
    for [m >= 0], correctly rounded as [float()] does. *)
Definition of_decimal (neg : bool) (m e : Z) : float :=
  match m with
  | Z.pos p =>
      if 0 <=? e
      then binary_normalize prec emax
             ((if neg then Z.neg p else Z.pos p) * 10 ^ e) 0 false
      else SFdiv prec emax (S754_finite neg p 0)
             (S754_finite false (Z.to_pos (10 ^ (- e))) 0)
  | _ => S754_zero neg
  end.

End Float.

(* ================================================================= *)
(** * [float(str)]: the literal grammar of Python *)

Module FloatParse.
Import Float.
Local Open Scope Z_scope.

Fixpoint drop_while (p : ascii -> bool) (s : chars) : chars :=
  match s with
  | c :: s' => if p c then drop_while p s' else s
  | [] => []
  end.

(** [str.strip()] *)
Definition strip (s : chars) : chars :=
  rev (drop_while Chars.is_space (rev (drop_while Chars.is_space s))).

(** what [float] passes over at both ends of its argument: tab to
    carriage return, space, next line (133) and no-break space (160);
    the separators 28 to 31, which [str.strip] removes, stay *)
Definition is_float_space (c : ascii) : bool :=
  Chars.in_range 9 13 c || (Chars.code c =? 32)%nat
  || (Chars.code c =? 133)%nat || (Chars.code c =? 160)%nat.

Definition float_strip (s : chars) : chars :=
  rev (drop_while is_float_space (rev (drop_while is_float_space s))).

(** [s.split(c, 1)]: the part before the first character satisfying [p]
    and, if there is one, the part after it *)
Fixpoint split_first (p : ascii -> bool) (s : chars) : chars * option chars :=
  match s with
  | [] => ([], None)
  | c :: s' =>
      if p c then ([], Some s')
      else let '(a, b) := split_first p s' in (c :: a, b)
  end.

(** a digit part: digits with single underscores between them; the
    result is the digits alone *)
Fixpoint digitpart_tail (s : chars) : option chars :=
  match s with
  | [] => Some []
  | c :: s' =>
      if Chars.is_digit c then option_map (cons c) (digitpart_tail s')
      else if Ascii.eqb c "_" then
        match s' with
        | d :: s'' =>
            if Chars.is_digit d
            then option_map (cons d) (digitpart_tail s'') else None
        | [] => None
        end
      else None
  end.

Definition digitpart (s : chars) : option chars :=
  match s with
  | c :: _ => if Chars.is_digit c then digitpart_tail s else None
  | [] => None
  end.

Definition digits_value (s : chars) : Z :=
  fold_left (fun acc c => 10 * acc + Chars.digit_value c) s 0.

Definition take_sign (s : chars) : bool * chars :=
  match s with
  | c :: s' =>
      if Ascii.eqb c "-" then (true, s')
      else if Ascii.eqb c "+" then (false, s') else (false, s)
  | [] => (false, s)
  end.

Definition is_e (c : ascii) : bool := Ascii.eqb c "e" || Ascii.eqb c "E".
Definition is_dot (c : ascii) : bool := Ascii.eqb c ".".

Definition parse_exponent (s : option chars) : option Z :=
  match s with
  | None => Some 0
  | Some s =>
      let '(neg, ds) := take_sign s in
      option_map (fun d => if neg then - digits_value d else digits_value d)
                 (digitpart ds)
  end.

(** integer and fraction digits of the mantissa *)
Definition parse_mantissa (s : chars) : option (chars * chars) :=
  let '(ip, fp) := split_first is_dot s in
  match ip, fp with
  | [], None => None
  | [], Some [] => None
  | [], Some f => option_map (fun fd => ([], fd)) (digitpart f)
  | _, None => option_map (fun d => (d, [])) (digitpart ip)
  | _, Some [] => option_map (fun d => (d, [])) (digitpart ip)
  | _, Some f =>
      match digitpart ip, digitpart f with
      | Some d, Some fd => Some (d, fd)
      | _, _ => None
      end
  end.

Definition lower_all (s : chars) : chars := map Chars.lower s.

Definition chars_eqb (a b : chars) : bool := String.eqb (l2s a) (l2s b).

(** [float(s)] for a string [s]; [None] is [ValueError] *)
Definition py_float (s : string) : option float :=
  let '(neg, body) := take_sign (float_strip (s2l s)) in
  let low := lower_all body in
  if chars_eqb low (s2l "inf") || chars_eqb low (s2l "infinity")
  then Some (S754_infinity neg)
  else if chars_eqb low (s2l "nan") then Some S754_nan
  else
    let '(mant, expo) := split_first is_e body in
    match parse_mantissa mant, parse_exponent expo with
    | Some (d, fd), Some e =>
        Some (of_decimal neg (digits_value (d ++ fd))
                         (e - Z.of_nat (List.length fd)))
    | _, _ => None
    end.

End FloatParse.

(* ================================================================= *)
(** * Python numbers: [int] and [float] under one arithmetic *)

Module Num.
Import Float.
Local Open Scope Z_scope.

Inductive num : Type :=
| NInt (z : Z)
| NFloat (f : float).

(** [float(n)] for an [int]: [OverflowError] when out of range *)
Definition to_float (n : num) : result float :=
  match n with
  | NInt z => let f := of_Z z in
              if is_infinite f then Raise OverflowError else Ok f
  | NFloat f => Ok f
  end.

Definition lift2 (fi : Z -> Z -> Z) (ff : float -> float -> float)
           (a b : num) : result num :=
  match a, b with
  | NInt x, NInt y => Ok (NInt (fi x y))
  | _, _ => rbind (to_float a) (fun fa =>
            rbind (to_float b) (fun fb => Ok (NFloat (ff fa fb))))
  end.

Definition add : num -> num -> result num := lift2 Z.add Float.add.
Definition sub : num -> num -> result num := lift2 Z.sub Float.sub.
Definition mul : num -> num -> result num := lift2 Z.mul Float.mul.

Definition neg (a : num) : num :=
  match a with NInt z => NInt (- z) | NFloat f => NFloat (opp f) end.

Definition abs (a : num) : num :=
  match a with NInt z => NInt (Z.abs z) | NFloat f => NFloat (Float.abs f) end.

(** [a / b]: true division. Two [int]s give the correctly rounded
    quotient. *)
Definition truediv (a b : num) : result num :=
  match a, b with
  | NInt x, NInt y =>
      match x, y with
      | _, Z0 => Raise ZeroDivisionError
      | Z0, _ => Ok (NFloat (S754_zero (y <? 0)))
      | _, _ =>
          let q := div (S754_finite (x <? 0) (Z.to_pos (Z.abs x)) 0)
                       (S754_finite (y <? 0) (Z.to_pos (Z.abs y)) 0) in
          if is_infinite q then Raise OverflowError else Ok (NFloat q)
      end
  | _, _ =>
      rbind (to_float a) (fun fa =>
      rbind (to_float b) (fun fb =>
        if is_zero fb then Raise ZeroDivisionError
        else Ok (NFloat (div fa fb))))
  end.

Definition view (a : num) : ext :=
  match a with NInt z => XFin z 0 | NFloat f => Float.view f end.

Definition compare (a b : num) : option comparison := cmp (view a) (view b).

(** [a < b], [a <= b], [a != b] *)
Definition lt (a b : num) : bool :=
  match compare a b with Some Lt => true | _ => false end.
Definition le (a b : num) : bool :=
  match compare a b with Some Lt | Some Eq => true | _ => false end.
Definition ne (a b : num) : bool :=
  match compare a b with Some Eq => false | _ => true end.

Definition zero : num := NInt 0.
Definition of_nat (n : nat) : num := NInt (Z.of_nat n).

End Num.

(* ================================================================= *)
(** * Data: JSON values and the objects of the store *)

(** What [json.load] reads and [json.dump] writes, as a tree. An object
    keeps its entries in order. *)
Unset Elimination Schemes.
Inductive json : Type :=
| JNull
| JBool (b : bool)
| JNum (n : Num.num)          (* an [int] or a [float] *)
| JStr (s : string)
| JList (l : list json)
| JDict (d : list (string * json)).
Set Elimination Schemes.

(** A Python value as the populator sees it: a [dict] is an address in
    the store; a list is never looked into and is kept as what it
    holds. *)
Definition addr : Type := nat.

Inductive pyval : Type :=
| PNone
| PBool (b : bool)
| PNum (n : Num.num)
| PStr (s : string)
| PList (l : list json)
| PRef (a : addr).

Definition dict : Type := list (string * pyval).
Definition store : Type := list dict.

Module Dict.
Section Ops.
Variable V : Type.

(** [d.get(k)] *)
Fixpoint get (k : string) (d : list (string * V)) : option V :=
  match d with
  | [] => None
  | (k', v) :: d' => if String.eqb k k' then Some v else get k d'
  end.

(** [d[k] = v]: an existing key keeps its place, a new one goes last *)
Fixpoint set (k : string) (v : V) (d : list (string * V)) : list (string * V) :=
  match d with
  | [] => [(k, v)]
  | (k', v') :: d' =>
      if String.eqb k k' then (k, v) :: d' else (k', v') :: set k v d'
  end.
End Ops.
End Dict.

(** [isinstance(v, (int, float))]: a [bool] is an [int] *)
Definition json_num (j : json) : option Num.num :=
  match j with
  | JBool b => Some (Num.NInt (if b then 1 else 0))
  | JNum n => Some n
  | _ => None
  end.

Definition pyval_num (v : pyval) : option Num.num :=
  match v with
  | PBool b => Some (Num.NInt (if b then 1 else 0))
  | PNum n => Some n
  | _ => None
  end.

(** the [int] and [float] values, as the code writes them *)
Definition PInt (z : Z) : pyval := PNum (Num.NInt z).
Definition PFloat (f : Float.float) : pyval := PNum (Num.NFloat f).
Definition JInt (z : Z) : json := JNum (Num.NInt z).
Definition JFloat (f : Float.float) : json := JNum (Num.NFloat f).

(* ================================================================= *)
(** * The store: allocation, reading back *)

Module Store.

(** the state-and-exception monad of the populator *)
Definition M (A : Type) : Type := store -> result (A * store).

Definition ret {A} (a : A) : M A := fun h => Ok (a, h).
Definition bind {A B} (m : M A) (f : A -> M B) : M B :=
  fun h => match m h with
           | Ok (a, h') => f a h'
           | Raise e => Raise e
           end.
Definition lift {A} (r : result A) : M A :=
  fun h => match r with Ok a => Ok (a, h) | Raise e => Raise e end.

Definition is_dict (h : store) (v : pyval) : bool :=
  match v with
  | PRef a => match nth_error h a with Some _ => true | None => false end
  | _ => false
  end.

(** [o[k]] *)
Definition getitem (o : pyval) (k : string) : M pyval :=
  fun h =>
    match o with
    | PRef a =>
        match nth_error h a with
        | Some d => match Dict.get k d with
                    | Some v => Ok (v, h)
                    | None => Raise KeyError
                    end
        | None => Raise TypeError
        end
    | _ => Raise TypeError
    end.

Fixpoint update (a : addr) (d : dict) (h : store) : store :=
  match h, a with
  | [], _ => []
  | _ :: h', O => d :: h'
  | x :: h', S a' => x :: update a' d h'
  end.

(** [o[k] = v] *)
Definition setitem (o : pyval) (k : string) (v : pyval) : M unit :=
  fun h =>
    match o with
    | PRef a =>
        match nth_error h a with
        | Some d => Ok (tt, update a (Dict.set k v d) h)
        | None => Raise TypeError
        end
    | _ => Raise TypeError
    end.

(** [o.copy()] on a [dict]: a new object with the same entries; the
    values are shared, not copied. A list has [copy] too: its copy is a
    list with the same items. *)
Definition dict_copy (o : pyval) : M pyval :=
  fun h =>
    match o with
    | PRef a =>
        match nth_error h a with
        | Some d => Ok (PRef (List.length h), h ++ [d])
        | None => Raise AttributeError
        end
    | PList l => Ok (PList l, h)
    | _ => Raise AttributeError
    end.

(** [o[k1][k2]...] *)
Fixpoint getpath (o : pyval) (path : list string) : M pyval :=
  match path with
  | [] => ret o
  | k :: rest => bind (getitem o k) (fun o' => getpath o' rest)
  end.

(** the same lookup as a plain function of the store *)
Fixpoint lookup (h : store) (o : pyval) (path : list string) : option pyval :=
  match path with
  | [] => Some o
  | k :: rest =>
      match o with
      | PRef a =>
          match nth_error h a with
          | Some d => match Dict.get k d with
                      | Some v => lookup h v rest
                      | None => None
                      end
          | None => None
          end
      | _ => None
      end
  end.

(** [json.load]: every object of the tree becomes a fresh [dict] *)
Fixpoint load (j : json) (h : store) {struct j} : pyval * store :=
  match j with
  | JNull => (PNone, h)
  | JBool b => (PBool b, h)
  | JNum n => (PNum n, h)
  | JStr s => (PStr s, h)
  | JList l => (PList l, h)
  | JDict d =>
      let '(entries, h') :=
        (fix go (d : list (string * json)) (h : store)
           : dict * store :=
           match d with
           | [] => ([], h)
           | (k, v) :: d' =>
               let '(pv, h1) := load v h in
               let '(rest, h2) := go d' h1 in
               ((k, pv) :: rest, h2)
           end) d h in
      (PRef (List.length h'), h' ++ [entries])
  end.

(** the value reachable from [v], as a tree; [n] bounds the nesting *)
Fixpoint snapshot (n : nat) (h : store) (v : pyval) : option json :=
  match v with
  | PNone => Some JNull
  | PBool b => Some (JBool b)
  | PNum n => Some (JNum n)
  | PStr s => Some (JStr s)
  | PList l => Some (JList l)
  | PRef a =>
      match n, nth_error h a with
      | S n', Some d =>
          option_map JDict
            ((fix go (d : dict) : option (list (string * json)) :=
                match d with
                | [] => Some []
                | (k, v') :: d' =>
                    match snapshot n' h v', go d' with
                    | Some j, Some rest => Some ((k, j) :: rest)
                    | _, _ => None
                    end
                end) d)
      | _, _ => None
      end
  end.

End Store.

Declare Scope store_scope.
Delimit Scope store_scope with store.
Notation "x <- m ;; k" := (Store.bind m (fun x => k))
  (at level 61, m at next level, right associativity) : store_scope.
Notation "m ;; k" := (Store.bind m (fun _ => k))
  (at level 61, right associativity) : store_scope.

(* ================================================================= *)
(** * populater.py *)

Module Populater.
Import Re Store.
Local Open Scope store_scope.

(** [re.sub(r'[,\s]', '', s)]: the pattern is one set, so the
    substitution drops every character of the set *)
Definition comma_or_space : list set_item := [IChar ","; ISpace].

Definition strip_separators (s : chars) : chars :=
  filter (fun c => negb (set_matches no_flags false comma_or_space c)) s.

Definition startswith (c : ascii) (s : chars) : bool :=
  match s with x :: _ => Ascii.eqb x c | [] => false end.

Definition endswith (c : ascii) (s : chars) : bool :=
  match rev s with x :: _ => Ascii.eqb x c | [] => false end.

(** [s[1:-1]] *)
Definition slice_1_m1 (s : chars) : chars := removelast (tl s).

(** the literal handed to [float], after separators are dropped and a
    parenthesized literal gets its minus sign *)
Definition cleaned_literal (value_str : string) : chars :=
  let cleaned := strip_separators (s2l value_str) in
  if startswith "(" cleaned && endswith ")" cleaned
  then "-"%char :: slice_1_m1 cleaned
  else cleaned.

(** [clean_number(value_str)]; [None] is Python's [None] *)
Definition clean_number (value_str : option string) : pyval :=
  match value_str with
  | None => PInt 0
  | Some "" => PInt 0
  | Some v =>
      match FloatParse.py_float (l2s (cleaned_literal v)) with
      | Some f => PFloat f
      | None => PInt 0        (* except ValueError: return 0 *)
      end
  end.

(** [re.search(pattern, text, flags)] *)
Definition re_search (pattern text : string) (fl : flags)
  : result (option match_obj) :=
  match ReParse.compile pattern with
  | Some r => Ok (search_re fl r text)
  | None => Raise ReError
  end.

(** [m.group(1)] *)
Definition group1 (pattern : string) (m : match_obj) : result (option string) :=
  match ReParse.compile pattern with
  | Some r => if has_group1 r then Ok (option_map l2s (m_group1 m))
              else Raise IndexError
  | None => Raise ReError
  end.

(** [extract_value_from_text(text, pattern)] *)
Definition extract_value_from_text (text pattern : string) : result pyval :=
  rbind (re_search pattern text IMS) (fun m =>
    match m with
    | Some m => rbind (group1 pattern m) (fun g => Ok (clean_number g))
    | None => Ok (PInt 0)
    end).

(** [m.group(1).strip()] *)
Definition group1_strip (pattern : string) (m : match_obj) : result pyval :=
  rbind (group1 pattern m) (fun g =>
    match g with
    | Some s => Ok (PStr (l2s (FloatParse.strip (s2l s))))
    | None => Raise AttributeError
    end).

(** unary minus *)
Definition py_neg (v : pyval) : result pyval :=
  match pyval_num v with
  | Some n => Ok (PNum (Num.neg n))
  | None => Raise TypeError
  end.

Definition company_pattern : string := "([A-Z]+),?\s*Inc\.?".
Definition date_pattern : string := "As of\s+([^\n]+)".
Definition treasury_pattern : string :=
  "3100\s+Treasury\s+Stock\s+\((\d+(?:,\d+)*)\)".

(** one statement
    [populated[s1]...[sn][key] = extract_value_from_text(text_content, pattern)];
    the right-hand side is evaluated first *)
Definition set_extracted (populated : pyval) (sections : list string)
           (key text_content pattern : string) : M unit :=
  v <- lift (extract_value_from_text text_content pattern) ;;
  o <- getpath populated sections ;;
  setitem o key v.

Definition set_company (populated : pyval) (text_content : string) : M unit :=
  company_match <- lift (re_search company_pattern text_content no_flags) ;;
  match company_match with
  | Some m =>
      v <- lift (group1_strip company_pattern m) ;;
      setitem populated "company_name" v
  | None => ret tt
  end.

Definition set_date (populated : pyval) (text_content : string) : M unit :=
  date_match <- lift (re_search date_pattern text_content IGNORECASE) ;;
  match date_match with
  | Some m =>
      v <- lift (group1_strip date_pattern m) ;;
      setitem populated "report_date" v
  | None => ret tt
  end.

Definition set_treasury (populated : pyval) (text_content : string) : M unit :=
  treasury_match <- lift (re_search treasury_pattern text_content IGNORECASE) ;;
  match treasury_match with
  | Some m =>
      g <- lift (group1 treasury_pattern m) ;;
      v <- lift (py_neg (clean_number g)) ;;
      o <- getpath populated ["equity"] ;;
      setitem o "3100_treasury_stock" v
  | None => ret tt
  end.

Definition cash := ["assets"; "current_assets"; "cash"].
Definition current_assets := ["assets"; "current_assets"].
Definition other_current_assets :=
  ["assets"; "current_assets"; "other_current_assets"].
Definition non_current_assets := ["assets"; "non_current_assets"].
Definition current_liabilities := ["liabilities"; "current_liabilities"].
Definition non_current_liabilities := ["liabilities"; "non_current_liabilities"].

(** [populate_balance_sheet(text_content, template)] *)
Definition populate_balance_sheet (text_content : string) (template : pyval)
  : M pyval :=
  populated <- dict_copy template ;;
  set_company populated text_content ;;
  set_date populated text_content ;;
  set_extracted populated cash "1010_checking" text_content
    "1010\s+Checking\s+(\d+(?:,\d+)*)" ;;
  set_extracted populated cash "1020_savings" text_content
    "1020\s+Savings\s+(\d+(?:,\d+)*)" ;;
  set_extracted populated cash "1030_petty_cash" text_content
    "1030\s+Petty\s+Cash\s+(\d+(?:,\d+)*)" ;;
  set_extracted populated cash "total_cash" text_content
    "Total\s+Cash\s+(\d+(?:,\d+)*)" ;;
  set_extracted populated current_assets "1100_accounts_receivable" text_content
    "1100\s+Accounts\s+Receivable\s+(\d+(?:,\d+)*)" ;;
  set_extracted populated current_assets "1200_work_in_process" text_content
    "1200\s+Work\s+in\s+Process\s+(\d+(?:,\d+)*)" ;;
  set_extracted populated other_current_assets "1310_prepaid_rent" text_content
    "1310\s+Prepaid\s+Rent\s+(\d+(?:,\d+)*)" ;;
  set_extracted populated other_current_assets
    "1320_prepaid_liability_insurance" text_content
    "1320\s+Prepaid\s+Liability\s+Insurance\s+(\d+(?:,\d+)*)" ;;
  set_extracted populated other_current_assets
    "total_other_current_assets" text_content
    "Total\s+Other\s+Current\s+Assets\s+(\d+(?:,\d+)*)" ;;
  set_extracted populated current_assets "total_current_assets" text_content
    "Total\s+Current\s+Assets\s+(\d+(?:,\d+)*)" ;;
  set_extracted populated non_current_assets
    "1400_net_computer_equipment" text_content
    "1400\s+Net\s+Computer\s+Equipment\s+(\d+(?:,\d+)*)" ;;
  set_extracted populated non_current_assets
    "1500_net_furniture_fixtures_equipment" text_content
    "1500\s+Net\s+Furniture,\s+Fixtures,\s+&\s+Equipment\s+(\d+(?:,\d+)*)" ;;
  set_extracted populated non_current_assets
    "1600_net_field_equipment" text_content
    "1600\s+Net\s+Field\s+Equipment\s+(\d+(?:,\d+)*)" ;;
  set_extracted populated non_current_assets "1700_net_real_estate" text_content
    "1700\s+Net\s+Real\s+Estate\s+(\d+(?:,\d+)*)" ;;
  set_extracted populated non_current_assets
    "1800_net_leasehold_improvements" text_content
    "1800\s+Net\s+Leasehold\s+Improvements\s+(\d+(?:,\d+)*)" ;;
  set_extracted populated non_current_assets "1900_other_assets" text_content
    "1900\s+Other\s+Assets\s+(\d+(?:,\d+)*)" ;;
  set_extracted populated non_current_assets
    "total_non_current_assets" text_content
    "Total\s+Non-Current\s+Assets\s+(\d+(?:,\d+)*)" ;;
  set_extracted populated ["assets"] "total_assets" text_content
    "Total\s+Assets\s+(\d+(?:,\d+)*)" ;;
  set_extracted populated current_liabilities
    "2000_accounts_payable" text_content
    "2000\s+Accounts\s+Payable\s+(\d+(?:,\d+)*)" ;;
  set_extracted populated current_liabilities "2100_deferred_taxes" text_content
    "2100\s+Deferred\s+Taxes\s+(\d+(?:,\d+)*)" ;;
  set_extracted populated current_liabilities
    "2200_line_of_credit_borrowing" text_content
    "2200\s+Line\s+of\s+Credit\s+Borrowing\s+(\d+(?:,\d+)*)" ;;
  set_extracted populated current_liabilities
    "2300_current_portion_long_term_debt" text_content
    "2300\s+Current\s+Portion\s+of\s+Long-Term\s+Debt\s+(\d+(?:,\d+)*)" ;;
  set_extracted populated current_liabilities
    "2400_other_current_liabilities" text_content
    "2400\s+Other\s+Current\s+Liabilities\s+(\d+(?:,\d+)*)" ;;
  set_extracted populated current_liabilities
    "total_current_liabilities" text_content
    "Total\s+Current\s+Liabilities\s+(\d+(?:,\d+)*)" ;;
  set_extracted populated non_current_liabilities
    "2500_long_term_debt" text_content
    "2500\s+Long-Term\s+Debt\s+(\d+(?:,\d+)*)" ;;
  set_extracted populated non_current_liabilities
    "2600_other_liabilities" text_content
    "2600\s+Other\s+Liabilities\s+(\d+(?:,\d+)*)" ;;
  set_extracted populated non_current_liabilities
    "total_non_current_liabilities" text_content
    "Total\s+Non-Current\s+Liabilities\s+(\d+(?:,\d+)*)" ;;
  set_extracted populated ["liabilities"] "total_liabilities" text_content
    "Total\s+Liabilities\s+(\d+(?:,\d+)*)" ;;
  set_extracted populated ["equity"] "3000_capital_stock" text_content
    "3000\s+Capital\s+Stock\s+(\d+(?:,\d+)*)" ;;
  set_treasury populated text_content ;;
  set_extracted populated ["equity"] "3200_retained_earnings" text_content
    "3200\s+Retained\s+Earnings\s+(\d+(?:,\d+)*)" ;;
  set_extracted populated ["equity"] "total_equity" text_content
    "Total\s+Equity\s+(\d+(?:,\d+)*)" ;;
  set_extracted populated [] "total_liabilities_and_equity" text_content
    "Total\s+Liabilities\s+and\s+Equity\s+(\d+(?:,\d+)*)" ;;
  ret populated.

End Populater.

(* ================================================================= *)
(** * validator.py *)

Module Validator.
Import Num.

(** [obj.get(k, default)]; only a [dict] has [get] *)
Definition get_default (obj : json) (k : string) (default : json)
  : result json :=
  match obj with
  | JDict d => Ok (match Dict.get k d with Some v => v | None => default end)
  | _ => Raise AttributeError
  end.

(** an operand of [+], [-] or [abs]. Two strings or two lists can be
    added, but the sum is then an operand of [-], which raises the same
    [TypeError]. *)
Definition operand (j : json) : result num :=
  match json_num j with
  | Some n => Ok n
  | None => Raise TypeError
  end.

Record validation : Type := Validation
  { total_assets : num;
    total_liabilities : num;
    total_equity : num;
    calculated_total : num;
    stated_total : num;
    balance_difference : num;
    stated_difference : num;
    is_balanced : bool;
    matches_stated : bool }.

Definition one_point_zero : num := NFloat Float.one.

(** [validate_balance_sheet(populated_data)] *)
Definition validate_balance_sheet (populated_data : json) : result validation :=
  rbind (get_default populated_data "assets" (JDict [])) (fun assets =>
  rbind (get_default assets "total_assets" (JInt 0)) (fun total_assets =>
  rbind (get_default populated_data "liabilities" (JDict [])) (fun liabilities =>
  rbind (get_default liabilities "total_liabilities" (JInt 0)) (fun total_liabilities =>
  rbind (get_default populated_data "equity" (JDict [])) (fun equity =>
  rbind (get_default equity "total_equity" (JInt 0)) (fun total_equity =>
  rbind (get_default populated_data "total_liabilities_and_equity" (JInt 0))
        (fun total_liab_equity =>
  rbind (operand total_liabilities) (fun tl =>
  rbind (operand total_equity) (fun te =>
  rbind (add tl te) (fun calculated_total =>
  rbind (operand total_assets) (fun ta =>
  rbind (sub ta calculated_total) (fun d1 =>
  let balance_difference := abs d1 in
  rbind (operand total_liab_equity) (fun st =>
  rbind (sub ta st) (fun d2 =>
  let stated_difference := abs d2 in
  Ok (Validation ta tl te calculated_total st
        balance_difference stated_difference
        (lt balance_difference one_point_zero)
        (lt stated_difference one_point_zero)))))))))))))))).

Record coverage : Type := Coverage
  { extracted_fields : nat;
    total_fields : nat;
    extraction_rate : num;
    missing_fields : list string }.

(** the three [nonlocal] variables of [count_fields] *)
Record counters : Type := Counters
  { extracted_count : nat; total_count : nat; missing : list string }.

Definition excluded_keys : list string :=
  ["company_name"; "report_date"; "report_title"].

Definition excluded (key : string) : bool :=
  existsb (String.eqb key) excluded_keys.

(** [f"{prefix}.{key}" if prefix else key] *)
Definition field_path (prefix key : string) : string :=
  match prefix with
  | "" => key
  | _ => prefix ++ "." ++ key
  end.

(** one numeric entry *)
Definition count_value (value : num) (path : string) (c : counters) : counters :=
  if ne value zero
  then Counters (S (extracted_count c)) (S (total_count c)) (missing c)
  else Counters (extracted_count c) (S (total_count c)) (missing c ++ [path]).

(** [count_fields(obj, prefix)], threading the counters *)
Fixpoint count_fields (obj : json) (prefix : string) (c : counters)
         {struct obj} : counters :=
  match obj with
  | JDict d =>
      (fix items (d : list (string * json)) (c : counters) : counters :=
         match d with
         | [] => c
         | (key, value) :: d' =>
             if excluded key then items d' c
             else
               let path := field_path prefix key in
               match json_num value with
               | Some n => items d' (count_value n path c)
               | None =>
                   match value with
                   | JDict _ => items d' (count_fields value path c)
                   | _ => items d' c
                   end
               end
         end) d c
  | _ => c
  end.

(** [count_extracted_fields(populated_data)] *)
Definition count_extracted_fields (populated_data : json) : result coverage :=
  let c := count_fields populated_data "" (Counters 0 0 []) in
  rbind (if (0 <? total_count c)%nat
         then rbind (truediv (of_nat (extracted_count c)) (of_nat (total_count c)))
                    (fun q => mul q (NInt 100))
         else Ok (NInt 0))
        (fun extraction_rate =>
           Ok (Coverage (extracted_count c) (total_count c)
                        extraction_rate (missing c))).

End Validator.

(* ================================================================= *)
(** * The schema of the repository's template

    Modelled from the spec: [template.json] is not among the sources.
    The shape is the one the statements of [populate_balance_sheet]
    address, sections and leaves in the order of those statements, with
    the two header fields first; [header] gives the string the template
    holds at each header field and [leaf] the number it holds at each
    numeric leaf. *)

Module Template.

Definition schema (header : string -> string) (leaf : string -> Num.num)
  : json :=
  let f k := (k, JNum (leaf k)) in
  JDict
    [ ("company_name", JStr (header "company_name"));
      ("report_date", JStr (header "report_date"));
      ("assets", JDict
        [ ("current_assets", JDict
            [ ("cash", JDict
                [ f "1010_checking"; f "1020_savings"; f "1030_petty_cash";
                  f "total_cash" ]);
              f "1100_accounts_receivable"; f "1200_work_in_process";
              ("other_current_assets", JDict
                [ f "1310_prepaid_rent"; f "1320_prepaid_liability_insurance";
                  f "total_other_current_assets" ]);
              f "total_current_assets" ]);
          ("non_current_assets", JDict
            [ f "1400_net_computer_equipment";
              f "1500_net_furniture_fixtures_equipment";
              f "1600_net_field_equipment"; f "1700_net_real_estate";
              f "1800_net_leasehold_improvements"; f "1900_other_assets";
              f "total_non_current_assets" ]);
          f "total_assets" ]);
      ("liabilities", JDict
        [ ("current_liabilities", JDict
            [ f "2000_accounts_payable"; f "2100_deferred_taxes";
              f "2200_line_of_credit_borrowing";
              f "2300_current_portion_long_term_debt";
              f "2400_other_current_liabilities";
              f "total_current_liabilities" ]);
          ("non_current_liabilities", JDict
            [ f "2500_long_term_debt"; f "2600_other_liabilities";
              f "total_non_current_liabilities" ]);
          f "total_liabilities" ]);
      ("equity", JDict
        [ f "3000_capital_stock"; f "3100_treasury_stock";
          f "3200_retained_earnings"; f "total_equity" ]);
      f "total_liabilities_and_equity" ].

(** the template with every leaf at [0] and empty header fields *)
Definition empty_header (k : string) : string := "".
Definition zero_leaf (k : string) : Num.num := Num.NInt 0.
Definition zero_template : json := schema empty_header zero_leaf.

End Template.

(* ================================================================= *)
(** * The pipeline: load the template, populate, read the result back *)

Module Pipeline.
Import Store.

(** [populate_balance_sheet] on a template just loaded into an empty
    store; the result is the populated schema and the caller's template
    as it is after the call, both read back as trees *)
Definition populate_tree (text : string) (template : json)
  : result (json * json) :=
  let '(t, h) := load template [] in
  match Populater.populate_balance_sheet text t h with
  | Ok (p, h') =>
      match snapshot 64 h' p, snapshot 64 h' t with
      | Some pj, Some tj => Ok (pj, tj)
      | _, _ => Raise TypeError
      end
  | Raise e => Raise e
  end.

(** the populated schema alone *)
Definition populated_of (text : string) (template : json) : result json :=
  match populate_tree text template with
  | Ok (p, _) => Ok p
  | Raise e => Raise e
  end.

(** the caller's template after the call *)
Definition template_after (text : string) (template : json) : result json :=
  match populate_tree text template with
  | Ok (_, t) => Ok t
  | Raise e => Raise e
  end.

End Pipeline.

Unset Implicit Arguments.

(* ================================================================= *)
(** * The balance check, as the specification words it *)

Module BalanceSpec.
Import Num Validator.

(** the value at a path of a tree *)
Fixpoint json_at (j : json) (path : list string) : option json :=
  match path with
  | [] => Some j
  | k :: rest =>
      match j with
      | JDict d => match Dict.get k d with
                   | Some v => json_at v rest
                   | None => None
                   end
      | _ => None
      end
  end.

(** an aggregate field, taken as [0] when the schema does not have it *)
Definition aggregate (schema : json) (path : list string) : json :=
  match json_at schema path with
  | Some v => v
  | None => JInt 0
  end.

(** what the field extractor leaves in a field: the [int] [0] or a
    [float] *)
Definition is_extracted_value (j : json) : bool :=
  match j with
  | JNum (NInt 0) => true
  | JNum (NFloat _) => true
  | _ => false
  end.

(** a section of a populated schema is a mapping, if it is there *)
Definition section_ok (schema : json) (section : string) : bool :=
  match json_at schema [section] with
  | None => true
  | Some (JDict _) => true
  | Some _ => false
  end.

Definition populated_aggregates (schema : json) : bool :=
  section_ok schema "assets" && section_ok schema "liabilities"
  && section_ok schema "equity"
  && is_extracted_value (aggregate schema ["assets"; "total_assets"])
  && is_extracted_value (aggregate schema ["liabilities"; "total_liabilities"])
  && is_extracted_value (aggregate schema ["equity"; "total_equity"])
  && is_extracted_value (aggregate schema ["total_liabilities_and_equity"]).

(** [|total_assets - (total_liabilities + total_equity)|] *)
Definition residual (ta tl te : json) : result num :=
  rbind (operand tl) (fun l =>
  rbind (operand te) (fun e =>
  rbind (add l e) (fun s =>
  rbind (operand ta) (fun a =>
  rbind (sub a s) (fun d => Ok (abs d)))))).

Definition f_0_99 : Float.float := Eval vm_compute in Float.of_decimal false 99 (-2).
Definition f_1_01 : Float.float := Eval vm_compute in Float.of_decimal false 101 (-2).

(** a schema that states total assets only *)
Definition assets_only (f : Float.float) : json :=
  JDict [("assets", JDict [("total_assets", JFloat f)])].

End BalanceSpec.

(* ================================================================= *)
(** * Writing integers: [str(n)] and [format(n, ",")] *)

Module Format.
Local Open Scope Z_scope.

Definition digit_char (d : Z) : ascii := ascii_of_nat (48 + Z.to_nat d).

Fixpoint decimal_fuel (fuel : nat) (n : Z) : chars :=
  match fuel with
  | O => []
  | S f =>
      if n <? 10 then [digit_char n]
      else decimal_fuel f (n / 10) ++ [digit_char (n mod 10)]
  end.

(** the decimal digits of [n >= 0], most significant first *)
Definition decimal (n : Z) : chars :=
  decimal_fuel (S (Z.to_nat (Z.log2 n))) n.

(** a comma after every third digit, on the digits taken from the
    right *)
Fixpoint group3 (rev_digits : chars) : chars :=
  match rev_digits with
  | a :: b :: c :: ((_ :: _) as rest) =>
      a :: b :: c :: ","%char :: group3 rest
  | _ => rev_digits
  end.

(** the thousands-separated representation of [n >= 0] *)
Definition thousands (n : Z) : string :=
  l2s (rev (group3 (rev (decimal n)))).

(** the accounting representation of [-n] *)
Definition parenthesized (n : Z) : string := "(" ++ thousands n ++ ")".

End Format.

(* ================================================================= *)
(** * The coverage count, as the specification words it *)

Module CoverageSpec.
Import Num Validator.

(** every entry of the schema at every depth, with the keys that lead
    to it, in the order of a walk: an entry, then what is under it *)
Fixpoint entries (j : json) (path : list string) {struct j}
  : list (list string * json) :=
  match j with
  | JDict d =>
      (fix go (d : list (string * json)) : list (list string * json) :=
         match d with
         | [] => []
         | (k, v) :: d' =>
             ((path ++ [k], v) :: entries v (path ++ [k])) ++ go d'
         end) d
  | _ => []
  end.

Definition is_number (j : json) : bool :=
  match json_num j with Some _ => true | None => false end.

Definition not_excluded (path : list string) : bool :=
  forallb (fun k => negb (excluded k)) path.

(** the entries that count: a number, none of the three names on the
    way to it *)
Definition counted (e : list string * json) : bool :=
  not_excluded (fst e) && is_number (snd e).

Definition is_nonzero (j : json) : bool :=
  match json_num j with Some n => ne n zero | None => false end.

(** the dotted path *)
Definition dotted (path : list string) : string :=
  fold_left field_path path "".

Definition counted_entries (j : json) : list (list string * json) :=
  filter counted (entries j []).

End CoverageSpec.

(* ================================================================= *)
(** * The statements of the populator, as a table *)

Module Locators.
Import Re Store Populater.
Local Open Scope store_scope.

(** the sections that lead to a leaf, its key, its pattern *)
Definition locator : Type := (list string * string * string)%type.

Definition loc_sections (e : locator) : list string := fst (fst e).
Definition loc_key (e : locator) : string := snd (fst e).
Definition loc_pattern (e : locator) : string := snd e.
Definition loc_path (e : locator) : list string := loc_sections e ++ [loc_key e].

(** the statements before the treasury-stock one, in order *)
Definition locators_before : list locator :=
  [ (cash, "1010_checking", "1010\s+Checking\s+(\d+(?:,\d+)*)");
    (cash, "1020_savings", "1020\s+Savings\s+(\d+(?:,\d+)*)");
    (cash, "1030_petty_cash", "1030\s+Petty\s+Cash\s+(\d+(?:,\d+)*)");
    (cash, "total_cash", "Total\s+Cash\s+(\d+(?:,\d+)*)");
    (current_assets, "1100_accounts_receivable", "1100\s+Accounts\s+Receivable\s+(\d+(?:,\d+)*)");
    (current_assets, "1200_work_in_process", "1200\s+Work\s+in\s+Process\s+(\d+(?:,\d+)*)");
    (other_current_assets, "1310_prepaid_rent", "1310\s+Prepaid\s+Rent\s+(\d+(?:,\d+)*)");
    (other_current_assets, "1320_prepaid_liability_insurance", "1320\s+Prepaid\s+Liability\s+Insurance\s+(\d+(?:,\d+)*)");
    (other_current_assets, "total_other_current_assets", "Total\s+Other\s+Current\s+Assets\s+(\d+(?:,\d+)*)");
    (current_assets, "total_current_assets", "Total\s+Current\s+Assets\s+(\d+(?:,\d+)*)");
    (non_current_assets, "1400_net_computer_equipment", "1400\s+Net\s+Computer\s+Equipment\s+(\d+(?:,\d+)*)");
    (non_current_assets, "1500_net_furniture_fixtures_equipment", "1500\s+Net\s+Furniture,\s+Fixtures,\s+&\s+Equipment\s+(\d+(?:,\d+)*)");
    (non_current_assets, "1600_net_field_equipment", "1600\s+Net\s+Field\s+Equipment\s+(\d+(?:,\d+)*)");
    (non_current_assets, "1700_net_real_estate", "1700\s+Net\s+Real\s+Estate\s+(\d+(?:,\d+)*)");
    (non_current_assets, "1800_net_leasehold_improvements", "1800\s+Net\s+Leasehold\s+Improvements\s+(\d+(?:,\d+)*)");
    (non_current_assets, "1900_other_assets", "1900\s+Other\s+Assets\s+(\d+(?:,\d+)*)");
    (non_current_assets, "total_non_current_assets", "Total\s+Non-Current\s+Assets\s+(\d+(?:,\d+)*)");
    (["assets"], "total_assets", "Total\s+Assets\s+(\d+(?:,\d+)*)");
    (current_liabilities, "2000_accounts_payable", "2000\s+Accounts\s+Payable\s+(\d+(?:,\d+)*)");
    (current_liabilities, "2100_deferred_taxes", "2100\s+Deferred\s+Taxes\s+(\d+(?:,\d+)*)");
    (current_liabilities, "2200_line_of_credit_borrowing", "2200\s+Line\s+of\s+Credit\s+Borrowing\s+(\d+(?:,\d+)*)");
    (current_liabilities, "2300_current_portion_long_term_debt", "2300\s+Current\s+Portion\s+of\s+Long-Term\s+Debt\s+(\d+(?:,\d+)*)");
    (current_liabilities, "2400_other_current_liabilities", "2400\s+Other\s+Current\s+Liabilities\s+(\d+(?:,\d+)*)");
    (current_liabilities, "total_current_liabilities", "Total\s+Current\s+Liabilities\s+(\d+(?:,\d+)*)");
    (non_current_liabilities, "2500_long_term_debt", "2500\s+Long-Term\s+Debt\s+(\d+(?:,\d+)*)");
    (non_current_liabilities, "2600_other_liabilities", "2600\s+Other\s+Liabilities\s+(\d+(?:,\d+)*)");
    (non_current_liabilities, "total_non_current_liabilities", "Total\s+Non-Current\s+Liabilities\s+(\d+(?:,\d+)*)");
    (["liabilities"], "total_liabilities", "Total\s+Liabilities\s+(\d+(?:,\d+)*)");
    (["equity"], "3000_capital_stock", "3000\s+Capital\s+Stock\s+(\d+(?:,\d+)*)") ].

(** the statements after it *)
Definition locators_after : list locator :=
  [ (["equity"], "3200_retained_earnings", "3200\s+Retained\s+Earnings\s+(\d+(?:,\d+)*)");
    (["equity"], "total_equity", "Total\s+Equity\s+(\d+(?:,\d+)*)");
    ([], "total_liabilities_and_equity", "Total\s+Liabilities\s+and\s+Equity\s+(\d+(?:,\d+)*)") ].

Definition unconditional_locators : list locator :=
  locators_before ++ locators_after.

Definition treasury_path : list string := ["equity"; "3100_treasury_stock"].

(** the statements of a table, one after the other, then [k] *)
Definition run_locators {A} (populated : pyval) (text_content : string)
           (l : list locator) (k : M A) : M A :=
  fold_right
    (fun e acc =>
       set_extracted populated (loc_sections e) (loc_key e) text_content
                     (loc_pattern e) ;; acc)
    k l.

(** what the field extractor gives for a pattern that compiles *)
Definition extracted (text pattern : string) : pyval :=
  match extract_value_from_text text pattern with
  | Ok v => v
  | Raise _ => PNone
  end.

(** the pattern compiles and has a group 1 *)
Definition pattern_ok (pattern : string) : bool :=
  match ReParse.compile pattern with
  | Some r => has_group1 r
  | None => false
  end.

(** the compiled treasury-stock locator *)
Definition treasury_regex : regex :=
  match ReParse.compile treasury_pattern with
  | Some r => r
  | None => Eps
  end.

(** the section [secs] of [p] is there and is a [dict] *)
Definition shaped (h : store) (p : pyval) (secs : list string) : bool :=
  match lookup h p secs with
  | Some o => is_dict h o
  | None => false
  end.

Definition all_sections : list (list string) :=
  [ []; ["assets"]; current_assets; cash; other_current_assets;
    non_current_assets; ["liabilities"]; current_liabilities;
    non_current_liabilities; ["equity"] ].

(** a schema the populator can fill: every section its statements
    address is a [dict] *)
Definition well_shaped (h : store) (template : pyval) : bool :=
  forallb (shaped h template) all_sections.

Definition disjointb (l1 l2 : list string) : bool :=
  forallb (fun k => negb (existsb (String.eqb k) l2)) l1.

Fixpoint nodupb (l : list string) : bool :=
  match l with
  | [] => true
  | k :: l' => negb (existsb (String.eqb k) l') && nodupb l'
  end.

End Locators.

(* ================================================================= *)
(** * Facts about the matcher *)

Module ReFacts.
Import Re.

Lemma step_char_sound (fl : flags) R (p : ascii -> bool) s i g (k : cont R) x :
  step_char p s i g k = Some x ->
  exists c s', s = c :: s' /\ p c = true /\ k s' (S i) g = Some x.
Proof.
  destruct s as [|c s']; simpl; [discriminate|].
  destruct (p c) eqn:E; [|discriminate].
  intros H. exists c, s'. auto.
Qed.

Lemma orelse_some R (a : option R) b x :
  orelse a b = Some x -> a = Some x \/ (a = None /\ b tt = Some x).
Proof. destruct a; simpl; intros H; [left|right]; auto. Qed.

(** the loop of a starred pattern, on the matcher of its body *)
Definition star_loop (R : Type)
           (body : chars -> nat -> option chars -> cont R -> option R)
           (k : cont R) : nat -> chars -> nat -> option chars -> option R :=
  fix loop (n : nat) (s : chars) (i : nat) (g : option chars) : option R :=
    match n with
    | O => k s i g
    | S n' =>
        orelse
          (body s i g (fun s' i' g' =>
             if (i <? i')%nat then loop n' s' i' g' else k s' i' g'))
          (fun _ => k s i g)
    end.

Lemma run_star (fl : flags) R (r : regex) s i g (k : cont R) :
  run fl (Star r) s i g k
  = star_loop R (run fl r) k (S (List.length s)) s i g.
Proof. reflexivity. Qed.

(** Whatever the matcher finds is in the language of the pattern: a
    successful run splits the text into a matched front and a rest the
    continuation accepts. *)
Lemma run_sound (fl : flags) R (r : regex) :
  forall s i g (k : cont R) x,
    run fl r s i g k = Some x ->
    exists s1 s2 g',
      s = s1 ++ s2 /\ matches fl r s1 /\
      k s2 (i + List.length s1)%nat g' = Some x.
Proof.
  induction r; intros s i g k x H; simpl in H.
  - exists [], s, g. simpl. rewrite Nat.add_0_r. repeat split; auto. constructor.
  - apply (step_char_sound fl) in H. destruct H as (c' & s' & -> & Hp & Hk).
    exists [c'], s', g. simpl. rewrite Nat.add_1_r.
    repeat split; auto. constructor; auto.
  - apply (step_char_sound fl) in H. destruct H as (c' & s' & -> & Hp & Hk).
    exists [c'], s', g. simpl. rewrite Nat.add_1_r.
    repeat split; auto. constructor; auto.
  - apply (step_char_sound fl) in H. destruct H as (c' & s' & -> & Hp & Hk).
    exists [c'], s', g. simpl. rewrite Nat.add_1_r.
    repeat split; auto. constructor; auto.
  - apply (step_char_sound fl) in H. destruct H as (c' & s' & -> & Hp & Hk).
    exists [c'], s', g. simpl. rewrite Nat.add_1_r.
    repeat split; auto. constructor; auto.
  - apply (step_char_sound fl) in H. destruct H as (c' & s' & -> & Hp & Hk).
    exists [c'], s', g. simpl. rewrite Nat.add_1_r.
    repeat split; auto. constructor; auto.
  - apply IHr1 in H. destruct H as (s1 & s2 & g1 & -> & M1 & H).
    apply IHr2 in H. destruct H as (s3 & s4 & g2 & -> & M2 & H).
    exists (s1 ++ s3), s4, g2. rewrite <- app_assoc.
    rewrite length_app, Nat.add_assoc.
    repeat split; auto. constructor; auto.
  - apply orelse_some in H. destruct H as [H | [_ H]].
    + apply IHr1 in H. destruct H as (s1 & s2 & g1 & -> & M1 & H).
      exists s1, s2, g1. repeat split; auto. apply MAltL; auto.
    + apply IHr2 in H. destruct H as (s1 & s2 & g1 & -> & M1 & H).
      exists s1, s2, g1. repeat split; auto. apply MAltR; auto.
  - change (star_loop R (run fl r) k (S (List.length s)) s i g = Some x) in H.
    revert H. generalize (S (List.length s)). intros n. revert s i g.
    induction n as [|n IHn]; intros s i g H; cbn [star_loop] in H.
    + exists [], s, g. simpl. rewrite Nat.add_0_r.
      repeat split; auto. constructor.
    + apply orelse_some in H. destruct H as [H | [_ H]].
      * apply IHr in H. destruct H as (s1 & s2 & g1 & -> & M1 & H).
        destruct (i <? i + List.length s1)%nat.
        -- apply IHn in H. destruct H as (s3 & s4 & g2 & -> & M2 & H).
           exists (s1 ++ s3), s4, g2. rewrite <- app_assoc.
           rewrite length_app, Nat.add_assoc.
           repeat split; auto. constructor; auto.
        -- exists s1, s2, g1. repeat split; auto.
           rewrite <- (app_nil_r s1). constructor; auto. constructor.
      * exists [], s, g. simpl. rewrite Nat.add_0_r.
        repeat split; auto. constructor.
  - apply IHr in H. destruct H as (s1 & s2 & g1 & -> & M1 & H).
    eexists s1, s2, _. repeat split; eauto. constructor; auto.
Qed.

Lemma match_at_sound fl r s n g :
  match_at fl r s = Some (n, g) ->
  exists s1 s2, s = s1 ++ s2 /\ matches fl r s1.
Proof.
  unfold match_at. intros H. apply run_sound in H.
  destruct H as (s1 & s2 & g' & -> & M & _). eauto.
Qed.

(** [w] occurs in [s]: [s = pre ++ w ++ post] *)
Definition occurs_in (w s : chars) : Prop :=
  exists pre post, s = pre ++ w ++ post.

(** [w] occurs in [s] beginning at position [j] *)
Definition occurs_at (j : nat) (w s : chars) : Prop :=
  exists pre post, s = pre ++ w ++ post /\ List.length pre = j.

(** No match where no part of the text is in the language. *)
Lemma scan_none fl r : forall s i,
  (forall w, occurs_in w s -> ~ matches fl r w) -> scan fl r i s = None.
Proof.
  induction s as [|c s IH]; intros i H; simpl.
  - destruct (match_at fl r []) as [[n g]|] eqn:E; auto.
    apply match_at_sound in E. destruct E as (s1 & s2 & E & M).
    exfalso. apply (H s1); auto. exists [], s2. auto.
  - destruct (match_at fl r (c :: s)) as [[n g]|] eqn:E.
    + apply match_at_sound in E. destruct E as (s1 & s2 & E & M).
      exfalso. apply (H s1); auto. exists [], s2. auto.
    + apply IH. intros w (pre & post & ->) M.
      apply (H w); auto. exists (c :: pre), post. auto.
Qed.

(** a match of [r] begins at position [j] of [s] *)
Definition match_begins_at (fl : flags) (r : regex) (j : nat) (s : chars) : Prop :=
  exists w post, skipn j s = w ++ post /\ matches fl r w.

(** The scan skips a front in which no match begins. *)
Lemma scan_skip fl r : forall pre s i,
  (forall j, (j < List.length pre)%nat -> ~ match_begins_at fl r j (pre ++ s)) ->
  scan fl r i (pre ++ s) = scan fl r (i + List.length pre) s.
Proof.
  induction pre as [|c pre IH]; intros s i H.
  - simpl. rewrite Nat.add_0_r. auto.
  - change ((c :: pre) ++ s) with (c :: (pre ++ s)).
    simpl scan. destruct (match_at fl r (c :: pre ++ s)) as [[n g]|] eqn:E.
    + apply match_at_sound in E. destruct E as (s1 & s2 & E & M).
      exfalso. apply (H 0%nat); simpl; try lia.
      exists s1, s2. simpl. auto.
    + rewrite IH.
      * simpl. f_equal. lia.
      * intros j Hj (w & post & E1 & M).
        apply (H (S j)); simpl; try lia.
        exists w, post. auto.
Qed.

(** [r] sets group 1 on every way through it *)
Fixpoint sets_group1 (r : regex) : bool :=
  match r with
  | Cat a b => sets_group1 a || sets_group1 b
  | Alt a b => sets_group1 a && sets_group1 b
  | Group n a => (n =? 1)%nat || sets_group1 a
  | _ => false
  end.

Lemma run_captures (fl : flags) R (r : regex) :
  forall s i g (k : cont R) x,
    run fl r s i g k = Some x ->
    exists s' i' g',
      k s' i' g' = Some x
      /\ (sets_group1 r = true \/ g <> None -> g' <> None).
Proof.
  induction r; intros s i g k x H; simpl in H;
    try (apply (step_char_sound fl) in H;
         destruct H as (c' & s' & -> & Hp & Hk);
         exists s', (S i), g; split; [exact Hk|];
         intros [X|X]; [discriminate X|exact X]).
  - exists s, i, g. split; auto. intros [X|X]; [discriminate X|exact X].
  - apply IHr1 in H. destruct H as (s1 & i1 & g1 & H & C1).
    apply IHr2 in H. destruct H as (s2 & i2 & g2 & H & C2).
    exists s2, i2, g2. split; auto. cbn [sets_group1].
    intros [X|X].
    + apply orb_true_iff in X. destruct X as [X|X]; auto.
    + auto.
  - apply orelse_some in H. cbn [sets_group1]. destruct H as [H | [_ H]].
    + apply IHr1 in H. destruct H as (s1 & i1 & g1 & H & C1).
      exists s1, i1, g1. split; auto. intros [X|X]; auto.
      apply andb_prop in X. destruct X. auto.
    + apply IHr2 in H. destruct H as (s1 & i1 & g1 & H & C1).
      exists s1, i1, g1. split; auto. intros [X|X]; auto.
      apply andb_prop in X. destruct X. auto.
  - change (star_loop R (run fl r) k (S (List.length s)) s i g = Some x) in H.
    revert H. generalize (S (List.length s)). intros n. revert s i g.
    induction n as [|n IHn]; intros s i g H; cbn [star_loop] in H.
    + exists s, i, g. split; auto. intros [X|X]; [discriminate X|exact X].
    + apply orelse_some in H. destruct H as [H | [_ H]].
      * apply IHr in H. destruct H as (s1 & i1 & g1 & H & C1).
        destruct (i <? i1)%nat.
        -- apply IHn in H. destruct H as (s2 & i2 & g2 & H & C2).
           exists s2, i2, g2. split; auto.
           intros [X|X]; [discriminate X|]. auto.
        -- exists s1, i1, g1. split; auto.
           intros [X|X]; [discriminate X|]. auto.
      * exists s, i, g. split; auto. intros [X|X]; [discriminate X|exact X].
  - apply IHr in H. destruct H as (s1 & i1 & g1 & H & C1).
    eexists s1, i1, _. split; [exact H|]. cbn [sets_group1].
    destruct (n =? 1)%nat; [discriminate|]. cbn [orb]. exact C1.
Qed.

Lemma scan_group1 fl r : forall s i m,
  sets_group1 r = true -> scan fl r i s = Some m -> m_group1 m <> None.
Proof.
  induction s as [|c s IH]; intros i m S H; simpl in H.
  - destruct (match_at fl r []) as [[n g]|] eqn:E; [|discriminate].
    injection H as <-. cbn. unfold match_at in E.
    apply run_captures in E. destruct E as (s' & i' & g' & E & C).
    injection E as _ <-. auto.
  - destruct (match_at fl r (c :: s)) as [[n g]|] eqn:E.
    + injection H as <-. cbn. unfold match_at in E.
      apply run_captures in E. destruct E as (s' & i' & g' & E & C).
      injection E as _ <-. auto.
    + eapply IH; eauto.
Qed.

(** A pattern that begins with a literal matches nowhere in a text
    without that character. *)
Lemma first_char_absent fl x r' s :
  forallb (fun c => negb (lit_matches fl x c)) s = true ->
  forall w, occurs_in w s -> ~ matches fl (Cat (Lit x) r') w.
Proof.
  intros F w (pre & post & ->) M.
  inversion M as [| | | | | |r1 r2 s1 s2 M1 M2| | | | |]; subst.
  inversion M1; subst.
  rewrite forallb_forall in F.
  assert (I : In c (pre ++ ([c] ++ s2) ++ post)).
  { apply in_or_app. right. simpl. auto. }
  apply F in I. rewrite H0 in I. discriminate.
Qed.

End ReFacts.

(* ================================================================= *)
(** * The pattern reader and the float reader on examples *)

Module ReTests.
Import Re ReParse.
Definition digits1 := Cat Digit (Star Digit).
Example compile_number :
  compile "(\d+(?:,\d+)*)"
  = Some (Group 1 (Cat digits1 (Star (Cat (Lit ",") digits1)))).
Proof. reflexivity. Qed.
Example compile_date :
  compile "As of\s+([^\n]+)"
  = Some (Cat (Lit "A") (Cat (Lit "s") (Cat (Lit " ") (Cat (Lit "o") (Cat (Lit "f")
      (Cat (Cat Space (Star Space))
         (Group 1 (Cat (CSet true [IChar Chars.newline])
                       (Star (CSet true [IChar Chars.newline])))))))))).
Proof. reflexivity. Qed.
Example compile_company :
  compile "([A-Z]+),?\s*Inc\.?"
  = Some (Cat (Group 1 (Cat (CSet false [IRange "A" "Z"]) (Star (CSet false [IRange "A" "Z"]))))
         (Cat (Alt (Lit ",") Eps) (Cat (Star Space)
         (Cat (Lit "I") (Cat (Lit "n") (Cat (Lit "c") (Alt (Lit ".") Eps))))))).
Proof. reflexivity. Qed.
Example search_checking :
  option_map (fun m => (m_start m, l2s (m_group0 m), option_map l2s (m_group1 m)))
    (match compile "1010\s+Checking\s+(\d+(?:,\d+)*)" with
     | Some r => search_re IMS r "x 1010  checking
1,250,000,x"
     | None => None end)
  = Some (2%nat, "1010  checking
1,250,000", Some "1,250,000").
Proof. reflexivity. Qed.
End ReTests.

Module FloatTests.
Import Float FloatParse.
Local Open Scope Z_scope.
Example tenth : py_float "0.1" = Some (S754_finite false 7205759403792794 (-56)).
Proof. vm_compute. reflexivity. Qed.
Example big : py_float " -1_250_000.50e-2 " = option_map opp (py_float "12500.005").
Proof. vm_compute. reflexivity. Qed.
Example p53 : py_float "9007199254740993" = py_float "9007199254740992".
Proof. vm_compute. reflexivity. Qed.
Example inf1 : py_float "1e400" = py_float "+InFinity".
Proof. vm_compute. reflexivity. Qed.
Example bad : map py_float ["1_"; "_1"; "1__0"; "."; "e5"; "1e"; "--5"; "-"; ""; "1.5.2"; "0x10"]
              = repeat None 11.
Proof. vm_compute. reflexivity. Qed.
Example good : map (fun s => match py_float s with Some _ => true | None => false end)
                 ["1."; ".5"; "1e5"; "+.5E-3"; "nan"; "-NAN"; "1_0.0_1e1_0"]
              = repeat true 7.
Proof. vm_compute. reflexivity. Qed.
End FloatTests.

(* ================================================================= *)
(** * The balance validator *)

Module BalanceFacts.
Import Num Validator BalanceSpec.

Lemma extracted_operand j :
  is_extracted_value j = true ->
  (j = JInt 0 /\ operand j = Ok (NInt 0))
  \/ (exists f, j = JFloat f /\ operand j = Ok (NFloat f)).
Proof.
  destruct j as [| |[z|f]| | |]; simpl; try discriminate.
  - destruct z; try discriminate. intros _. left. auto.
  - intros _. right. exists f. split; reflexivity.
Qed.

(** Arithmetic on what the extractor leaves never raises. *)
Lemma extracted_add a b :
  is_extracted_value (JNum a) = true -> is_extracted_value (JNum b) = true ->
  exists s, add a b = Ok s /\ is_extracted_value (JNum s) = true.
Proof.
  destruct a as [[| |]|fa], b as [[| |]|fb]; simpl; try discriminate;
    intros _ _; eexists; split; try reflexivity; reflexivity.
Qed.

Lemma extracted_sub a b :
  is_extracted_value (JNum a) = true -> is_extracted_value (JNum b) = true ->
  exists s, sub a b = Ok s.
Proof.
  destruct a as [[| |]|fa], b as [[| |]|fb]; simpl; try discriminate;
    intros _ _; eexists; reflexivity.
Qed.

Lemma get_default_section d section :
  section_ok (JDict d) section = true ->
  exists sec,
    get_default (JDict d) section (JDict []) = Ok (JDict sec)
    /\ forall key, aggregate (JDict d) [section; key]
                   = match Dict.get key sec with Some v => v | None => JInt 0 end.
Proof.
  unfold section_ok, aggregate. simpl.
  destruct (Dict.get section d) as [v|] eqn:E.
  - destruct v; try discriminate. intros _. eexists. split; [reflexivity|].
    intros key. destruct (Dict.get key d0); reflexivity.
  - intros _. exists []. split; auto.
Qed.

End BalanceFacts.

Module BalanceClaims.
Import Num Validator BalanceSpec BalanceFacts.

(** C1. On a populated schema the validator returns a report, and it
    reports [is_balanced] exactly when
    [|total_assets - (total_liabilities + total_equity)| < 1.0], each of
    the three aggregates being taken as [0] when the schema does not
    have it; a difference of 0.99 is balanced and one of 1.01 is not. *)
Theorem is_balanced_iff_residual_below_one (d : list (string * json))
        (Hpop : populated_aggregates (JDict d) = true) :
  (exists r diff,
      validate_balance_sheet (JDict d) = Ok r
      /\ residual (aggregate (JDict d) ["assets"; "total_assets"])
                  (aggregate (JDict d) ["liabilities"; "total_liabilities"])
                  (aggregate (JDict d) ["equity"; "total_equity"]) = Ok diff
      /\ balance_difference r = diff
      /\ (is_balanced r = true <-> lt diff (NFloat Float.one) = true))
  /\ (exists r, validate_balance_sheet (assets_only f_0_99) = Ok r
                /\ balance_difference r = NFloat f_0_99
                /\ is_balanced r = true)
  /\ (exists r, validate_balance_sheet (assets_only f_1_01) = Ok r
                /\ balance_difference r = NFloat f_1_01
                /\ is_balanced r = false).
Proof.
  split; [|split; eexists; (split; [vm_compute; reflexivity|split; reflexivity])].
  unfold populated_aggregates in Hpop.
  repeat (apply andb_prop in Hpop; destruct Hpop as [Hpop ?]).
  destruct (get_default_section d "assets") as (sa & Ea & Ha); auto.
  destruct (get_default_section d "liabilities") as (sl & El & Hl); auto.
  destruct (get_default_section d "equity") as (se & Ee & He); auto.
  rewrite Ha, Hl, He in *.
  unfold validate_balance_sheet.
  rewrite Ea, El, Ee. cbn [rbind get_default].
  unfold aggregate in H. cbn [json_at] in H.
  set (ta := match Dict.get "total_assets" sa with Some v => v | None => JInt 0 end) in *.
  set (tl := match Dict.get "total_liabilities" sl with Some v => v | None => JInt 0 end) in *.
  set (te := match Dict.get "total_equity" se with Some v => v | None => JInt 0 end) in *.
  set (st := match Dict.get "total_liabilities_and_equity" d with
             | Some v => v | None => JInt 0 end) in *.
  assert (St : is_extracted_value st = true).
  { subst st. destruct (Dict.get "total_liabilities_and_equity" d); exact H. }
  clear H.
  unfold residual.
  assert (N : forall j, is_extracted_value j = true ->
                        exists n, j = JNum n /\ operand j = Ok n
                                  /\ is_extracted_value (JNum n) = true).
  { intros j Hj. destruct (extracted_operand j Hj) as [[-> E]|(f & -> & E)];
      eexists; (split; [reflexivity|split; [exact E|reflexivity]]). }
  destruct (N ta) as (na & Eta & Oa & Xa); auto.
  destruct (N tl) as (nl & Etl & Ol & Xl); auto.
  destruct (N te) as (ne & Ete & Oe & Xe); auto.
  destruct (N st) as (ns & Est & Os & Xs); auto.
  simpl get_default. fold st.
  rewrite Oa, Ol, Oe, Os. cbn [rbind].
  destruct (extracted_add nl ne Xl Xe) as (s & Es & Xsum).
  rewrite Es. cbn [rbind].
  destruct (extracted_sub na s Xa Xsum) as (d1 & E1).
  destruct (extracted_sub na ns Xa Xs) as (d2 & E2).
  rewrite E1, E2. cbn [rbind].
  eexists; eexists; split; [reflexivity|].
  split; [reflexivity|]. split; [reflexivity|]. simpl. tauto.
Qed.

(** a schema with no liabilities section at all, total equity not yet
    extracted *)
Definition sample_schema : list (string * json) :=
  [("assets", JDict [("total_assets", JFloat f_0_99)]);
   ("equity", JDict [("total_equity", JInt 0)])].

Lemma is_balanced_iff_residual_below_one_witness :
  populated_aggregates (JDict sample_schema) = true
  /\ exists r, validate_balance_sheet (JDict sample_schema) = Ok r
               /\ is_balanced r = true.
Proof.
  split; [reflexivity|].
  destruct (is_balanced_iff_residual_below_one sample_schema eq_refl)
    as [(r & diff & E & R & B & I) _].
  exists r. split; [exact E|].
  apply I. vm_compute in R. injection R as <-. reflexivity.
Defined.

End BalanceClaims.

(* ================================================================= *)
(** * The extractor and the normalizer on what is not there *)

Module AbsenceClaims.
Import Re ReFacts Populater Locators.

Lemma extract_no_match text pattern r :
  ReParse.compile pattern = Some r ->
  search_re IMS r text = None ->
  extract_value_from_text text pattern = Ok (PInt 0).
Proof.
  intros C S. unfold extract_value_from_text, re_search.
  rewrite C. simpl. rewrite S. reflexivity.
Qed.

(** every pattern of the table is read by [re.compile] *)
Lemma locators_compile e :
  In e unconditional_locators ->
  exists r, ReParse.compile (loc_pattern e) = Some r.
Proof.
  assert (A : forallb (fun e => match ReParse.compile (loc_pattern e) with
                                | Some _ => true
                                | None => false
                                end) unconditional_locators = true)
    by (vm_compute; reflexivity).
  rewrite forallb_forall in A. intros I. specialize (A e I).
  destruct (ReParse.compile (loc_pattern e)) as [r|]; [|discriminate A].
  exists r. reflexivity.
Qed.

(** C4. Absence and parse failure both yield zero: for each of the 32
    locators of the populator, a text with no part matching the
    locator's pattern gives [0]; a literal that does not parse as a
    float once separators and accounting parentheses are taken care of
    gives [0], no error; so do an absent and an empty literal. *)
Theorem absence_and_parse_failure_yield_zero :
  (forall e,
      In e unconditional_locators ->
      exists r,
        ReParse.compile (loc_pattern e) = Some r
        /\ forall text,
             (forall w, occurs_in w (s2l text) -> ~ matches IMS r w) ->
             extract_value_from_text text (loc_pattern e) = Ok (PInt 0))
  /\ (forall literal,
         FloatParse.py_float (l2s (cleaned_literal literal)) = None ->
         clean_number (Some literal) = PInt 0)
  /\ clean_number None = PInt 0
  /\ clean_number (Some "") = PInt 0.
Proof.
  repeat split.
  - intros e I. destruct (locators_compile e I) as (r & C).
    exists r. split; [exact C|]. intros text H.
    apply extract_no_match with r; auto.
    apply scan_none. exact H.
  - intros literal H. unfold clean_number. rewrite H.
    destruct literal; reflexivity.
Qed.

Lemma absence_and_parse_failure_yield_zero_witness :
  extract_value_from_text "Cash and equivalents: none."
    "1010\s+Checking\s+(\d+(?:,\d+)*)" = Ok (PInt 0)
  /\ clean_number (Some "12,3x4") = PInt 0
  /\ clean_number (Some "(1,2") = PInt 0.
Proof.
  destruct absence_and_parse_failure_yield_zero as (A & B & _).
  split; [|split].
  - destruct (A (cash, "1010_checking"%string,
                 "1010\s+Checking\s+(\d+(?:,\d+)*)"%string))
      as (r & C & H).
    + vm_compute. tauto.
    + vm_compute in C. injection C as C. subst r.
      apply H. apply first_char_absent. vm_compute. reflexivity.
  - apply B. vm_compute. reflexivity.
  - apply B. vm_compute. reflexivity.
Defined.

End AbsenceClaims.

(* ================================================================= *)
(** * Facts about written integers *)

Module FormatFacts.
Import Format FloatParse Populater.
Local Open Scope Z_scope.

Example thousands_1250000 : thousands 1250000 = "1,250,000"%string.
Proof. reflexivity. Qed.
Example thousands_small :
  map thousands [0; 7; 999; 1000; 12345; 100000]
  = ["0"; "7"; "999"; "1,000"; "12,345"; "100,000"]%string.
Proof. reflexivity. Qed.

(** what a digit is not *)
Lemma digit_facts c :
  Chars.is_digit c = true ->
  Chars.is_space c = false
  /\ Re.set_matches Re.no_flags false comma_or_space c = false
  /\ Ascii.eqb c "(" = false /\ Ascii.eqb c "-" = false
  /\ Ascii.eqb c "+" = false /\ is_e c = false /\ is_dot c = false
  /\ Ascii.eqb (Chars.lower c) "i" = false
  /\ Ascii.eqb (Chars.lower c) "n" = false.
Proof.
  destruct c as [b0 b1 b2 b3 b4 b5 b6 b7].
  destruct b0, b1, b2, b3, b4, b5, b6, b7; vm_compute;
    intros H; try discriminate H; repeat split.
Qed.

Lemma digit_char_is_digit d :
  0 <= d < 10 ->
  Chars.is_digit (digit_char d) = true /\ Chars.digit_value (digit_char d) = d.
Proof.
  intros H.
  assert (C : Chars.code (digit_char d) = (48 + Z.to_nat d)%nat).
  { unfold Chars.code, digit_char. apply nat_ascii_embedding. lia. }
  unfold Chars.is_digit, Chars.digit_value, Chars.in_range. rewrite C.
  split.
  - apply andb_true_intro. split; apply Nat.leb_le; lia.
  - lia.
Qed.

Lemma digits_value_app l d :
  digits_value (l ++ [d]) = 10 * digits_value l + Chars.digit_value d.
Proof. unfold digits_value. rewrite fold_left_app. reflexivity. Qed.

Lemma single_digit_spec n :
  0 <= n < 10 ->
  forallb Chars.is_digit [digit_char n] = true
  /\ digits_value [digit_char n] = n /\ [digit_char n] <> [].
Proof.
  intros H. destruct (digit_char_is_digit n H) as [D V].
  unfold digits_value. cbn [forallb fold_left]. rewrite D, V.
  repeat split; try lia; discriminate.
Qed.

Lemma decimal_fuel_step f n :
  decimal_fuel (S f) n
  = if n <? 10 then [digit_char n]
    else decimal_fuel f (n / 10) ++ [digit_char (n mod 10)].
Proof. reflexivity. Qed.

Lemma decimal_fuel_spec : forall fuel n,
  0 <= n < 10 ^ Z.of_nat (S fuel) ->
  forallb Chars.is_digit (decimal_fuel (S fuel) n) = true
  /\ digits_value (decimal_fuel (S fuel) n) = n
  /\ decimal_fuel (S fuel) n <> [].
Proof.
  induction fuel as [|f IH]; intros n H; rewrite decimal_fuel_step.
  - change (10 ^ Z.of_nat 1) with 10 in H.
    assert (E : (n <? 10) = true) by (apply Z.ltb_lt; lia).
    rewrite E. apply single_digit_spec. lia.
  - destruct (n <? 10) eqn:E.
    + apply Z.ltb_lt in E. apply single_digit_spec. lia.
    + apply Z.ltb_ge in E.
      rewrite Nat2Z.inj_succ, Z.pow_succ_r in H by lia.
      destruct (IH (n / 10)) as (D & V & _).
      { split; [apply Z.div_pos; lia|].
        apply Z.div_lt_upper_bound; lia. }
      assert (M : 0 <= n mod 10 < 10) by (apply Z.mod_pos_bound; lia).
      destruct (single_digit_spec (n mod 10) M) as (D1 & V1 & _).
      rewrite forallb_app, D, D1, digits_value_app, V.
      destruct (digit_char_is_digit (n mod 10) M) as [_ V2]. rewrite V2.
      repeat split.
      * rewrite (Z.div_mod n 10) at 3 by lia. lia.
      * destruct (decimal_fuel (S f) (n / 10)); discriminate.
Qed.

Lemma decimal_spec n :
  0 <= n ->
  forallb Chars.is_digit (decimal n) = true
  /\ digits_value (decimal n) = n /\ decimal n <> [].
Proof.
  intros H. apply decimal_fuel_spec. split; auto.
  destruct (Z.eq_dec n 0) as [->|N]; [reflexivity|].
  rewrite Nat2Z.inj_succ, Z2Nat.id by (apply Z.log2_nonneg).
  apply Z.lt_le_trans with (2 ^ Z.succ (Z.log2 n)).
  - apply Z.log2_spec. lia.
  - apply Z.pow_le_mono_l. lia.
Qed.

Lemma strip_cons_digit c l :
  Chars.is_digit c = true ->
  strip_separators (c :: l) = c :: strip_separators l.
Proof.
  intros H. apply digit_facts in H. destruct H as (_ & H & _).
  unfold strip_separators. cbn [filter]. rewrite H. reflexivity.
Qed.

Lemma strip_cons_comma l :
  strip_separators (","%char :: l) = strip_separators l.
Proof. reflexivity. Qed.

Lemma strip_digits l :
  forallb Chars.is_digit l = true -> strip_separators l = l.
Proof.
  induction l as [|c l IH]; cbn [forallb]; intros H; [reflexivity|].
  apply andb_prop in H. destruct H as [H1 H2].
  rewrite strip_cons_digit, IH; auto.
Qed.

(** dropping the separators of the grouped digits gives the digits *)
Lemma strip_group3 : forall n l,
  (List.length l <= n)%nat ->
  forallb Chars.is_digit l = true ->
  strip_separators (group3 l) = l.
Proof.
  induction n as [|n IH]; intros l L D.
  - destruct l; [reflexivity|simpl in L; lia].
  - destruct l as [|a [|b [|c [|d rest]]]];
      try (apply strip_digits; exact D).
    change (group3 (a :: b :: c :: d :: rest))
      with (a :: b :: c :: ","%char :: group3 (d :: rest)).
    cbn [forallb] in D.
    apply andb_prop in D. destruct D as [Da D].
    apply andb_prop in D. destruct D as [Db D].
    apply andb_prop in D. destruct D as [Dc D].
    rewrite !strip_cons_digit, strip_cons_comma by assumption.
    rewrite IH; auto.
    cbn [List.length] in L |- *. lia.
Qed.

Lemma strip_separators_rev l :
  strip_separators (rev l) = rev (strip_separators l).
Proof. unfold strip_separators. apply filter_rev. Qed.

Lemma s2l_l2s l : s2l (l2s l) = l.
Proof. apply list_ascii_of_string_of_list_ascii. Qed.

Lemma s2l_app a b : s2l (a ++ b)%string = s2l a ++ s2l b.
Proof. induction a; simpl; auto. unfold s2l in *. simpl. f_equal. auto. Qed.

Lemma forallb_rev (p : ascii -> bool) l :
  forallb p (rev l) = forallb p l.
Proof.
  induction l as [|c l IH]; simpl; auto.
  rewrite forallb_app, IH. simpl. rewrite andb_true_r. apply andb_comm.
Qed.

(** the separators of [thousands n] dropped: the decimal digits *)
Lemma strip_thousands n :
  0 <= n -> strip_separators (s2l (thousands n)) = decimal n.
Proof.
  intros H. unfold thousands. rewrite s2l_l2s, strip_separators_rev.
  rewrite (strip_group3 (List.length (rev (decimal n)))); auto.
  - apply rev_involutive.
  - rewrite forallb_rev. apply decimal_spec; auto.
Qed.

End FormatFacts.

(* ================================================================= *)
(** * [float()] on digit strings *)

Module ParseFacts.
Import Float FloatParse FormatFacts.
Local Open Scope Z_scope.

Definition head_not_space (l : chars) : Prop :=
  match l with c :: _ => Chars.is_space c = false | [] => True end.



Lemma float_space_is_space c :
  is_float_space c = true -> Chars.is_space c = true.
Proof.
  destruct c as [b0 b1 b2 b3 b4 b5 b6 b7].
  destruct b0, b1, b2, b3, b4, b5, b6, b7; vm_compute; auto.
Qed.

Lemma drop_float_space_head l :
  head_not_space l -> drop_while is_float_space l = l.
Proof.
  destruct l as [|c l]; simpl; auto. intros H.
  destruct (is_float_space c) eqn:E; [|reflexivity].
  apply float_space_is_space in E. congruence.
Qed.

Lemma float_strip_id l :
  head_not_space l -> head_not_space (rev l) -> float_strip l = l.
Proof.
  intros H1 H2. unfold float_strip.
  rewrite (drop_float_space_head l H1), (drop_float_space_head (rev l) H2).
  apply rev_involutive.
Qed.

Lemma digits_head_not_space ds :
  forallb Chars.is_digit ds = true -> head_not_space ds.
Proof.
  destruct ds as [|c ds]; cbn [forallb head_not_space]; auto.
  intros H. apply andb_prop in H. destruct H as [H _].
  apply digit_facts in H. tauto.
Qed.

Lemma split_first_none (p : ascii -> bool) ds :
  forallb (fun c => negb (p c)) ds = true -> split_first p ds = (ds, None).
Proof.
  induction ds as [|c ds IH]; cbn [forallb split_first]; auto.
  intros H. apply andb_prop in H. destruct H as [H1 H2].
  apply negb_true_iff in H1. rewrite H1, (IH H2). reflexivity.
Qed.

Lemma forallb_impl (p q : ascii -> bool) l :
  (forall c, p c = true -> q c = true) ->
  forallb p l = true -> forallb q l = true.
Proof.
  intros I. induction l as [|c l IH]; cbn [forallb]; auto.
  intros H. apply andb_prop in H. destruct H as [H1 H2].
  rewrite (I c H1), (IH H2). reflexivity.
Qed.

Lemma digitpart_tail_digits ds :
  forallb Chars.is_digit ds = true -> digitpart_tail ds = Some ds.
Proof.
  induction ds as [|c ds IH]; cbn [forallb digitpart_tail]; auto.
  intros H. apply andb_prop in H. destruct H as [H1 H2].
  rewrite H1, (IH H2). reflexivity.
Qed.

Lemma digitpart_digits ds :
  ds <> [] -> forallb Chars.is_digit ds = true -> digitpart ds = Some ds.
Proof.
  intros N H. destruct ds as [|c ds]; [congruence|].
  unfold digitpart. pose proof H as H'. cbn [forallb] in H'.
  apply andb_prop in H'. destruct H' as [H1 _]. rewrite H1.
  apply digitpart_tail_digits. exact H.
Qed.

(** a digit string is none of [inf], [infinity], [nan] *)
Lemma digits_not_a_name ds :
  ds <> [] -> forallb Chars.is_digit ds = true ->
  chars_eqb (lower_all ds) (s2l "inf") = false
  /\ chars_eqb (lower_all ds) (s2l "infinity") = false
  /\ chars_eqb (lower_all ds) (s2l "nan") = false.
Proof.
  intros N H. destruct ds as [|c ds]; [congruence|].
  cbn [forallb] in H. apply andb_prop in H. destruct H as [H _].
  apply digit_facts in H. destruct H as (_ & _ & _ & _ & _ & _ & _ & Hi & Hn).
  unfold chars_eqb, lower_all, l2s. cbn [map string_of_list_ascii s2l
    list_ascii_of_string String.eqb].
  rewrite Hi, Hn. repeat split.
Qed.

(** the unsigned digits [ds], as [float] reads them *)
Lemma parse_unsigned neg ds :
  ds <> [] -> forallb Chars.is_digit ds = true ->
  (let low := lower_all ds in
   if chars_eqb low (s2l "inf") || chars_eqb low (s2l "infinity")
   then Some (S754_infinity neg)
   else if chars_eqb low (s2l "nan") then Some S754_nan
   else
     let '(mant, expo) := split_first is_e ds in
     match parse_mantissa mant, parse_exponent expo with
     | Some (d, fd), Some e =>
         Some (of_decimal neg (digits_value (d ++ fd))
                          (e - Z.of_nat (List.length fd)))
     | _, _ => None
     end)
  = Some (of_decimal neg (digits_value ds) 0).
Proof.
  intros N H. cbv zeta.
  destruct (digits_not_a_name ds N H) as (E1 & E2 & E3).
  rewrite E1, E2, E3. cbn [orb].
  rewrite split_first_none.
  2:{ apply forallb_impl with Chars.is_digit; auto.
      intros c Hc. apply digit_facts in Hc.
      destruct Hc as (_ & _ & _ & _ & _ & -> & _). reflexivity. }
  unfold parse_mantissa. rewrite split_first_none.
  2:{ apply forallb_impl with Chars.is_digit; auto.
      intros c Hc. apply digit_facts in Hc.
      destruct Hc as (_ & _ & _ & _ & _ & _ & -> & _). reflexivity. }
  rewrite (digitpart_digits ds N H).
  destruct ds as [|c ds]; [congruence|].
  cbn [option_map parse_exponent]. rewrite app_nil_r. reflexivity.
Qed.

Lemma py_float_digits ds :
  ds <> [] -> forallb Chars.is_digit ds = true ->
  py_float (l2s ds) = Some (of_decimal false (digits_value ds) 0).
Proof.
  intros N H. unfold py_float. rewrite s2l_l2s, float_strip_id.
  - assert (T : take_sign ds = (false, ds)).
    { destruct ds as [|c ds]; [congruence|].
      cbn [forallb] in H. apply andb_prop in H. destruct H as [H _].
      apply digit_facts in H.
      destruct H as (_ & _ & _ & Hm & Hp & _).
      unfold take_sign. rewrite Hm, Hp. reflexivity. }
    rewrite T. apply parse_unsigned; auto.
  - apply digits_head_not_space; auto.
  - apply digits_head_not_space. rewrite forallb_rev. auto.
Qed.

Lemma py_float_minus_digits ds :
  ds <> [] -> forallb Chars.is_digit ds = true ->
  py_float (l2s ("-"%char :: ds)) = Some (of_decimal true (digits_value ds) 0).
Proof.
  intros N H. unfold py_float. rewrite s2l_l2s, float_strip_id.
  - change (take_sign ("-"%char :: ds)) with (true, ds).
    apply parse_unsigned; auto.
  - reflexivity.
  - cbn [rev].
    assert (R : head_not_space (rev ds)).
    { apply digits_head_not_space. rewrite forallb_rev. auto. }
    destruct (rev ds) as [|c r] eqn:E; [|exact R].
    apply (f_equal (@rev ascii)) in E. rewrite rev_involutive in E.
    simpl in E. congruence.
Qed.

End ParseFacts.

(* ================================================================= *)
(** * Facts about binary64 rounding *)

Module FloatFacts.
Import Float.
Local Open Scope Z_scope.

(** ** Bit lengths *)

Lemma digits2_pos_bounds p :
  2 ^ (Z.pos (digits2_pos p) - 1) <= Z.pos p < 2 ^ Z.pos (digits2_pos p).
Proof.
  induction p as [p IH|p IH|]; cbn [digits2_pos].
  - rewrite Pos2Z.inj_succ.
    replace (Z.succ (Z.pos (digits2_pos p)) - 1)
      with (Z.succ (Z.pos (digits2_pos p) - 1)) by lia.
    rewrite !Z.pow_succ_r by lia. lia.
  - rewrite Pos2Z.inj_succ.
    replace (Z.succ (Z.pos (digits2_pos p)) - 1)
      with (Z.succ (Z.pos (digits2_pos p) - 1)) by lia.
    rewrite !Z.pow_succ_r by lia. lia.
  - simpl. lia.
Qed.

Lemma Zdigits2_le m k :
  0 <= m -> 0 <= k -> m < 2 ^ k -> Zdigits2 m <= k.
Proof.
  intros Hm Hk H. destruct m as [|p|p]; cbn [Zdigits2]; try lia.
  pose proof (digits2_pos_bounds p) as [L _].
  destruct (Z_le_gt_dec (Z.pos (digits2_pos p)) k) as [|G]; auto.
  exfalso.
  assert (2 ^ k <= 2 ^ (Z.pos (digits2_pos p) - 1)).
  { apply Z.pow_le_mono_r; lia. }
  lia.
Qed.

Lemma iter_xO_value p k : Z.pos (Pos.iter xO p k) = Z.pos p * 2 ^ Z.pos k.
Proof.
  induction k as [|k IH] using Pos.peano_ind.
  - simpl. lia.
  - rewrite Pos.iter_succ, Pos2Z.inj_succ, Z.pow_succ_r by lia.
    pose proof (Pos2Z.inj_xO (Pos.iter xO p k)) as E. lia.
Qed.

Lemma iter_xO_digits p k :
  digits2_pos (Pos.iter xO p k) = (digits2_pos p + k)%positive.
Proof.
  induction k as [|k IH] using Pos.peano_ind.
  - simpl. lia.
  - rewrite Pos.iter_succ. cbn [digits2_pos]. rewrite IH. lia.
Qed.

(** ** Shifting right *)

Lemma iter_pos_nat {A} (f : A -> A) p :
  forall x, iter_pos f p x = Nat.iter (Pos.to_nat p) f x.
Proof.
  induction p as [p IH|p IH|]; intros x; cbn [iter_pos].
  - rewrite !IH, Pos2Nat.inj_xI.
    replace (S (2 * Pos.to_nat p))%nat
      with (Pos.to_nat p + (Pos.to_nat p + 1))%nat by lia.
    rewrite !Nat.iter_add. reflexivity.
  - rewrite !IH, Pos2Nat.inj_xO.
    replace (2 * Pos.to_nat p)%nat with (Pos.to_nat p + Pos.to_nat p)%nat by lia.
    rewrite Nat.iter_add. reflexivity.
  - reflexivity.
Qed.

Definition exact (mrs : shr_record) : Prop :=
  shr_r mrs = false /\ shr_s mrs = false.

Lemma shr_1_spec mrs :
  0 <= shr_m mrs ->
  shr_m (shr_1 mrs) = shr_m mrs / 2
  /\ shr_r (shr_1 mrs) = Z.odd (shr_m mrs)
  /\ shr_s (shr_1 mrs) = shr_r mrs || shr_s mrs.
Proof.
  destruct mrs as [m r s]. cbn [shr_m shr_r shr_s]. intros H.
  rewrite <- Z.div2_div.
  destruct m as [|[p|p|]|p]; try lia; cbn; auto.
Qed.

Lemma iter_shr_1 (k : nat) mrs :
  0 <= shr_m mrs ->
  shr_m (Nat.iter k shr_1 mrs) = shr_m mrs / 2 ^ Z.of_nat k
  /\ (exact mrs -> shr_m mrs mod 2 ^ Z.of_nat k = 0 ->
      exact (Nat.iter k shr_1 mrs)).
Proof.
  intros H. induction k as [|k [IHm IHe]].
  - simpl. rewrite Z.div_1_r. auto.
  - rewrite Nat.iter_succ.
    assert (P : 0 < 2 ^ Z.of_nat k) by (apply Z.pow_pos_nonneg; lia).
    assert (N : 0 <= shr_m (Nat.iter k shr_1 mrs)).
    { rewrite IHm. apply Z.div_pos; lia. }
    destruct (shr_1_spec _ N) as (Em & Er & Es).
    rewrite Nat2Z.inj_succ, Z.pow_succ_r by lia.
    split.
    + rewrite Em, IHm, Z.div_div by lia. f_equal. lia.
    + intros X M.
      apply Z.mod_divide in M; [|lia]. destruct M as [q M].
      assert (M0 : shr_m mrs mod 2 ^ Z.of_nat k = 0).
      { rewrite M. replace (q * (2 * 2 ^ Z.of_nat k))
          with (q * 2 * 2 ^ Z.of_nat k) by lia.
        apply Z.mod_mul. lia. }
      destruct (IHe X M0) as [R S].
      split.
      * rewrite Er, IHm, M.
        replace (q * (2 * 2 ^ Z.of_nat k)) with (q * 2 * 2 ^ Z.of_nat k) by lia.
        rewrite Z.div_mul by lia. rewrite Z.odd_mul. simpl.
        apply andb_false_r.
      * rewrite Es, R, S. reflexivity.
Qed.

Lemma shr_pos mrs e p :
  0 <= shr_m mrs ->
  exists mrs',
    shr mrs e (Z.pos p) = (mrs', e + Z.pos p)
    /\ shr_m mrs' = shr_m mrs / 2 ^ Z.pos p
    /\ (exact mrs -> shr_m mrs mod 2 ^ Z.pos p = 0 -> exact mrs').
Proof.
  intros H. cbn [shr]. rewrite iter_pos_nat.
  destruct (iter_shr_1 (Pos.to_nat p) mrs H) as [A B].
  rewrite positive_nat_Z in A, B.
  eexists. split; [reflexivity|]. split; auto.
Qed.

Lemma shr_nonpos mrs e n : n <= 0 -> shr mrs e n = (mrs, e).
Proof. destruct n; cbn [shr]; auto. lia. Qed.

Lemma record_of_loc m l :
  shr_m (shr_record_of_loc m l) = m
  /\ loc_of_shr_record (shr_record_of_loc m l) = l
  /\ (l = loc_Exact -> exact (shr_record_of_loc m l)).
Proof.
  destruct l as [|[| |]]; cbn; repeat split; auto; discriminate.
Qed.

Lemma exact_loc mrs : exact mrs -> loc_of_shr_record mrs = loc_Exact.
Proof. destruct mrs as [m r s]. intros [R S]. cbn in *. subst. reflexivity. Qed.

Lemma round_nearest_even_bounds m l :
  m <= round_nearest_even m l <= m + 1
  /\ (l = loc_Exact -> round_nearest_even m l = m).
Proof.
  destruct l as [|[| |]]; cbn [round_nearest_even];
    try destruct (Z.even m); split; try lia; auto; discriminate.
Qed.

(** ** One rounding *)

Lemma fexp_eq x : fexp prec emax x = Z.max (x - 53) (-1074).
Proof. reflexivity. Qed.

Lemma shr_fexp_cases m e l :
  0 <= m ->
  let k := Z.max (fexp prec emax (Zdigits2 m + e) - e) 0 in
  exists mrs',
    shr_fexp prec emax m e l = (mrs', e + k)
    /\ shr_m mrs' = m / 2 ^ k
    /\ (k = 0 -> loc_of_shr_record mrs' = l)
    /\ (l = loc_Exact -> m mod 2 ^ k = 0 -> loc_of_shr_record mrs' = loc_Exact).
Proof.
  intros H k. unfold shr_fexp. subst k.
  destruct (record_of_loc m l) as (Rm & Rl & Rx).
  destruct (fexp prec emax (Zdigits2 m + e) - e) as [|p|p] eqn:E.
  - rewrite shr_nonpos by lia. cbn [Z.max Z.compare].
    eexists. split; [f_equal; lia|]. rewrite Rm, Z.div_1_r.
    repeat split; auto. intros L _. rewrite Rl. exact L.
  - destruct (shr_pos (shr_record_of_loc m l) e p) as (mrs' & E1 & E2 & E3).
    { rewrite Rm. exact H. }
    rewrite E1. replace (Z.max (Z.pos p) 0) with (Z.pos p) by lia.
    exists mrs'. split; auto. rewrite Rm in E2, E3. split; auto.
    split; [lia|]. intros L M. apply exact_loc. auto.
  - rewrite shr_nonpos by lia. replace (Z.max (Z.neg p) 0) with 0 by lia.
    eexists. split; [f_equal; lia|]. rewrite Rm, Z.div_1_r.
    repeat split; auto. intros L _. rewrite Rl. exact L.
Qed.

(** the exponent after a shift stays at or below zero for a mantissa
    below [2^53 * 2^(-e)] *)
Lemma shifted_exponent_nonpos m e B :
  0 <= m -> e <= 0 -> 0 < B < 2 ^ 53 -> m <= B * 2 ^ (- e) ->
  e + Z.max (fexp prec emax (Zdigits2 m + e) - e) 0 <= 0.
Proof.
  intros Hm He HB H.
  assert (D : Zdigits2 m <= 53 - e).
  { apply Zdigits2_le; try lia.
    replace (53 - e) with (53 + - e) by lia.
    rewrite Z.pow_add_r by lia.
    assert (0 < 2 ^ (- e)) by (apply Z.pow_pos_nonneg; lia).
    nia. }
  rewrite fexp_eq. lia.
Qed.

(** what a rounded result can be when the exact value is at most [B] *)
Definition at_most (sx : bool) (B : Z) (f : float) : Prop :=
  match f with
  | S754_zero s => s = sx
  | S754_finite s m e => s = sx /\ e <= 0 /\ Z.pos m <= B * 2 ^ (- e)
  | _ => False
  end.

(** Rounding does not cross a bound the format represents: a value
    [mx * 2^ex] (with what [lx] says was cut off) at most [B] rounds to
    at most [B]. *)
Lemma binary_round_aux_at_most sx mx ex lx B :
  0 < B < 2 ^ 53 -> 0 <= mx -> ex <= 0 ->
  mx <= B * 2 ^ (- ex) ->
  (lx <> loc_Exact -> mx < B * 2 ^ (- ex)) ->
  at_most sx B (binary_round_aux prec emax sx mx ex lx).
Proof.
  intros HB Hm He Hle Hlt. unfold binary_round_aux.
  pose proof (shifted_exponent_nonpos mx ex B Hm He HB Hle) as He1.
  destruct (shr_fexp_cases mx ex lx Hm) as (mrs1 & E1 & M1 & L0 & LX).
  set (k1 := Z.max (fexp prec emax (Zdigits2 mx + ex) - ex) 0) in *.
  assert (K1 : 0 <= k1) by (subst k1; lia).
  rewrite E1. set (e1 := ex + k1) in *.
  set (m1 := round_nearest_even (shr_m mrs1) (loc_of_shr_record mrs1)).
  assert (P1 : 0 < 2 ^ k1) by (apply Z.pow_pos_nonneg; lia).
  assert (S1 : B * 2 ^ (- ex) = B * 2 ^ (- e1) * 2 ^ k1).
  { replace (- ex) with (- e1 + k1) by (subst e1; lia).
    rewrite Z.pow_add_r by lia. lia. }
  assert (Q1 : 0 <= shr_m mrs1 <= B * 2 ^ (- e1)).
  { rewrite M1. split; [apply Z.div_pos; lia|].
    apply Z.div_le_upper_bound; [lia|]. rewrite Hle, S1. lia. }
  assert (R1 : 0 <= m1 <= B * 2 ^ (- e1)).
  { subst m1.
    destruct (round_nearest_even_bounds (shr_m mrs1) (loc_of_shr_record mrs1))
      as [Rb Rx].
    split; [lia|].
    destruct (Z_lt_le_dec (shr_m mrs1) (B * 2 ^ (- e1))) as [Lt|Ge]; [lia|].
    assert (Full : mx = B * 2 ^ (- ex)).
    { assert (2 ^ k1 * (mx / 2 ^ k1) <= mx) by (apply Z.mul_div_le; lia).
      rewrite <- M1 in H. nia. }
    assert (X : lx = loc_Exact).
    { destruct lx as [|c]; auto. exfalso.
      assert (mx < B * 2 ^ (- ex)) by (apply Hlt; discriminate). lia. }
    rewrite Rx; [lia|]. apply LX; auto.
    rewrite Full, S1. apply Z.mod_mul. lia. }
  pose proof (shifted_exponent_nonpos m1 e1 B (proj1 R1) He1 HB (proj2 R1)) as He2.
  destruct (shr_fexp_cases m1 e1 loc_Exact (proj1 R1)) as (mrs2 & E2 & M2 & _ & _).
  set (k2 := Z.max (fexp prec emax (Zdigits2 m1 + e1) - e1) 0) in *.
  assert (K2 : 0 <= k2) by (subst k2; lia).
  rewrite E2. set (e2 := e1 + k2) in *.
  assert (P2 : 0 < 2 ^ k2) by (apply Z.pow_pos_nonneg; lia).
  assert (S2 : B * 2 ^ (- e1) = B * 2 ^ (- e2) * 2 ^ k2).
  { replace (- e1) with (- e2 + k2) by (subst e2; lia).
    rewrite Z.pow_add_r by lia. lia. }
  assert (Q2 : 0 <= shr_m mrs2 <= B * 2 ^ (- e2)).
  { rewrite M2. split; [apply Z.div_pos; lia|].
    apply Z.div_le_upper_bound; [lia|]. lia. }
  destruct (shr_m mrs2) as [|p|p] eqn:E; cbn [at_most]; try lia; auto.
  replace (e2 <=? emax - prec) with true.
  - cbn [at_most]. repeat split; lia.
  - symmetry. apply Z.leb_le. unfold emax, prec. lia.
Qed.

(** A mantissa of full length is kept as it is. *)
Lemma binary_round_aux_canonical s m e :
  Z.pos (digits2_pos m) = 53 -> -1074 <= e <= 971 ->
  binary_round_aux prec emax s (Z.pos m) e loc_Exact = S754_finite s m e.
Proof.
  intros D He. unfold binary_round_aux, shr_fexp.
  cbn [Zdigits2]. rewrite D, fexp_eq.
  replace (Z.max (53 + e - 53) (-1074) - e) with 0 by lia.
  cbn [shr shr_record_of_loc shr_m loc_of_shr_record round_nearest_even Zdigits2].
  rewrite D, fexp_eq.
  replace (Z.max (53 + e - 53) (-1074) - e) with 0 by lia.
  cbn [shr shr_record_of_loc shr_m].
  replace (e <=? emax - prec) with true; auto.
  symmetry. apply Z.leb_le. unfold emax, prec. lia.
Qed.

(** An integer below [2^53] is a double. *)
Lemma binary_round_small s p :
  Z.pos p < 2 ^ 53 ->
  exists m e,
    binary_round prec emax s p 0 = S754_finite s m e
    /\ e <= 0 /\ Z.pos m = Z.pos p * 2 ^ (- e).
Proof.
  intros H.
  assert (D : Z.pos (digits2_pos p) <= 53).
  { apply (Zdigits2_le (Z.pos p) 53); lia. }
  unfold binary_round. rewrite fexp_eq.
  replace (Z.max (Z.pos (digits2_pos p) + 0 - 53) (-1074))
    with (Z.pos (digits2_pos p) - 53) by lia.
  unfold shl_align.
  destruct (Z.pos (digits2_pos p) - 53 - 0) as [|k|k] eqn:E; try lia.
  - exists p, 0. split; [|split; [lia|simpl; lia]].
    apply binary_round_aux_canonical; lia.
  - exists (Pos.iter xO p k), (Z.pos (digits2_pos p) - 53).
    split; [|split; [lia|]].
    + apply binary_round_aux_canonical; [|lia].
      rewrite iter_xO_digits, Pos2Z.inj_add. lia.
    + rewrite iter_xO_value. f_equal. f_equal. lia.
Qed.

End FloatFacts.

(* ================================================================= *)
(** * The normalizer on written integers *)

Module NormalizerFacts.
Import Float FloatParse Format FormatFacts ParseFacts FloatFacts Populater.
Local Open Scope Z_scope.

(** [v == z] in Python, for an integer [z] *)
Definition py_eq_Z (v : pyval) (z : Z) : bool :=
  match pyval_num v with
  | Some n => match Num.compare n (Num.NInt z) with
              | Some Eq => true
              | _ => false
              end
  | None => false
  end.

Lemma clean_number_nonempty v :
  v <> ""%string ->
  clean_number (Some v)
  = match py_float (l2s (cleaned_literal v)) with
    | Some f => PFloat f
    | None => PInt 0
    end.
Proof. destruct v; [congruence|reflexivity]. Qed.

Lemma thousands_nonempty n : 0 <= n -> thousands n <> ""%string.
Proof.
  intros H E. pose proof (strip_thousands n H) as S.
  rewrite E in S. destruct (decimal_spec n H) as (_ & _ & N).
  apply N. rewrite <- S. reflexivity.
Qed.

Lemma cleaned_thousands n :
  0 <= n -> cleaned_literal (thousands n) = decimal n.
Proof.
  intros H. unfold cleaned_literal. rewrite strip_thousands by exact H.
  destruct (decimal_spec n H) as (D & _ & N).
  destruct (decimal n) as [|c ds]; [congruence|].
  cbn [forallb] in D. apply andb_prop in D. destruct D as [D _].
  apply digit_facts in D. destruct D as (_ & _ & D & _).
  unfold startswith. rewrite D. reflexivity.
Qed.

(** a literal whose cleaned form is wrapped in parentheses goes to
    [float] with a minus sign in their place *)
Lemma cleaned_wrapped literal inner :
  strip_separators (s2l literal) = "("%char :: inner ++ [")"%char] ->
  cleaned_literal literal = "-"%char :: inner.
Proof.
  intros E. unfold cleaned_literal. rewrite E.
  unfold startswith, endswith, slice_1_m1.
  cbn [rev tl]. rewrite rev_app_distr. cbn [rev app Ascii.eqb Bool.eqb andb].
  rewrite removelast_last. reflexivity.
Qed.

Lemma cleaned_parenthesized n :
  0 <= n -> cleaned_literal (parenthesized n) = "-"%char :: decimal n.
Proof.
  intros H. apply cleaned_wrapped. unfold parenthesized.
  change (s2l ("(" ++ thousands n ++ ")")%string)
    with ("("%char :: s2l (thousands n ++ ")")%string).
  rewrite s2l_app. unfold strip_separators at 1. cbn [filter].
  change (negb (Re.set_matches Re.no_flags false comma_or_space "("%char))
    with true. cbv iota.
  rewrite filter_app. fold (strip_separators (s2l (thousands n))).
  rewrite strip_thousands by exact H. reflexivity.
Qed.

(** the doubles of the integers up to [2^53] are those integers *)
Lemma of_decimal_exact neg n :
  0 <= n <= 2 ^ 53 ->
  Num.compare (Num.NFloat (of_decimal neg n 0))
              (Num.NInt (if neg then - n else n)) = Some Eq.
Proof.
  intros H. destruct (Z.eq_dec n (2 ^ 53)) as [->|N].
  { destruct neg; vm_compute; reflexivity. }
  destruct n as [|p|p]; try lia.
  { destruct neg; reflexivity. }
  unfold of_decimal. cbn [Z.leb Z.compare].
  change (10 ^ 0) with 1. rewrite Z.mul_1_r.
  assert (R : binary_normalize prec emax (if neg then Z.neg p else Z.pos p) 0 false
              = binary_round prec emax neg p 0).
  { destruct neg; reflexivity. }
  rewrite R.
  destruct (binary_round_small neg p) as (m & e & E & He & Hm); [lia|].
  rewrite E. unfold Num.compare, Num.view, view, cmp, cmp_fin.
  rewrite Z.min_l by lia. f_equal.
  replace (e - e) with 0 by lia. replace (0 - e) with (- e) by lia.
  apply Z.compare_eq_iff. destruct neg.
  - change (Z.neg m) with (- Z.pos m). change (- Z.pos p) with (Z.neg p).
    change (Z.neg p) with (- Z.pos p). rewrite Hm. simpl (2 ^ 0). lia.
  - rewrite Hm. simpl (2 ^ 0). lia.
Qed.

End NormalizerFacts.

Module NormalizerClaims.
Import Float FloatParse Format FormatFacts ParseFacts NormalizerFacts Populater.
Local Open Scope Z_scope.

(** C2, as the code has it. For every integer [n >= 0] the normalizer
    returns, on the parenthesized thousands-separated representation of
    [-n], the double nearest to [-n], and on the plain representation
    the double nearest to [n]; these are exactly [-n] and [n] when
    [n <= 2^53]. The negative case is found by the shape of the cleaned
    literal: a literal wrapped in parentheses is read with a minus sign
    in their place. *)
Theorem normalization_round_trip (n : Z) (Hn : 0 <= n) :
  clean_number (Some (parenthesized n)) = PFloat (of_decimal true n 0)
  /\ clean_number (Some (thousands n)) = PFloat (of_decimal false n 0)
  /\ (n <= 2 ^ 53 ->
      py_eq_Z (clean_number (Some (parenthesized n))) (- n) = true
      /\ py_eq_Z (clean_number (Some (thousands n))) n = true)
  /\ (forall literal inner,
         strip_separators (s2l literal) = "("%char :: inner ++ [")"%char] ->
         cleaned_literal literal = "-"%char :: inner).
Proof.
  destruct (decimal_spec n Hn) as (D & V & N).
  assert (P : clean_number (Some (parenthesized n)) = PFloat (of_decimal true n 0)).
  { rewrite clean_number_nonempty by discriminate.
    rewrite cleaned_parenthesized, py_float_minus_digits, V by auto.
    reflexivity. }
  assert (T : clean_number (Some (thousands n)) = PFloat (of_decimal false n 0)).
  { rewrite clean_number_nonempty by (apply thousands_nonempty; exact Hn).
    rewrite cleaned_thousands, py_float_digits, V by auto.
    reflexivity. }
  split; [exact P|]. split; [exact T|]. split.
  - intros B. rewrite P, T. unfold py_eq_Z, PFloat, pyval_num.
    rewrite (of_decimal_exact true n), (of_decimal_exact false n) by lia.
    split; reflexivity.
  - apply cleaned_wrapped.
Qed.

Lemma normalization_round_trip_witness :
  clean_number (Some "(1,250,000)") = PFloat (of_decimal true 1250000 0)
  /\ py_eq_Z (clean_number (Some "(1,250,000)")) (- 1250000) = true
  /\ py_eq_Z (clean_number (Some "1,250,000")) 1250000 = true.
Proof.
  assert (H : 0 <= 1250000) by lia.
  destruct (normalization_round_trip 1250000 H) as (P & _ & E & _).
  destruct E as [E1 E2]; [vm_compute; discriminate|].
  split; [exact P|]. split; [exact E1|exact E2].
Defined.

(** C2 as stated fails beyond [2^53]: [9,007,199,254,740,993] is read as
    [9007199254740992.0]. *)
Lemma normalization_not_exact_beyond_2_53 :
  thousands 9007199254740993 = "9,007,199,254,740,993"%string
  /\ clean_number (Some "9,007,199,254,740,993")
     = PFloat (of_decimal false 9007199254740992 0)
  /\ py_eq_Z (clean_number (Some "9,007,199,254,740,993")) 9007199254740993
     = false
  /\ py_eq_Z (clean_number (Some "(9,007,199,254,740,993)")) (- 9007199254740993)
     = false.
Proof. repeat split; vm_compute; reflexivity. Qed.

End NormalizerClaims.

(* ================================================================= *)
(** * Facts about the coverage walk *)

Module CoverageFacts.
Import Num Validator CoverageSpec FloatFacts.

(** ** The walk, entry by entry *)

Fixpoint count_items (d : list (string * json)) (prefix : string)
         (c : counters) : counters :=
  match d with
  | [] => c
  | (key, value) :: d' =>
      if excluded key then count_items d' prefix c
      else
        let path := field_path prefix key in
        match json_num value with
        | Some n => count_items d' prefix (count_value n path c)
        | None =>
            match value with
            | JDict _ => count_items d' prefix (count_fields value path c)
            | _ => count_items d' prefix c
            end
        end
  end.

Lemma count_fields_dict d : forall prefix c,
  count_fields (JDict d) prefix c = count_items d prefix c.
Proof.
  induction d as [|[k v] d IH]; intros prefix c; [reflexivity|].
  cbn [count_items].
  change (count_fields (JDict ((k, v) :: d)) prefix c)
    with (if excluded k then count_fields (JDict d) prefix c
          else match json_num v with
               | Some n => count_fields (JDict d) prefix
                             (count_value n (field_path prefix k) c)
               | None =>
                   match v with
                   | JDict _ => count_fields (JDict d) prefix
                                  (count_fields v (field_path prefix k) c)
                   | _ => count_fields (JDict d) prefix c
                   end
               end).
  destruct (excluded k); [apply IH|].
  destruct (json_num v); [apply IH|].
  destruct v; apply IH.
Qed.

Fixpoint entries_items (d : list (string * json)) (path : list string)
  : list (list string * json) :=
  match d with
  | [] => []
  | (k, v) :: d' =>
      ((path ++ [k], v) :: entries v (path ++ [k])) ++ entries_items d' path
  end.

Lemma entries_dict d : forall path,
  entries (JDict d) path = entries_items d path.
Proof.
  induction d as [|[k v] d IH]; intros path; [reflexivity|].
  cbn [entries_items]. rewrite <- IH. reflexivity.
Qed.

Lemma json_dict_ind (P : json -> Prop) :
  (forall j, (forall d, j <> JDict d) -> P j) ->
  (forall d, Forall (fun kv => P (snd kv)) d -> P (JDict d)) ->
  forall j, P j.
Proof.
  intros Hleaf Hdict. fix IH 1. intros [ |b|n|s|l|d];
    try (apply Hleaf; intros; discriminate).
  apply Hdict. revert d. fix IHd 1. intros [|[k v] d]; constructor.
  - apply IH.
  - apply IHd.
Qed.

(** ** Adding up a list of entries *)

Definition tally_one (c : counters) (e : list string * json) : counters :=
  match json_num (snd e) with
  | Some n => count_value n (dotted (fst e)) c
  | None => c
  end.

Definition tally (es : list (list string * json)) (c : counters) : counters :=
  fold_left tally_one es c.

Lemma tally_app a b c : tally (a ++ b) c = tally b (tally a c).
Proof. apply fold_left_app. Qed.

Lemma not_excluded_app p q :
  not_excluded (p ++ q) = not_excluded p && not_excluded q.
Proof. apply forallb_app. Qed.

(** under an excluded key nothing counts *)
Lemma entries_under_excluded : forall j path,
  not_excluded path = false -> filter counted (entries j path) = [].
Proof.
  induction j as [j Hj|d IH] using json_dict_ind; intros path H.
  - destruct j; try reflexivity. exfalso. apply (Hj d). reflexivity.
  - rewrite entries_dict. induction IH as [|[k v] d Hv Hd IHd]; [reflexivity|].
    cbn [snd] in Hv.
    cbn [entries_items]. rewrite filter_app. cbn [filter].
    unfold counted at 1. cbn [fst snd]. rewrite not_excluded_app, H.
    cbn [andb]. rewrite (Hv (path ++ [k])), IHd; auto.
    rewrite not_excluded_app, H. reflexivity.
Qed.

Lemma dotted_snoc path k : dotted (path ++ [k]) = field_path (dotted path) k.
Proof. unfold dotted. rewrite fold_left_app. reflexivity. Qed.

Lemma counted_snoc path k v :
  not_excluded path = true ->
  counted (path ++ [k], v) = negb (excluded k) && is_number v.
Proof.
  intros H. unfold counted. cbn [fst snd].
  rewrite not_excluded_app, H. unfold not_excluded.
  cbn [forallb andb]. rewrite andb_true_r. reflexivity.
Qed.

Lemma not_excluded_snoc path k :
  not_excluded path = true -> excluded k = false ->
  not_excluded (path ++ [k]) = true.
Proof.
  intros H X. rewrite not_excluded_app, H. unfold not_excluded.
  cbn [forallb andb]. rewrite X. reflexivity.
Qed.

(** [count_fields] adds up the entries that count *)
Lemma count_fields_tally : forall j path c,
  not_excluded path = true ->
  count_fields j (dotted path) c = tally (filter counted (entries j path)) c.
Proof.
  induction j as [j Hj|d IH] using json_dict_ind; intros path c H.
  - destruct j; try reflexivity. exfalso. apply (Hj d). reflexivity.
  - rewrite count_fields_dict, entries_dict. revert c.
    induction IH as [|[k v] d Hv Hd IHd]; intros c; [reflexivity|].
    cbn [count_items entries_items snd] in *.
    rewrite filter_app, tally_app. cbn [filter].
    rewrite (counted_snoc path k v H).
    destruct (excluded k) eqn:X; cbn [negb andb].
    + rewrite entries_under_excluded.
      * apply IHd.
      * rewrite not_excluded_app, H. unfold not_excluded.
        cbn [forallb andb]. rewrite X. reflexivity.
    + unfold is_number. rewrite <- dotted_snoc.
      destruct (json_num v) as [n|] eqn:N.
      * assert (E : entries v (path ++ [k]) = []).
        { destruct v; try reflexivity; discriminate. }
        rewrite E. cbn [filter].
        change (tally [(path ++ [k], v)] c) with (tally_one c (path ++ [k], v)).
        unfold tally_one. cbn [fst snd]. rewrite N. apply IHd.
      * destruct v; try discriminate; try apply IHd.
        rewrite IHd. f_equal. apply Hv.
        apply not_excluded_snoc; auto.
Qed.

(** ** What the tally keeps *)

Lemma tally_counts : forall es c,
  forallb counted es = true ->
  total_count (tally es c) = (total_count c + List.length es)%nat
  /\ extracted_count (tally es c)
     = (extracted_count c
        + List.length (filter (fun e => is_nonzero (snd e)) es))%nat
  /\ missing (tally es c)
     = missing c
       ++ map (fun e => dotted (fst e))
              (filter (fun e => negb (is_nonzero (snd e))) es).
Proof.
  induction es as [|e es IH]; intros c H.
  - cbn. rewrite !Nat.add_0_r, app_nil_r. auto.
  - cbn [forallb] in H. apply andb_prop in H. destruct H as [He H].
    unfold tally. cbn [fold_left]. fold (tally es (tally_one c e)).
    destruct (IH (tally_one c e) H) as (T & X & M).
    rewrite T, X, M. clear T X M IH.
    unfold counted, is_number in He. apply andb_prop in He.
    destruct He as [_ He]. unfold tally_one, is_nonzero. cbn [filter].
    destruct (json_num (snd e)) as [n|]; [|discriminate].
    unfold is_nonzero, count_value.
    destruct (ne n zero); cbn [negb total_count extracted_count missing
                                 List.length map];
      repeat split; try lia.
    rewrite <- app_assoc. reflexivity.
Qed.

Lemma filter_counted_all (es : list (list string * json)) :
  forallb counted (filter counted es) = true.
Proof.
  induction es as [|e es IH]; cbn; auto.
  destruct (counted e) eqn:E; cbn; auto. rewrite E, IH. reflexivity.
Qed.

(** the three counters after the walk *)
Lemma count_fields_counters j :
  let c := count_fields j "" (Counters 0 0 []) in
  let es := counted_entries j in
  total_count c = List.length es
  /\ extracted_count c = List.length (filter (fun e => is_nonzero (snd e)) es)
  /\ missing c = map (fun e => dotted (fst e))
                     (filter (fun e => negb (is_nonzero (snd e))) es).
Proof.
  cbv zeta. change ""%string with (dotted []).
  rewrite count_fields_tally by reflexivity.
  apply (tally_counts (counted_entries j) (Counters 0 0 [])).
  apply filter_counted_all.
Qed.

Lemma filter_split_length {A} (p : A -> bool) (l : list A) :
  (List.length (filter p l) + List.length (filter (fun x => negb (p x)) l)
   = List.length l)%nat.
Proof.
  induction l as [|x l IH]; cbn; auto.
  destruct (p x); cbn; lia.
Qed.

End CoverageFacts.

(* ================================================================= *)
(** * The extraction rate *)

Module RateFacts.
Import Float Num FloatFacts.
Local Open Scope Z_scope.

Lemma new_location_exact nb r :
  new_location nb r <> loc_Exact -> r <> 0.
Proof.
  intros H ->. apply H. unfold new_location, new_location_even, new_location_odd.
  destruct (Z.even nb); reflexivity.
Qed.

(** the quotient of [a <= b] before rounding: at most one *)
Lemma div_core_at_most_one a b :
  Z.pos a <= Z.pos b ->
  exists q e l,
    SFdiv_core_binary prec emax (Z.pos a) 0 (Z.pos b) 0 = (q, e, l)
    /\ e <= 0 /\ 0 <= q <= 1 * 2 ^ (- e)
    /\ (l <> loc_Exact -> q < 1 * 2 ^ (- e)).
Proof.
  intros H. unfold SFdiv_core_binary.
  set (e := Z.min (fexp prec emax (Zdigits2 (Z.pos a) + 0 - (Zdigits2 (Z.pos b) + 0)))
                  (0 - 0)).
  assert (He : e <= 0) by (subst e; lia).
  set (m := match 0 - 0 - e with
            | 0 => Z.pos a
            | Z.pos _ => Z.shiftl (Z.pos a) (0 - 0 - e)
            | Z.neg _ => 0
            end).
  assert (Hm : m = Z.pos a * 2 ^ (- e)).
  { subst m. replace (0 - 0 - e) with (- e) by lia.
    destruct (- e) as [|p|p] eqn:E; try lia.
    rewrite Z.shiftl_mul_pow2 by lia. reflexivity. }
  assert (P : 0 < 2 ^ (- e)) by (apply Z.pow_pos_nonneg; lia).
  pose proof (Z_div_mod m (Z.pos b)) as DM.
  destruct (Z.div_eucl m (Z.pos b)) as [q r].
  destruct DM as [DM R]; [lia|].
  exists q, e, (new_location (Z.pos b) r).
  split; [reflexivity|]. split; [exact He|].
  assert (Q : 0 <= q) by nia.
  split; [split; [exact Q|nia]|].
  intros L. apply new_location_exact in L. nia.
Qed.

Lemma at_most_not_infinite sx B f : at_most sx B f -> is_infinite f = false.
Proof. destruct f; cbn; tauto. Qed.

(** a float between zero and [B] compares so with the integers *)
Lemma at_most_le B f :
  0 < B -> at_most false B f ->
  le (NInt 0) (NFloat f) = true /\ le (NFloat f) (NInt B) = true.
Proof.
  intros HB H. destruct f as [s|s| |s m e]; cbn [at_most] in H; try tauto.
  - subst s. unfold le, compare, view, Float.view, cmp, cmp_fin. cbn.
    destruct B; try lia. cbn. auto.
  - destruct H as (-> & He & Hm).
    unfold le, compare, view, Float.view, cmp, cmp_fin.
    rewrite (Z.min_r 0 e), (Z.min_l e 0) by lia.
    replace (e - e) with 0 by lia. replace (0 - e) with (- e) by lia.
    rewrite Z.mul_0_l, Z.pow_0_r, !Z.mul_1_r.
    split.
    + reflexivity.
    + destruct (Z.compare_spec (Z.pos m) (B * 2 ^ (- e))); auto. lia.
Qed.

(** [extracted / total * 100] for [extracted <= total]: it is computed
    without error and lies between 0 and 100 *)
Lemma rate_bounds (e t : nat) :
  (e <= t)%nat -> (0 < t)%nat ->
  exists q r,
    truediv (of_nat e) (of_nat t) = Ok q
    /\ mul q (NInt 100) = Ok r
    /\ le (NInt 0) r = true /\ le r (NInt 100) = true
    /\ (e = 0%nat -> compare r (NInt 0) = Some Eq).
Proof.
  intros Het Ht. unfold of_nat.
  destruct (Z.of_nat t) as [|b|b] eqn:Eb; try lia.
  destruct (Z.of_nat e) as [|a|a] eqn:Ea; try lia.
  - exists (NFloat (S754_zero false)), (NFloat (S754_zero false)).
    repeat split; reflexivity.
  - assert (Hab : Z.pos a <= Z.pos b) by lia.
    destruct (div_core_at_most_one a b Hab) as (q & eq & lq & Ec & He & Hq & Hl).
    assert (Q : at_most false 1 (binary_round_aux prec emax false q eq lq)).
    { apply binary_round_aux_at_most;
        [split; [lia|reflexivity]|lia|lia|lia|exact Hl]. }
    assert (D : div (S754_finite false a 0) (S754_finite false b 0)
                = binary_round_aux prec emax false q eq lq).
    { unfold div, SFdiv. rewrite Ec. reflexivity. }
    set (qf := binary_round_aux prec emax false q eq lq) in *.
    assert (T : truediv (NInt (Z.pos a)) (NInt (Z.pos b)) = Ok (NFloat qf)).
    { unfold truediv. cbn [Z.ltb Z.compare Z.abs Z.to_pos].
      rewrite D, (at_most_not_infinite _ _ _ Q). reflexivity. }
    assert (M : mul (NFloat qf) (NInt 100) = Ok (NFloat (Float.mul qf hundred))).
    { reflexivity. }
    assert (R : at_most false 100 (Float.mul qf hundred)).
    { destruct qf as [s|s| |s m ex]; cbn [at_most] in Q; try tauto.
      - subst s. reflexivity.
      - destruct Q as (-> & Hex & Hm).
        unfold Float.mul, SFmul, hundred. cbn [xorb].
        apply binary_round_aux_at_most;
          [split; [lia|reflexivity]|lia|lia| |].
        + replace (- (ex + -46)) with (- ex + 46) by lia.
          rewrite Z.pow_add_r by lia. rewrite Pos2Z.inj_mul.
          change (2 ^ 46) with 70368744177664.
          assert (0 < 2 ^ (- ex)) by (apply Z.pow_pos_nonneg; lia). nia.
        + intros C. contradiction C. reflexivity. }
    exists (NFloat qf), (NFloat (Float.mul qf hundred)).
    split; [exact T|]. split; [exact M|].
    destruct (at_most_le 100 _ ltac:(lia) R) as [L0 L100].
    split; [exact L0|]. split; [exact L100|]. intros E0. lia.
Qed.

End RateFacts.

(* ================================================================= *)
(** * The coverage analyzer *)

Module CoverageClaims.
Import Num Validator CoverageSpec CoverageFacts RateFacts.

(** The analyzer returns a report on every schema: the counters of the
    walk, and a rate between 0 and 100. *)
Lemma count_extracted_fields_returns (j : json) :
  let c := count_fields j "" (Counters 0 0 []) in
  (extracted_count c + List.length (missing c) = total_count c)%nat
  /\ exists rate,
      count_extracted_fields j
      = Ok (Coverage (extracted_count c) (total_count c) rate (missing c))
      /\ le (NInt 0) rate = true /\ le rate (NInt 100) = true
      /\ (total_count c = 0%nat -> rate = NInt 0)
      /\ (extracted_count c = 0%nat -> compare rate (NInt 0) = Some Eq).
Proof.
  cbv zeta. destruct (count_fields_counters j) as (T & X & M).
  set (c := count_fields j "" (Counters 0 0 [])) in *.
  assert (S : (extracted_count c + List.length (missing c) = total_count c)%nat).
  { rewrite T, X, M, length_map.
    apply (filter_split_length (fun e => is_nonzero (snd e))). }
  split; [exact S|].
  unfold count_extracted_fields. fold c.
  destruct (total_count c) as [|t] eqn:Et.
  - exists (NInt 0). cbn. repeat split; auto.
  - destruct (rate_bounds (extracted_count c) (Datatypes.S t))
      as (q & r & Eq & Er & L0 & L100 & Z0); try lia.
    exists r. cbn [Nat.ltb Nat.leb]. rewrite Eq. cbn [rbind]. rewrite Er.
    cbn [rbind]. repeat split; auto. discriminate.
Qed.

(** C6. On every schema the coverage report has
    [0 <= extraction_rate <= 100] and
    [extracted_fields + len(missing_fields) = total_fields]; with no
    numeric leaf at all the rate is [0], and nothing is divided. *)
Theorem coverage_bounds (j : json) :
  exists r,
    count_extracted_fields j = Ok r
    /\ le (NInt 0) (extraction_rate r) = true
    /\ le (extraction_rate r) (NInt 100) = true
    /\ (extracted_fields r + List.length (missing_fields r) = total_fields r)%nat
    /\ (total_fields r = 0%nat -> extraction_rate r = NInt 0).
Proof.
  destruct (count_extracted_fields_returns j)
    as (S & rate & E & L0 & L100 & Z & _).
  eexists. split; [exact E|]. cbn. auto.
Qed.

(** a key is passed over exactly when it is one of the three names *)
Lemma excluded_names k :
  excluded k = false
  <-> k <> "company_name"%string /\ k <> "report_date"%string
      /\ k <> "report_title"%string.
Proof.
  unfold excluded, excluded_keys. cbn [existsb].
  rewrite !orb_false_iff, !String.eqb_neq. tauto.
Qed.

(** C10. The analyzer counts exactly the entries, at any depth, whose
    value is an [int] or a [float] and with none of [company_name],
    [report_date], [report_title] among the keys that lead to them: the
    total is their number, the extracted ones are those different from
    zero, the missing ones are the dotted paths of the others, in
    order. An entry that is neither a number nor a mapping has nothing
    under it and is not among them. *)
Theorem coverage_counts_numeric_entries (j : json) :
  (exists r,
      count_extracted_fields j = Ok r
      /\ total_fields r = List.length (counted_entries j)
      /\ extracted_fields r
         = List.length (filter (fun e => is_nonzero (snd e)) (counted_entries j))
      /\ missing_fields r
         = map (fun e => dotted (fst e))
               (filter (fun e => negb (is_nonzero (snd e))) (counted_entries j)))
  /\ (forall path v,
         In (path, v) (counted_entries j)
         <-> In (path, v) (entries j [])
             /\ (forall k, In k path ->
                 k <> "company_name"%string /\ k <> "report_date"%string
                 /\ k <> "report_title"%string)
             /\ exists n, json_num v = Some n)
  /\ (forall v path, (forall d, v <> JDict d) -> entries v path = []).
Proof.
  split; [|split].
  - destruct (count_extracted_fields_returns j) as (_ & rate & E & _).
    destruct (count_fields_counters j) as (T & X & M).
    eexists. split; [exact E|]. cbn. auto.
  - intros path v. unfold counted_entries. rewrite filter_In.
    unfold counted, not_excluded, is_number. cbn [fst snd].
    rewrite andb_true_iff, forallb_forall.
    split; intros (I & H).
    + destruct H as [N Hn]. split; [exact I|]. split.
      * intros k Hk. specialize (N k Hk).
        apply negb_true_iff in N. apply excluded_names in N. exact N.
      * destruct (json_num v) as [n|]; [eauto|discriminate].
    + destruct H as [N (n & Hn)]. split; [exact I|]. split.
      * intros k Hk. apply negb_true_iff. apply excluded_names.
        exact (N k Hk).
      * rewrite Hn. reflexivity.
  - intros v path H. destruct v; try reflexivity.
    exfalso. apply (H d). reflexivity.
Qed.

Lemma coverage_bounds_witness :
  exists r,
    count_extracted_fields (JDict [("notes", JStr "none")]) = Ok r
    /\ total_fields r = 0%nat /\ extraction_rate r = NInt 0.
Proof.
  destruct (coverage_bounds (JDict [("notes", JStr "none")]))
    as (r & E & _ & _ & _ & Z).
  exists r. split; [exact E|].
  assert (T : total_fields r = 0%nat).
  { vm_compute in E. injection E as <-. reflexivity. }
  split; [exact T|exact (Z T)].
Defined.

(** a schema with a number under each excluded name, at two depths, and
    with a string, [None], a list and a [bool] among its values *)
Definition mixed_schema : json :=
  JDict [ ("report_title", JInt 7);
          ("notes", JStr "n/a");
          ("cash", JDict [ ("report_date", JInt 3);
                           ("checking", JFloat Float.one);
                           ("savings", JInt 0);
                           ("memo", JNull);
                           ("history", JList [JInt 1; JInt 2]) ]);
          ("company_name", JDict [("total", JInt 9)]);
          ("audited", JBool true) ].

Example mixed_schema_coverage :
  exists rate,
    count_extracted_fields mixed_schema
    = Ok (Coverage 2 3 rate ["cash.savings"%string])
    /\ map fst (counted_entries mixed_schema)
       = [["cash"; "checking"]; ["cash"; "savings"]; ["audited"]]%string.
Proof. eexists. split; vm_compute; reflexivity. Qed.

Lemma coverage_counts_numeric_entries_witness :
  In (["cash"; "savings"]%string, JInt 0) (counted_entries mixed_schema)
  /\ entries (JList [JInt 1; JInt 2]) ["cash"; "history"]%string = [].
Proof.
  destruct (coverage_counts_numeric_entries mixed_schema) as (_ & C & L).
  split.
  - apply C. split; [vm_compute; tauto|]. split.
    + intros k [<-|[<-|[]]]; repeat split; discriminate.
    + eexists. reflexivity.
  - apply L. discriminate.
Defined.

End CoverageClaims.

(* ================================================================= *)
(** * Facts about the store *)

Module StoreFacts.
Import Store.

Lemma dict_get_set_same {V} k (v : V) d : Dict.get k (Dict.set k v d) = Some v.
Proof.
  induction d as [|[k' v'] d IH]; cbn.
  - rewrite String.eqb_refl. reflexivity.
  - destruct (String.eqb k k') eqn:E; cbn.
    + rewrite String.eqb_refl. reflexivity.
    + rewrite E. exact IH.
Qed.

Lemma dict_get_set_other {V} k k' (v : V) d :
  k' <> k -> Dict.get k' (Dict.set k v d) = Dict.get k' d.
Proof.
  intros N. induction d as [|[k0 v0] d IH]; cbn.
  - apply String.eqb_neq in N. rewrite N. reflexivity.
  - destruct (String.eqb k k0) eqn:E; cbn.
    + apply String.eqb_eq in E. subst k0.
      apply String.eqb_neq in N. rewrite N. reflexivity.
    + rewrite IH. reflexivity.
Qed.

Lemma nth_error_update_same a d : forall h d0,
  nth_error h a = Some d0 -> nth_error (update a d h) a = Some d.
Proof.
  induction a as [|a IH]; intros [|x h] d0 H; cbn in *; try discriminate; eauto.
Qed.

Lemma nth_error_update_other a d : forall h b,
  a <> b -> nth_error (update a d h) b = nth_error h b.
Proof.
  induction a as [|a IH]; intros [|x h] [|b] N; cbn; auto; try congruence.
Qed.

(** ** Stores that differ only at some keys *)

Definition agree_off (K : list string) (h h' : store) : Prop :=
  forall a,
    match nth_error h a, nth_error h' a with
    | Some d, Some d' => forall k, ~ In k K -> Dict.get k d' = Dict.get k d
    | None, None => True
    | _, _ => False
    end.

Lemma agree_refl K h : agree_off K h h.
Proof. intros a. destruct (nth_error h a); auto. Qed.

Lemma agree_trans K1 K2 h1 h2 h3 :
  agree_off K1 h1 h2 -> agree_off K2 h2 h3 -> agree_off (K1 ++ K2) h1 h3.
Proof.
  intros A B a. specialize (A a). specialize (B a).
  destruct (nth_error h1 a), (nth_error h2 a), (nth_error h3 a); try tauto.
  intros k N. rewrite B, A; auto; intros I; apply N; apply in_or_app; auto.
Qed.

Lemma agree_weaken K K' h h' :
  incl K K' -> agree_off K h h' -> agree_off K' h h'.
Proof.
  intros I A a. specialize (A a).
  destruct (nth_error h a), (nth_error h' a); try tauto.
  intros k N. apply A. intros X. apply N. apply I. exact X.
Qed.

Lemma agree_is_dict K h h' o :
  agree_off K h h' -> is_dict h' o = is_dict h o.
Proof.
  intros A. destruct o; cbn; auto. specialize (A a).
  destruct (nth_error h a), (nth_error h' a); tauto.
Qed.

Lemma agree_lookup K h h' :
  agree_off K h h' ->
  forall path o,
    (forall k, In k path -> ~ In k K) ->
    lookup h' o path = lookup h o path.
Proof.
  intros A. induction path as [|k path IH]; intros o N; cbn; auto.
  destruct o; auto. pose proof (A a) as Aa.
  destruct (nth_error h a) as [d|], (nth_error h' a) as [d'|]; try tauto.
  rewrite Aa by (apply N; left; reflexivity).
  destruct (Dict.get k d); auto. apply IH.
  intros k0 I. apply N. right. exact I.
Qed.

(** ** The operations *)

Lemma setitem_spec h o k v :
  is_dict h o = true ->
  exists h',
    setitem o k v h = Ok (tt, h')
    /\ agree_off [k] h h'
    /\ lookup h' o [k] = Some v.
Proof.
  destruct o; cbn; try discriminate.
  destruct (nth_error h a) as [d|] eqn:E; [|discriminate]. intros _.
  eexists. split; [reflexivity|]. split.
  - intros b. destruct (Nat.eq_dec a b) as [<-|N].
    + rewrite E, (nth_error_update_same a _ h d E).
      intros k' Nk. apply dict_get_set_other.
      intros ->. apply Nk. left. reflexivity.
    + rewrite nth_error_update_other by exact N.
      destruct (nth_error h b); auto.
  - rewrite (nth_error_update_same a _ h d E), dict_get_set_same. reflexivity.
Qed.

Lemma getpath_lookup h : forall path o v,
  lookup h o path = Some v -> getpath o path h = Ok (v, h).
Proof.
  induction path as [|k path IH]; intros o v H; cbn in *.
  - injection H as <-. reflexivity.
  - unfold bind, getitem. destruct o; try discriminate.
    destruct (nth_error h a) as [d|]; [|discriminate].
    destruct (Dict.get k d) as [x|]; [|discriminate].
    apply IH. exact H.
Qed.

Lemma lookup_app h : forall p1 p2 o,
  lookup h o (p1 ++ p2)
  = match lookup h o p1 with
    | Some o' => lookup h o' p2
    | None => None
    end.
Proof.
  induction p1 as [|k p1 IH]; intros p2 o; cbn; auto.
  destruct o; auto. destruct (nth_error h a) as [d|]; auto.
  destruct (Dict.get k d); auto.
Qed.

(** what is reachable stays so when an object is allocated *)
Lemma lookup_extend h d : forall path o v,
  lookup h o path = Some v -> lookup (h ++ [d]) o path = Some v.
Proof.
  induction path as [|k path IH]; intros o v H; cbn in *; auto.
  destruct o; try discriminate.
  destruct (nth_error h a) as [d0|] eqn:E; [|discriminate].
  rewrite nth_error_app1 by (apply nth_error_Some; congruence).
  rewrite E. destruct (Dict.get k d0); [|discriminate]. apply IH. exact H.
Qed.

Lemma is_dict_extend h d o : is_dict h o = true -> is_dict (h ++ [d]) o = true.
Proof.
  destruct o; cbn; auto.
  destruct (nth_error h a) eqn:E; [|discriminate].
  rewrite nth_error_app1 by (apply nth_error_Some; congruence).
  rewrite E. auto.
Qed.

(** a dict of the old store reads the same after an allocation *)
Lemma lookup_one_extend h d o k :
  is_dict h o = true -> lookup (h ++ [d]) o [k] = lookup h o [k].
Proof.
  destruct o; cbn; try discriminate.
  destruct (nth_error h a) eqn:E; [|discriminate]. intros _.
  rewrite nth_error_app1 by (apply nth_error_Some; congruence).
  rewrite E. reflexivity.
Qed.

End StoreFacts.

(* ================================================================= *)
(** * Facts about the populator *)

Module PopulaterFacts.
Import Re ReFacts Store StoreFacts Populater Locators.
Local Open Scope store_scope.

(** The function is its table, run in order around the treasury-stock
    statement. *)
Lemma populate_as_table text template :
  populate_balance_sheet text template
  = (populated <- dict_copy template ;;
     set_company populated text ;;
     set_date populated text ;;
     run_locators populated text locators_before
       (set_treasury populated text ;;
        run_locators populated text locators_after (ret populated))).
Proof.
  unfold populate_balance_sheet, run_locators, locators_before, locators_after.
  cbn [fold_right loc_sections loc_key loc_pattern fst snd].
  reflexivity.
Qed.

(** ** Lists of keys *)

Lemma existsb_eqb_In k l : existsb (String.eqb k) l = true <-> In k l.
Proof.
  rewrite existsb_exists. split.
  - intros (x & I & E). apply String.eqb_eq in E. subst. exact I.
  - intros I. exists k. split; auto. apply String.eqb_refl.
Qed.

Lemma disjointb_spec l1 l2 :
  disjointb l1 l2 = true -> forall k, In k l1 -> ~ In k l2.
Proof.
  unfold disjointb. rewrite forallb_forall. intros H k I1 I2.
  specialize (H k I1). apply negb_true_iff in H.
  apply existsb_eqb_In in I2. congruence.
Qed.

Lemma nodupb_spec l : nodupb l = true -> NoDup l.
Proof.
  induction l as [|k l IH]; cbn; intros H; constructor;
    apply andb_prop in H; destruct H as [H1 H2]; auto.
  apply negb_true_iff in H1. intros I. apply existsb_eqb_In in I. congruence.
Qed.

Definition inclb (l1 l2 : list string) : bool :=
  forallb (fun k => existsb (String.eqb k) l2) l1.

Lemma inclb_spec l1 l2 : inclb l1 l2 = true -> incl l1 l2.
Proof.
  unfold inclb. rewrite forallb_forall. intros H k I.
  apply existsb_eqb_In. auto.
Qed.

(** ** One statement *)

Lemma extract_ok text pattern :
  pattern_ok pattern = true ->
  extract_value_from_text text pattern = Ok (extracted text pattern).
Proof.
  unfold pattern_ok, extracted, extract_value_from_text, re_search, group1.
  destruct (ReParse.compile pattern) as [r|]; [|discriminate].
  intros G. cbn [rbind]. destruct (search_re IMS r text); [|reflexivity].
  rewrite G. reflexivity.
Qed.

Lemma shaped_agree K h h' p secs :
  agree_off K h h' -> (forall k, In k secs -> ~ In k K) ->
  shaped h' p secs = shaped h p secs.
Proof.
  intros A D. unfold shaped. rewrite (agree_lookup K h h' A secs p D).
  destruct (lookup h p secs); auto. apply (agree_is_dict K); auto.
Qed.

Lemma set_extracted_spec text h p secs key pattern :
  pattern_ok pattern = true ->
  shaped h p secs = true ->
  ~ In key secs ->
  exists h',
    set_extracted p secs key text pattern h = Ok (tt, h')
    /\ agree_off [key] h h'
    /\ lookup h' p (secs ++ [key]) = Some (extracted text pattern).
Proof.
  intros P S N. unfold shaped in S.
  destruct (lookup h p secs) as [o|] eqn:L; [|discriminate].
  destruct (setitem_spec h o key (extracted text pattern) S) as (h' & E & A & V).
  exists h'. split; [|split; [exact A|]].
  - unfold set_extracted, bind, lift. rewrite (extract_ok text pattern P).
    rewrite (getpath_lookup h secs p o L). exact E.
  - rewrite lookup_app.
    rewrite (agree_lookup [key] h h' A secs p), L; [exact V|].
    intros k I [<-|[]]. exact (N I).
Qed.

(** ** A table of statements *)

Lemma run_locators_spec text p : forall l h,
  (forall e, In e l -> pattern_ok (loc_pattern e) = true) ->
  (forall e, In e l -> shaped h p (loc_sections e) = true) ->
  (forall e k, In e l -> In k (loc_sections e) -> ~ In k (map loc_key l)) ->
  NoDup (map loc_key l) ->
  exists h',
    (forall A (k : M A), run_locators p text l k h = k h')
    /\ agree_off (map loc_key l) h h'
    /\ forall e, In e l ->
         lookup h' p (loc_path e) = Some (extracted text (loc_pattern e)).
Proof.
  induction l as [|e l IH]; intros h HP HS HD HN.
  - exists h. split; [reflexivity|]. split; [apply agree_refl|].
    intros e [].
  - cbn [map] in HD, HN. inversion HN as [|x xs Nk Nl]; subst.
    destruct (set_extracted_spec text h p (loc_sections e) (loc_key e)
                (loc_pattern e)) as (h1 & E1 & A1 & V1).
    { apply HP. left. reflexivity. }
    { apply HS. left. reflexivity. }
    { intros I. apply (HD e (loc_key e)); [left; reflexivity|exact I|].
      left. reflexivity. }
    destruct (IH h1) as (h' & R & A & V).
    { intros e' I. apply HP. right. exact I. }
    { intros e' I. rewrite (shaped_agree [loc_key e] h h1); auto.
      - apply HS. right. exact I.
      - intros k Ik [<-|[]]. apply (HD e' (loc_key e)); auto.
        + right. exact I.
        + left. reflexivity. }
    { intros e' k I Ik Iw. apply (HD e' k); auto.
      - right. exact I.
      - right. exact Iw. }
    { exact Nl. }
    exists h'. split; [|split].
    + intros A0 k. cbn [run_locators fold_right]. unfold bind at 1.
      rewrite E1. apply R.
    + apply (agree_trans [loc_key e] (map loc_key l) h h1 h'); auto.
    + intros e' [<-|I]; [|apply V; exact I].
      unfold loc_path.
      rewrite (agree_lookup (map loc_key l) h1 h' A); [exact V1|].
      intros k Ik Iw. apply in_app_or in Ik. destruct Ik as [Ik|[<-|[]]].
      * apply (HD e k); auto; [left; reflexivity|right; exact Iw].
      * exact (Nk Iw).
Qed.

(** ** The header statements *)

Definition set_header (pattern : string) (fl : flags) (key : string)
           (populated : pyval) (text : string) : M unit :=
  m <- lift (re_search pattern text fl) ;;
  match m with
  | Some m =>
      v <- lift (group1_strip pattern m) ;;
      setitem populated key v
  | None => ret tt
  end.

Lemma set_header_spec pattern r fl key p text h :
  ReParse.compile pattern = Some r ->
  has_group1 r = true -> sets_group1 r = true ->
  is_dict h p = true ->
  exists h', set_header pattern fl key p text h = Ok (tt, h')
             /\ agree_off [key] h h'.
Proof.
  intros C G S D. unfold set_header, bind, lift, re_search. rewrite C.
  destruct (search_re fl r text) as [m|] eqn:E.
  - unfold group1_strip, group1. rewrite C, G. cbn [rbind].
    pose proof (scan_group1 fl r _ _ m S E) as N.
    destruct (m_group1 m) as [g|]; [|congruence]. cbn [option_map].
    destruct (setitem_spec h p key
                (PStr (l2s (FloatParse.strip (s2l (l2s g))))) D)
      as (h' & E' & A & _).
    exists h'. split; [exact E'|exact A].
  - exists h. split; [reflexivity|apply agree_refl].
Qed.

Lemma re_search_compiled pattern r text fl :
  ReParse.compile pattern = Some r ->
  re_search pattern text fl = Ok (search_re fl r text).
Proof. intros C. unfold re_search. rewrite C. reflexivity. Qed.

(** ** The treasury-stock statement *)

Lemma treasury_compiles : ReParse.compile treasury_pattern = Some treasury_regex.
Proof. vm_compute. reflexivity. Qed.

Lemma treasury_has_group1 : has_group1 treasury_regex = true.
Proof. vm_compute. reflexivity. Qed.

Lemma clean_number_is_number g : exists n, clean_number g = PNum n.
Proof.
  unfold clean_number. destruct g as [[|c s]|]; try (eexists; reflexivity).
  destruct (FloatParse.py_float _); eexists; reflexivity.
Qed.

Lemma set_treasury_spec p text h :
  shaped h p ["equity"] = true ->
  match search_re IGNORECASE treasury_regex text with
  | None => set_treasury p text h = Ok (tt, h)
  | Some m =>
      exists h' n,
        set_treasury p text h = Ok (tt, h')
        /\ agree_off ["3100_treasury_stock"] h h'
        /\ clean_number (option_map l2s (m_group1 m)) = PNum n
        /\ lookup h' p treasury_path = Some (PNum (Num.neg n))
  end.
Proof.
  intros S. unfold set_treasury, bind, lift, re_search.
  rewrite treasury_compiles.
  destruct (search_re IGNORECASE treasury_regex text) as [m|]; [|reflexivity].
  unfold group1. rewrite treasury_compiles.
  rewrite treasury_has_group1.
  destruct (clean_number_is_number (option_map l2s (m_group1 m))) as (n & En).
  rewrite En. unfold py_neg. cbn [pyval_num].
  unfold shaped in S.
  destruct (lookup h p ["equity"]) as [o|] eqn:L; [|discriminate].
  rewrite (getpath_lookup h ["equity"] p o L).
  destruct (setitem_spec h o "3100_treasury_stock" (PNum (Num.neg n)) S)
    as (h' & E & A & V).
  exists h', n. split; [exact E|]. split; [exact A|]. split; [reflexivity|].
  change treasury_path with (["equity"] ++ ["3100_treasury_stock"]).
  rewrite lookup_app.
  rewrite (agree_lookup ["3100_treasury_stock"] h h' A ["equity"] p), L;
    [exact V|].
  intros k [<-|[]] [X|[]]. discriminate X.
Qed.

(** ** The copy *)

Lemma copy_spec h template :
  shaped h template [] = true ->
  exists d,
    dict_copy template h = Ok (PRef (List.length h), h ++ [d])
    /\ is_dict (h ++ [d]) (PRef (List.length h)) = true
    /\ forall k rest,
         lookup (h ++ [d]) (PRef (List.length h)) (k :: rest)
         = match Dict.get k d with
           | Some v => lookup (h ++ [d]) v rest
           | None => None
           end
         /\ lookup h template (k :: rest)
            = match Dict.get k d with
              | Some v => lookup h v rest
              | None => None
              end.
Proof.
  unfold shaped. cbn [lookup]. destruct template; cbn; try discriminate.
  destruct (nth_error h a) as [d|] eqn:E; [|discriminate]. intros _.
  exists d. rewrite nth_error_app2, Nat.sub_diag by lia. cbn.
  repeat split; auto.
Qed.

Lemma copy_shaped h template d secs :
  (forall k rest,
      lookup (h ++ [d]) (PRef (List.length h)) (k :: rest)
      = match Dict.get k d with
        | Some v => lookup (h ++ [d]) v rest
        | None => None
        end
      /\ lookup h template (k :: rest)
         = match Dict.get k d with
           | Some v => lookup h v rest
           | None => None
           end) ->
  is_dict (h ++ [d]) (PRef (List.length h)) = true ->
  shaped h template secs = true ->
  shaped (h ++ [d]) (PRef (List.length h)) secs = true
  /\ (secs <> [] ->
      lookup (h ++ [d]) (PRef (List.length h)) secs = lookup h template secs).
Proof.
  intros C D S. destruct secs as [|k rest].
  - split; [exact D|congruence].
  - unfold shaped in *. destruct (C k rest) as [C1 C2]. rewrite C1.
    rewrite C2 in S |- *.
    destruct (Dict.get k d) as [v|]; [|discriminate].
    destruct (lookup h v rest) as [o|] eqn:L; [|discriminate].
    rewrite (lookup_extend h d rest v o L).
    split; [apply is_dict_extend; exact S|reflexivity].
Qed.

End PopulaterFacts.

(* ================================================================= *)
(** * The populator, statement by statement *)

Module PopulateSpec.
Import Re ReFacts Store StoreFacts Populater Locators PopulaterFacts.
Local Open Scope store_scope.

Definition company_regex : regex :=
  Eval vm_compute in
    match ReParse.compile company_pattern with Some r => r | None => Eps end.

Definition date_regex : regex :=
  Eval vm_compute in
    match ReParse.compile date_pattern with Some r => r | None => Eps end.

Lemma company_compiles : ReParse.compile company_pattern = Some company_regex.
Proof. vm_compute. reflexivity. Qed.

Lemma date_compiles : ReParse.compile date_pattern = Some date_regex.
Proof. vm_compute. reflexivity. Qed.

Lemma set_company_eq p text :
  set_company p text
  = set_header company_pattern no_flags "company_name" p text.
Proof. unfold set_company, set_header. reflexivity. Qed.

Lemma set_date_eq p text :
  set_date p text = set_header date_pattern IGNORECASE "report_date" p text.
Proof. unfold set_date, set_header. reflexivity. Qed.

Lemma header_groups :
  has_group1 company_regex = true /\ sets_group1 company_regex = true
  /\ has_group1 date_regex = true /\ sets_group1 date_regex = true.
Proof. vm_compute. auto. Qed.

Lemma set_company_spec p text h :
  is_dict h p = true ->
  exists h', set_company p text h = Ok (tt, h')
             /\ agree_off ["company_name"] h h'.
Proof.
  destruct header_groups as (G & S & _). rewrite set_company_eq.
  apply (set_header_spec company_pattern company_regex); auto.
Qed.

Lemma set_date_spec p text h :
  is_dict h p = true ->
  exists h', set_date p text h = Ok (tt, h')
             /\ agree_off ["report_date"] h h'.
Proof.
  destruct header_groups as (_ & _ & G & S). rewrite set_date_eq.
  apply (set_header_spec date_pattern date_regex); auto.
Qed.

(** every key a statement of the function writes *)
Definition written_keys : list string :=
  "company_name" :: "report_date"
  :: map loc_key locators_before
  ++ "3100_treasury_stock" :: map loc_key locators_after.

Lemma sections_not_written secs k :
  In secs all_sections -> In k secs -> ~ In k written_keys.
Proof.
  intros I Ik.
  assert (F : forallb (fun s => disjointb s written_keys) all_sections = true)
    by (vm_compute; reflexivity).
  rewrite forallb_forall in F. apply (disjointb_spec secs written_keys); auto.
Qed.

Definition list_eqb (a b : list string) : bool :=
  if list_eq_dec string_dec a b then true else false.

Lemma locator_sections e :
  In e unconditional_locators -> In (loc_sections e) all_sections.
Proof.
  intros I.
  assert (F : forallb (fun e => existsb (list_eqb (loc_sections e)) all_sections)
                      unconditional_locators = true)
    by (vm_compute; reflexivity).
  rewrite forallb_forall in F. specialize (F e I).
  apply existsb_exists in F. destruct F as (s & Is & E).
  unfold list_eqb in E. destruct (list_eq_dec string_dec (loc_sections e) s);
    [subst; exact Is|discriminate].
Qed.

Lemma locators_pattern_ok e :
  In e unconditional_locators -> pattern_ok (loc_pattern e) = true.
Proof.
  assert (F : forallb (fun e => pattern_ok (loc_pattern e))
                      unconditional_locators = true)
    by (vm_compute; reflexivity).
  rewrite forallb_forall in F. apply F.
Qed.

Lemma keep_shape K h h' p :
  agree_off K h h' -> incl K written_keys ->
  (forall secs, In secs all_sections -> shaped h p secs = true) ->
  forall secs, In secs all_sections -> shaped h' p secs = true.
Proof.
  intros A I S secs Is. rewrite (shaped_agree K h h' p secs A); auto.
  intros k Ik Iw. apply (sections_not_written secs k Is Ik). apply I. exact Iw.
Qed.

(** a table within the function's statements runs to its end on a
    schema of the right shape *)
Lemma run_table text p l h :
  incl l unconditional_locators ->
  nodupb (map loc_key l) = true ->
  inclb (map loc_key l) written_keys = true ->
  (forall secs, In secs all_sections -> shaped h p secs = true) ->
  exists h',
    (forall A (k : M A), run_locators p text l k h = k h')
    /\ agree_off (map loc_key l) h h'
    /\ (forall e, In e l ->
          lookup h' p (loc_path e) = Some (extracted text (loc_pattern e)))
    /\ (forall secs, In secs all_sections -> shaped h' p secs = true).
Proof.
  intros I N W S.
  destruct (run_locators_spec text p l h) as (h' & R & A & V).
  - intros e Ie. apply locators_pattern_ok. apply I. exact Ie.
  - intros e Ie. apply S. apply locator_sections. apply I. exact Ie.
  - intros e k Ie Ik Iw.
    apply (sections_not_written (loc_sections e) k); auto.
    + apply locator_sections. apply I. exact Ie.
    + apply (inclb_spec _ _ W). exact Iw.
  - apply nodupb_spec. exact N.
  - exists h'. repeat split; auto.
    apply (keep_shape (map loc_key l) h h' p A); auto.
    apply inclb_spec. exact W.
Qed.

(** What [populate_balance_sheet] does on a schema of the right shape:
    it returns a new top-level object; every unconditional statement
    has left the extractor's result at its path; the treasury-stock
    path holds the negated capture when the locator matched and what
    the template held when it did not. *)
Lemma populate_spec text template h :
  well_shaped h template = true ->
  exists h',
    populate_balance_sheet text template h = Ok (PRef (List.length h), h')
    /\ (forall e, In e unconditional_locators ->
          lookup h' (PRef (List.length h)) (loc_path e)
          = Some (extracted text (loc_pattern e)))
    /\ match search_re IGNORECASE treasury_regex text with
       | None =>
           lookup h' (PRef (List.length h)) treasury_path
           = lookup h template treasury_path
       | Some m =>
           exists n,
             clean_number (option_map l2s (m_group1 m)) = PNum n
             /\ lookup h' (PRef (List.length h)) treasury_path
                = Some (PNum (Num.neg n))
       end.
Proof.
  intros WS. unfold well_shaped in WS. rewrite forallb_forall in WS.
  set (p := PRef (List.length h)).
  destruct (copy_spec h template) as (d & Ecopy & D & C).
  { apply WS. left. reflexivity. }
  set (h1 := h ++ [d]) in *.
  assert (S1 : forall secs, In secs all_sections -> shaped h1 p secs = true).
  { intros secs Is. apply (copy_shaped h template d secs C D). apply WS. exact Is. }
  (* the header *)
  destruct (set_company_spec p text h1 D) as (h2 & E2 & A2).
  assert (D2 : is_dict h2 p = true).
  { rewrite (agree_is_dict _ h1 h2 p A2). exact D. }
  destruct (set_date_spec p text h2 D2) as (h3 & E3 & A3).
  assert (A13 : agree_off ["company_name"; "report_date"] h1 h3).
  { apply (agree_trans ["company_name"] ["report_date"] h1 h2 h3); auto. }
  assert (S3 : forall secs, In secs all_sections -> shaped h3 p secs = true).
  { apply (keep_shape _ h1 h3 p A13); auto.
    apply inclb_spec. vm_compute. reflexivity. }
  (* the statements before the treasury-stock one *)
  destruct (run_table text p locators_before h3) as (h4 & R4 & A4 & V4 & S4).
  { intros e I. unfold unconditional_locators. apply in_or_app. left. exact I. }
  { vm_compute. reflexivity. }
  { vm_compute. reflexivity. }
  { exact S3. }
  (* the treasury-stock statement *)
  pose proof (set_treasury_spec p text h4) as T.
  assert (Seq : shaped h4 p ["equity"] = true).
  { apply S4. vm_compute. tauto. }
  specialize (T Seq).
  assert (T' : exists h5,
             set_treasury p text h4 = Ok (tt, h5)
             /\ agree_off ["3100_treasury_stock"] h4 h5
             /\ match search_re IGNORECASE treasury_regex text with
                | None => h5 = h4
                | Some m =>
                    exists n,
                      clean_number (option_map l2s (m_group1 m)) = PNum n
                      /\ lookup h5 p treasury_path = Some (PNum (Num.neg n))
                end).
  { destruct (search_re IGNORECASE treasury_regex text) as [m|].
    - destruct T as (h5 & n & E5 & A5 & Cn & V5).
      exists h5. repeat split; auto. exists n. auto.
    - exists h4. repeat split; auto. apply agree_refl. }
  clear T. destruct T' as (h5 & E5 & A5 & T5).
  assert (S5 : forall secs, In secs all_sections -> shaped h5 p secs = true).
  { apply (keep_shape _ h4 h5 p A5); auto.
    apply inclb_spec. vm_compute. reflexivity. }
  (* the statements after it *)
  destruct (run_table text p locators_after h5) as (h6 & R6 & A6 & V6 & _).
  { intros e I. unfold unconditional_locators. apply in_or_app. right. exact I. }
  { vm_compute. reflexivity. }
  { vm_compute. reflexivity. }
  { exact S5. }
  exists h6. split; [|split].
  - rewrite populate_as_table. unfold bind at 1. rewrite Ecopy. fold p h1.
    unfold bind at 1. rewrite E2.
    unfold bind at 1. rewrite E3.
    rewrite R4. unfold bind at 1. rewrite E5. rewrite R6. reflexivity.
  - intros e I. unfold unconditional_locators in I.
    apply in_app_or in I. destruct I as [I|I].
    + assert (A46 : agree_off ("3100_treasury_stock" :: map loc_key locators_after)
                              h4 h6).
      { apply (agree_trans ["3100_treasury_stock"] _ h4 h5 h6); auto. }
      rewrite (agree_lookup _ h4 h6 A46); [apply V4; exact I|].
      assert (F : forallb
                    (fun e => disjointb (loc_path e)
                       ("3100_treasury_stock" :: map loc_key locators_after))
                    locators_before = true) by (vm_compute; reflexivity).
      rewrite forallb_forall in F. apply disjointb_spec. apply F. exact I.
    + apply V6. exact I.
  - destruct (search_re IGNORECASE treasury_regex text) as [m|].
    + destruct T5 as (n & Cn & V5). exists n. split; [exact Cn|].
      rewrite (agree_lookup _ h5 h6 A6); [exact V5|].
      apply disjointb_spec. vm_compute. reflexivity.
    + subst h5.
      assert (A16 : agree_off
                      (["company_name"; "report_date"]
                       ++ map loc_key locators_before
                       ++ map loc_key locators_after) h1 h6).
      { apply (agree_trans _ _ h1 h3 h6); auto.
        apply (agree_trans _ _ h3 h4 h6); auto. }
      rewrite (agree_lookup _ h1 h6 A16);
        [|apply disjointb_spec; vm_compute; reflexivity].
      change treasury_path with (["equity"] ++ ["3100_treasury_stock"]).
      rewrite !lookup_app.
      assert (Ie : In ["equity"] all_sections) by (vm_compute; tauto).
      pose proof (WS _ Ie) as Se. unfold shaped in Se.
      destruct (copy_shaped h template d ["equity"] C D (WS _ Ie)) as [_ L].
      fold p h1 in L. rewrite L by discriminate.
      destruct (lookup h template ["equity"]) as [o|]; [|discriminate].
      apply lookup_one_extend. exact Se.
Qed.

End PopulateSpec.

(* ================================================================= *)
(** * The treasury-stock field *)

Module TreasuryClaims.
Import Re ReFacts Store StoreFacts Populater Locators PopulaterFacts PopulateSpec.
Import NormalizerFacts.

(** the label and literal of scenario B *)
Definition occurrence : chars := s2l "3100 Treasury Stock (500,000)".

Lemma occurrence_match post :
  match_at IGNORECASE treasury_regex (occurrence ++ post)
  = Some (29, Some (s2l "500,000")).
Proof. vm_compute. reflexivity. Qed.

Lemma search_occurrence pre post :
  (forall j, j < List.length pre ->
             ~ match_begins_at IGNORECASE treasury_regex j
                 (pre ++ occurrence ++ post)) ->
  search_re IGNORECASE treasury_regex (l2s (pre ++ occurrence ++ post))
  = Some (MatchObj (List.length pre) occurrence (Some (s2l "500,000"))).
Proof.
  intros H. unfold search_re. rewrite FormatFacts.s2l_l2s.
  rewrite (scan_skip IGNORECASE treasury_regex pre (occurrence ++ post) 0 H).
  change (occurrence ++ post)
    with ("3"%char :: tl occurrence ++ post).
  cbn [scan].
  change ("3"%char :: tl occurrence ++ post) with (occurrence ++ post).
  rewrite occurrence_match. f_equal.
Qed.

(** C5, as the code has it. When the first match of the treasury-stock
    locator in the text is the occurrence
    ["3100 Treasury Stock (500,000)"] (no match of the locator begins
    before it), populating a schema of the right shape returns, and the
    treasury stock field of the result is [-500000.0]: the captured
    literal negated, the same number the normalizer gives for
    ["(500,000)"]. *)
Theorem treasury_stock_of_first_match
        (pre post : chars) (template : pyval) (h : store)
        (Hshape : well_shaped h template = true)
        (Hfirst : forall j, j < List.length pre ->
                    ~ match_begins_at IGNORECASE treasury_regex j
                        (pre ++ occurrence ++ post)) :
  exists h' f,
    populate_balance_sheet (l2s (pre ++ occurrence ++ post)) template h
    = Ok (PRef (List.length h), h')
    /\ lookup h' (PRef (List.length h)) treasury_path = Some (PFloat f)
    /\ py_eq_Z (PFloat f) (-500000) = true
    /\ clean_number (Some "(500,000)") = PFloat f.
Proof.
  destruct (populate_spec (l2s (pre ++ occurrence ++ post)) template h Hshape)
    as (h' & E & _ & T).
  rewrite (search_occurrence pre post Hfirst) in T.
  destruct T as (n & Cn & V).
  cbn [m_group1 option_map] in Cn.
  assert (N : clean_number (Some (l2s (s2l "500,000")))
              = PNum (Num.NFloat (Float.of_decimal false 500000 0)))
    by (vm_compute; reflexivity).
  rewrite N in Cn. injection Cn as <-.
  exists h', (Float.opp (Float.of_decimal false 500000 0)).
  split; [exact E|]. split; [exact V|].
  split; vm_compute; reflexivity.
Qed.

(** the repository's template, loaded *)
Definition loaded_zero_template : pyval * store :=
  Eval vm_compute in load Template.zero_template [].

Lemma treasury_stock_of_first_match_witness :
  exists h' f,
    populate_balance_sheet "3100 Treasury Stock (500,000)
3200 Retained Earnings 75,000"
      (fst loaded_zero_template) (snd loaded_zero_template)
    = Ok (PRef 10, h')
    /\ lookup h' (PRef 10) treasury_path = Some (PFloat f)
    /\ py_eq_Z (PFloat f) (-500000) = true.
Proof.
  assert (S : well_shaped (snd loaded_zero_template) (fst loaded_zero_template)
              = true) by (vm_compute; reflexivity).
  destruct (treasury_stock_of_first_match []
              (s2l "
3200 Retained Earnings 75,000")
              (fst loaded_zero_template) (snd loaded_zero_template) S)
    as (h' & f & E & V & Q & _).
  - intros j Hj. cbn in Hj. lia.
  - exists h', f. split; [exact E|]. split; [exact V|exact Q].
Defined.

(** C5 as stated fails: a text can contain the occurrence after an
    earlier match of the locator, and the field is then the earlier
    literal negated. *)
Lemma treasury_stock_takes_the_first_match :
  let text := "3100 Treasury Stock (1) 3100 Treasury Stock (500,000)" in
  occurs_in occurrence (s2l text)
  /\ exists p t,
      Pipeline.populate_tree text Template.zero_template = Ok (p, t)
      /\ BalanceSpec.json_at p treasury_path
         = Some (JFloat (Float.opp Float.one)).
Proof.
  cbv zeta. split.
  - exists (s2l "3100 Treasury Stock (1) "), []. reflexivity.
  - eexists. eexists. split; vm_compute; reflexivity.
Qed.

(** C9. Populating a schema of the right shape returns, and each of the
    32 numeric leaves other than treasury stock holds the result of the
    field extractor for its pattern, whatever the text; the treasury
    stock leaf is the one written under a condition: when its locator
    finds no match, [equity.3100_treasury_stock] is exactly what the
    input schema has there (nothing, if it has nothing), not [0]. *)
Theorem treasury_stock_kept_without_match
        (text : string) (template : pyval) (h : store)
        (Hshape : well_shaped h template = true) :
  exists h',
    populate_balance_sheet text template h = Ok (PRef (List.length h), h')
    /\ (re_search treasury_pattern text IGNORECASE = Ok None ->
        lookup h' (PRef (List.length h)) treasury_path
        = lookup h template treasury_path)
    /\ List.length unconditional_locators = 32
    /\ ~ In treasury_path (map loc_path unconditional_locators)
    /\ forall sections key pattern,
         In (sections, key, pattern) unconditional_locators ->
         exists v,
           extract_value_from_text text pattern = Ok v
           /\ lookup h' (PRef (List.length h)) (sections ++ [key]) = Some v.
Proof.
  destruct (populate_spec text template h Hshape) as (h' & E & V & T).
  exists h'. split; [exact E|]. split; [|split; [reflexivity|split]].
  - intros Hnone.
    rewrite (re_search_compiled _ _ text IGNORECASE treasury_compiles) in Hnone.
    injection Hnone as Hnone. rewrite Hnone in T. exact T.
  - intros I. apply in_map_iff in I. destruct I as (e & Ee & Ie).
    assert (F : forallb (fun e => negb (list_eqb (loc_path e) treasury_path))
                        unconditional_locators = true)
      by (vm_compute; reflexivity).
    rewrite forallb_forall in F. specialize (F e Ie).
    unfold list_eqb in F.
    destruct (list_eq_dec string_dec (loc_path e) treasury_path);
      [discriminate|contradiction].
  - intros sections key pattern I. exists (extracted text pattern).
    split.
    + apply extract_ok. apply (locators_pattern_ok _ I).
    + apply (V _ I).
Qed.

(** a template whose leaves all hold 7 *)
Definition loaded_sevens : pyval * store :=
  Eval vm_compute in
    load (Template.schema Template.empty_header (fun _ => Num.NInt 7)) [].

Lemma treasury_stock_kept_without_match_witness :
  exists h',
    populate_balance_sheet "Total Equity 250,000"
      (fst loaded_sevens) (snd loaded_sevens) = Ok (PRef 10, h')
    /\ lookup h' (PRef 10) treasury_path = Some (PInt 7)
    /\ lookup h' (PRef 10) ["equity"; "3200_retained_earnings"] = Some (PInt 0).
Proof.
  assert (S : well_shaped (snd loaded_sevens) (fst loaded_sevens) = true)
    by (vm_compute; reflexivity).
  assert (N : re_search treasury_pattern "Total Equity 250,000" IGNORECASE
              = Ok None) by (vm_compute; reflexivity).
  destruct (treasury_stock_kept_without_match "Total Equity 250,000"
              (fst loaded_sevens) (snd loaded_sevens) S)
    as (h' & E & T & _ & _ & V).
  exists h'. split; [exact E|]. split; [exact (T N)|].
  destruct (V ["equity"] "3200_retained_earnings"
              "3200\s+Retained\s+Earnings\s+(\d+(?:,\d+)*)") as (v & Ev & Lv).
  - vm_compute. tauto.
  - vm_compute in Ev. injection Ev as <-. exact Lv.
Defined.

End TreasuryClaims.

(* ================================================================= *)
(** * The scenarios of the specification, run through the pipeline *)

Module ScenarioClaims.
Import Num Validator Pipeline BalanceSpec.

Definition checking_path : list string :=
  ["assets"; "current_assets"; "cash"; "1010_checking"].

Definition f_1250000 : Float.float :=
  Eval vm_compute in Float.of_decimal false 1250000 0.
Definition f_100 : Float.float := Eval vm_compute in Float.of_decimal false 100 0.
Definition f_50 : Float.float := Eval vm_compute in Float.of_decimal false 50 0.

(** C3 fails on the code: [template.copy()] copies the top-level
    mapping only, so the nested sections of the caller's template are
    the ones the populator writes to. After populating from
    ["1010 Checking 1,250,000"], the caller's template holds
    [1250000.0] at [assets.current_assets.cash.1010_checking], where it
    held [0]; only its top-level entries are as before. *)
Theorem populate_writes_into_the_callers_template :
  let text := "1010 Checking 1,250,000
Total Liabilities and Equity 1,250,000" in
  json_at Template.zero_template checking_path = Some (JInt 0)
  /\ exists t,
      template_after text Template.zero_template = Ok t
      /\ json_at t checking_path = Some (JFloat f_1250000)
      /\ t <> Template.zero_template
      /\ json_at t ["total_liabilities_and_equity"] = Some (JInt 0)
      /\ exists p,
          populated_of text Template.zero_template = Ok p
          /\ json_at p ["total_liabilities_and_equity"]
             = Some (JFloat f_1250000).
Proof.
  cbv zeta. split; [reflexivity|].
  eexists. split; [vm_compute; reflexivity|].
  split; [reflexivity|]. split; [discriminate|]. split; [reflexivity|].
  eexists. split; [vm_compute; reflexivity|reflexivity].
Qed.

(** the leaves after populating from the empty text: zero everywhere,
    the treasury-stock leaf as it was *)
Definition keep_treasury (leaf : string -> num) (k : string) : num :=
  if String.eqb k "3100_treasury_stock" then leaf k else NInt 0.

Lemma cmp_fin_zero m e : Float.cmp_fin m e 0 0 = Eq -> m = 0%Z.
Proof.
  unfold Float.cmp_fin. intros H. apply Z.compare_eq in H.
  rewrite Z.mul_0_l in H.
  assert (0 < 2 ^ (e - Z.min e 0))%Z by (apply Z.pow_pos_nonneg; lia).
  nia.
Qed.

Lemma ne_zero_false n :
  ne n zero = false ->
  n = NInt 0 \/ exists s, n = NFloat (S754_zero s).
Proof.
  unfold ne, compare, zero. destruct n as [z|f]; cbn [view].
  - unfold Float.cmp. destruct (Float.cmp_fin z 0 0 0) eqn:C; try discriminate.
    apply cmp_fin_zero in C. subst z. auto.
  - destruct f as [s|s| |s m e]; cbn [Float.view].
    + intros _. right. eauto.
    + destruct s; cbn; discriminate.
    + cbn. discriminate.
    + unfold Float.cmp.
      destruct (Float.cmp_fin (if s then Z.neg m else Z.pos m) e 0 0) eqn:C;
        try discriminate.
      apply cmp_fin_zero in C. destruct s; discriminate.
Qed.

(** C7, as the code has it. From the empty text, on a schema of the
    template's shape with a number at every leaf, every numeric leaf of
    the populated schema is [0] except the treasury-stock leaf, which
    keeps the number the input schema has there; when that number is
    zero the coverage analyzer reports a rate equal to 0 and as many
    missing fields as there are fields, all 33. *)
Theorem empty_text_populates_zeros
        (header : string -> string) (leaf : string -> num) :
  populated_of "" (Template.schema header leaf)
  = Ok (Template.schema header (keep_treasury leaf))
  /\ (ne (leaf "3100_treasury_stock") zero = false ->
      exists r,
        count_extracted_fields (Template.schema header (keep_treasury leaf))
        = Ok r
        /\ compare (extraction_rate r) (NInt 0) = Some Eq
        /\ extracted_fields r = 0
        /\ total_fields r = 33
        /\ List.length (missing_fields r) = total_fields r).
Proof.
  split; [vm_compute; reflexivity|].
  intros Z.
  assert (E : Template.schema header (keep_treasury leaf)
              = Template.schema header
                  (keep_treasury (fun _ => leaf "3100_treasury_stock")))
    by reflexivity.
  rewrite E. clear E.
  destruct (ne_zero_false _ Z) as [->|(s & ->)].
  - eexists. split; [vm_compute; reflexivity|]. repeat split.
  - destruct s; (eexists; split; [vm_compute; reflexivity|]); repeat split.
Qed.

Lemma empty_text_populates_zeros_witness :
  populated_of "" Template.zero_template = Ok Template.zero_template
  /\ exists r,
      count_extracted_fields Template.zero_template = Ok r
      /\ compare (extraction_rate r) (NInt 0) = Some Eq
      /\ List.length (missing_fields r) = total_fields r.
Proof.
  destruct (empty_text_populates_zeros Template.empty_header Template.zero_leaf)
    as [P C].
  split; [exact P|].
  destruct C as (r & E & R & _ & _ & M); [reflexivity|].
  exists r. split; [exact E|]. split; [exact R|exact M].
Defined.

(** C7 as stated fails: a fully populated schema holds a number at the
    treasury-stock leaf, the empty text leaves it there, and the rate
    is then not 0. *)
Lemma empty_text_keeps_treasury_stock :
  let template := Template.schema Template.empty_header (fun _ => NInt 7) in
  exists p r,
    populated_of "" template = Ok p
    /\ json_at p ["equity"; "3100_treasury_stock"] = Some (JInt 7)
    /\ count_extracted_fields p = Ok r
    /\ extracted_fields r = 1
    /\ compare (extraction_rate r) (NInt 0) = Some Gt
    /\ List.length (missing_fields r) = 32 /\ total_fields r = 33.
Proof.
  cbv zeta. eexists. eexists.
  split; [vm_compute; reflexivity|]. split; [reflexivity|].
  split; [vm_compute; reflexivity|]. repeat split.
Qed.

Definition scenario_D : string := "Total Assets 100
Total Liabilities and Equity 50".

(** C8, as the code has it. For the text of scenario D, whatever the
    template holds, total liabilities and total equity are not found
    and are [0], the calculated total is [0], total assets are [100.0],
    the difference is [100.0] and [is_balanced] is false. *)
Theorem scenario_D_is_not_balanced
        (header : string -> string) (leaf : string -> num) :
  exists p r,
    populated_of scenario_D (Template.schema header leaf) = Ok p
    /\ validate_balance_sheet p = Ok r
    /\ total_assets r = NFloat f_100
    /\ total_liabilities r = NInt 0
    /\ total_equity r = NInt 0
    /\ calculated_total r = NInt 0
    /\ stated_total r = NFloat f_50
    /\ balance_difference r = NFloat f_100
    /\ is_balanced r = false
    /\ matches_stated r = false.
Proof.
  eexists. eexists. split; [vm_compute; reflexivity|].
  split; [vm_compute; reflexivity|]. repeat split.
Qed.

(** C8 as stated fails: on the repository's template the text of
    scenario D does not validate as balanced. *)
Lemma scenario_D_counterexample :
  match populated_of scenario_D Template.zero_template with
  | Ok p =>
      match validate_balance_sheet p with
      | Ok r => is_balanced r = false
      | Raise _ => False
      end
  | Raise _ => False
  end.
Proof. vm_compute. reflexivity. Qed.

End ScenarioClaims.

(* ================================================================= *)
(** * What group 1 holds *)

Module CaptureFacts.
Import Re ReFacts.

(** the bodies of the groups numbered 1 *)
Fixpoint group1_bodies (r : regex) : list regex :=
  match r with
  | Cat a b | Alt a b => group1_bodies a ++ group1_bodies b
  | Star a => group1_bodies a
  | Group n a => (if (n =? 1)%nat then [a] else []) ++ group1_bodies a
  | _ => []
  end.

(** a capture is a text in the language of such a body *)
Definition captured_by (fl : flags) (r : regex) (g : option chars) : Prop :=
  match g with
  | Some w => exists body, In body (group1_bodies r) /\ matches fl body w
  | None => True
  end.

Lemma captured_cat_l fl a b g : captured_by fl a g -> captured_by fl (Cat a b) g.
Proof.
  destruct g as [w|]; cbn; auto. intros (body & I & M).
  exists body. split; auto. apply in_or_app. auto.
Qed.

Lemma captured_cat_r fl a b g : captured_by fl b g -> captured_by fl (Cat a b) g.
Proof.
  destruct g as [w|]; cbn; auto. intros (body & I & M).
  exists body. split; auto. apply in_or_app. auto.
Qed.

(** A successful run splits the text into a front in the language of
    the pattern and a rest the continuation accepts, with a capture that
    is the one it began with or a text in the language of a body of
    group 1. *)
Lemma run_capture (fl : flags) R (r : regex) :
  forall s i g (k : cont R) x,
    run fl r s i g k = Some x ->
    exists s1 s2 g',
      s = s1 ++ s2 /\ matches fl r s1 /\
      k s2 (i + List.length s1)%nat g' = Some x /\
      (g' = g \/ (g' <> None /\ captured_by fl r g')).
Proof.
  induction r; intros s i g k x H; simpl in H;
    try (apply (step_char_sound fl) in H;
         destruct H as (c' & s' & -> & Hp & Hk);
         exists [c'], s', g; simpl; rewrite Nat.add_1_r;
         repeat split; auto; constructor; auto).
  - exists [], s, g. simpl. rewrite Nat.add_0_r. repeat split; auto. constructor.
  - apply IHr1 in H. destruct H as (s1 & s2 & g1 & -> & M1 & H & C1).
    apply IHr2 in H. destruct H as (s3 & s4 & g2 & -> & M2 & H & C2).
    exists (s1 ++ s3), s4, g2. rewrite <- app_assoc.
    rewrite length_app, Nat.add_assoc.
    repeat split; auto; [constructor; auto|].
    destruct C2 as [->|[N2 C2]].
    + destruct C1 as [->|[N1 C1]]; [left; auto|].
      right. split; auto. apply captured_cat_l. exact C1.
    + right. split; auto. apply captured_cat_r. exact C2.
  - apply orelse_some in H. destruct H as [H | [_ H]].
    + apply IHr1 in H. destruct H as (s1 & s2 & g1 & -> & M1 & H & C1).
      exists s1, s2, g1. repeat split; auto; [apply MAltL; auto|].
      destruct C1 as [->|[N1 C1]]; [left; auto|].
      right. split; auto. apply (captured_cat_l fl r1 r2). exact C1.
    + apply IHr2 in H. destruct H as (s1 & s2 & g1 & -> & M1 & H & C1).
      exists s1, s2, g1. repeat split; auto; [apply MAltR; auto|].
      destruct C1 as [->|[N1 C1]]; [left; auto|].
      right. split; auto. apply (captured_cat_r fl r1 r2). exact C1.
  - change (star_loop R (run fl r) k (S (List.length s)) s i g = Some x) in H.
    revert H. generalize (S (List.length s)). intros n. revert s i g.
    induction n as [|n IHn]; intros s i g H; cbn [star_loop] in H.
    + exists [], s, g. simpl. rewrite Nat.add_0_r.
      repeat split; auto. constructor.
    + apply orelse_some in H. destruct H as [H | [_ H]].
      * apply IHr in H. destruct H as (s1 & s2 & g1 & -> & M1 & H & C1).
        destruct (i <? i + List.length s1)%nat.
        -- apply IHn in H. destruct H as (s3 & s4 & g2 & -> & M2 & H & C2).
           exists (s1 ++ s3), s4, g2. rewrite <- app_assoc.
           rewrite length_app, Nat.add_assoc.
           repeat split; auto; [constructor; auto|].
           destruct C2 as [->|[N2 C2]]; [|right; split; auto].
           destruct C1 as [->|[N1 C1]]; [left; auto|right; split; auto].
        -- exists s1, s2, g1. repeat split; auto.
           rewrite <- (app_nil_r s1). constructor; auto. constructor.
      * exists [], s, g. simpl. rewrite Nat.add_0_r.
        repeat split; auto. constructor.
  - apply IHr in H. destruct H as (s1 & s2 & g1 & -> & M1 & H & C1).
    replace (i + List.length s1 - i)%nat with (List.length s1) in H by lia.
    rewrite firstn_app, Nat.sub_diag, firstn_all in H. cbn [firstn] in H.
    rewrite app_nil_r in H.
    eexists s1, s2, _. split; [reflexivity|]. split; [constructor; auto|].
    split; [exact H|].
    unfold captured_by in *. cbn [group1_bodies].
    destruct (n =? 1)%nat.
    + right. split; [discriminate|]. exists r. split; [left; reflexivity|exact M1].
    + cbn [app]. exact C1.
Qed.

Lemma match_at_capture fl r s n g :
  match_at fl r s = Some (n, g) ->
  exists s2,
    s = firstn n s ++ s2 /\ matches fl r (firstn n s) /\ captured_by fl r g.
Proof.
  unfold match_at. intros H. apply run_capture in H.
  destruct H as (s1 & s2 & g' & -> & M & E & C).
  injection E as <- <-. cbn [Nat.add].
  rewrite firstn_app, Nat.sub_diag, firstn_all. cbn [firstn]. rewrite app_nil_r.
  exists s2. repeat split; auto.
  destruct C as [->|[_ C]]; [exact I|exact C].
Qed.

(** what [re.search] returns: the place of the match in the text, the
    matched part, and a group 1 read by its body *)
Lemma search_sound fl r text m :
  search_re fl r text = Some m ->
  exists pre post,
    s2l text = pre ++ m_group0 m ++ post
    /\ List.length pre = m_start m
    /\ matches fl r (m_group0 m)
    /\ captured_by fl r (m_group1 m).
Proof.
  unfold search_re.
  assert (G : forall s i m,
             scan fl r i s = Some m ->
             exists pre post,
               s = pre ++ m_group0 m ++ post
               /\ (i + List.length pre)%nat = m_start m
               /\ matches fl r (m_group0 m)
               /\ captured_by fl r (m_group1 m)).
  { induction s as [|c s IH]; intros i m0 H; simpl in H.
    - destruct (match_at fl r []) as [[n g]|] eqn:E; [|discriminate].
      injection H as <-. apply match_at_capture in E.
      destruct E as (s2 & E0 & M & C). cbn [m_group0 m_start m_group1].
      exists [], s2. cbn [app List.length]. rewrite Nat.add_0_r. auto.
    - destruct (match_at fl r (c :: s)) as [[n g]|] eqn:E.
      + injection H as <-. apply match_at_capture in E.
        destruct E as (s2 & E0 & M & C). cbn [m_group0 m_start m_group1].
        exists [], s2. cbn [app List.length]. rewrite Nat.add_0_r. auto.
      + apply IH in H. destruct H as (pre & post & E0 & L & M & C).
        exists (c :: pre), post. rewrite E0 at 1. repeat split; auto.
        cbn [List.length]. lia. }
  intros H. apply G in H. exact H.
Qed.

End CaptureFacts.

(* ================================================================= *)
(** * The sign of a rounded value *)

Module SignFacts.
Import Float FloatFacts.
Local Open Scope Z_scope.

(** the sign goes through a rounding untouched *)
Lemma binary_round_aux_opp s m e l :
  binary_round_aux prec emax (negb s) m e l
  = SFopp (binary_round_aux prec emax s m e l).
Proof.
  unfold binary_round_aux.
  destruct (shr_fexp prec emax m e l) as [mrs1 e1].
  destruct (shr_fexp prec emax _ e1 loc_Exact) as [mrs2 e2].
  destruct (shr_m mrs2); try reflexivity.
  destruct (e2 <=? emax - prec); reflexivity.
Qed.

Lemma binary_round_opp s p e :
  binary_round prec emax (negb s) p e = SFopp (binary_round prec emax s p e).
Proof.
  unfold binary_round.
  destruct (shl_align p e _) as [mz ez]. apply binary_round_aux_opp.
Qed.

Lemma of_decimal_opp s m e :
  of_decimal (negb s) m e = opp (of_decimal s m e).
Proof.
  unfold of_decimal, opp. destruct m as [|p|p]; try reflexivity.
  destruct (0 <=? e) eqn:E.
  - apply Z.leb_le in E.
    assert (P : 0 < 10 ^ e) by (apply Z.pow_pos_nonneg; lia).
    destruct (10 ^ e) as [|q|q]; try lia.
    destruct s; cbn [negb Z.mul binary_normalize].
    + apply (binary_round_opp true).
    + apply (binary_round_opp false).
  - unfold SFdiv.
    destruct (SFdiv_core_binary prec emax (Z.pos p) 0
                (Z.pos (Z.to_pos (10 ^ (- e)))) 0) as [[q eq] lq].
    rewrite !xorb_false_r. apply binary_round_aux_opp.
Qed.

(** a float that is not negative: [+0], a positive number, or [+inf];
    never [nan] *)
Definition nonneg (f : float) : bool :=
  match f with
  | S754_zero false | S754_finite false _ _ | S754_infinity false => true
  | _ => false
  end.

Lemma binary_round_aux_nonneg m e l :
  0 <= m -> nonneg (binary_round_aux prec emax false m e l) = true.
Proof.
  intros H. unfold binary_round_aux.
  destruct (shr_fexp_cases m e l H) as (mrs1 & E1 & M1 & _ & _).
  rewrite E1.
  set (e1 := e + Z.max (fexp prec emax (Zdigits2 m + e) - e) 0) in *.
  set (m1 := round_nearest_even (shr_m mrs1) (loc_of_shr_record mrs1)).
  assert (H1 : 0 <= m1).
  { subst m1.
    destruct (round_nearest_even_bounds (shr_m mrs1) (loc_of_shr_record mrs1))
      as [B _].
    assert (0 <= shr_m mrs1).
    { rewrite M1. apply Z.div_pos; [lia|]. apply Z.pow_pos_nonneg; lia. }
    lia. }
  destruct (shr_fexp_cases m1 e1 loc_Exact H1) as (mrs2 & E2 & M2 & _ & _).
  rewrite E2.
  assert (H2 : 0 <= shr_m mrs2).
  { rewrite M2. apply Z.div_pos; [lia|]. apply Z.pow_pos_nonneg; lia. }
  destruct (shr_m mrs2); try lia; try reflexivity.
  destruct (_ <=? _); reflexivity.
Qed.

Lemma of_decimal_nonneg n : nonneg (of_decimal false n 0) = true.
Proof.
  unfold of_decimal. destruct n as [|p|p]; try reflexivity.
  cbn [Z.leb Z.compare]. change (10 ^ 0) with 1. rewrite Z.mul_1_r.
  cbn [binary_normalize]. unfold binary_round.
  destruct (shl_align p 0 _) as [mz ez]. apply binary_round_aux_nonneg. lia.
Qed.

(** such a float compares so with zero *)
Lemma nonneg_le f : nonneg f = true -> Num.le (Num.NInt 0) (Num.NFloat f) = true.
Proof.
  destruct f as [[|]|[|]| |[|] m e]; cbn [nonneg]; try discriminate; intros _;
    try reflexivity.
  unfold Num.le, Num.compare, Num.view, view, cmp, cmp_fin.
  rewrite Z.mul_0_l.
  assert (0 < 2 ^ (e - Z.min 0 e)) by (apply Z.pow_pos_nonneg; lia).
  destruct (Z.compare_spec 0 (Z.pos m * 2 ^ (e - Z.min 0 e))); auto. lia.
Qed.

Lemma opp_nonneg_le f :
  nonneg f = true -> Num.le (Num.NFloat (opp f)) (Num.NInt 0) = true.
Proof.
  destruct f as [[|]|[|]| |[|] m e]; cbn [nonneg]; try discriminate; intros _;
    try reflexivity.
  unfold Num.le, Num.compare, Num.view, view, cmp, cmp_fin, opp, SFopp.
  cbn [negb]. rewrite Z.mul_0_l.
  assert (0 < 2 ^ (e - Z.min e 0)) by (apply Z.pow_pos_nonneg; lia).
  destruct (Z.compare_spec (Z.neg m * 2 ^ (e - Z.min e 0)) 0); auto. lia.
Qed.

End SignFacts.

(* ================================================================= *)
(** * The number an account locator captures *)

Module NumberFacts.
Import Re ReFacts CaptureFacts Float FloatParse Populater Locators.
Import FormatFacts ParseFacts NormalizerFacts SignFacts.
Local Open Scope Z_scope.

Definition digit_run : regex := Cat Digit (Star Digit).

(** the group of every account locator: [\d+(?:,\d+)*] *)
Definition number_body : regex :=
  Cat digit_run (Star (Cat (Lit ",") digit_run)).

Definition digit_or_comma (c : ascii) : bool :=
  Chars.is_digit c || Ascii.eqb c ",".

(** a pattern made of digits and commas only *)
Fixpoint digits_commas (r : regex) : bool :=
  match r with
  | Eps | Digit => true
  | Lit c => Ascii.eqb c ","
  | Cat a b | Alt a b => digits_commas a && digits_commas b
  | Star a | Group _ a => digits_commas a
  | _ => false
  end.

Definition regex_eq_dec : forall a b : regex, {a = b} + {a <> b}.
Proof.
  decide equality; try apply Nat.eq_dec; try apply ascii_dec;
    try apply bool_dec.
  apply list_eq_dec. decide equality; apply ascii_dec.
Defined.

(** the pattern compiles and its group 1 is the number *)
Definition captures_number (pattern : string) : bool :=
  match ReParse.compile pattern with
  | Some r =>
      has_group1 r && sets_group1 r
      && if list_eq_dec regex_eq_dec (group1_bodies r) [number_body]
         then true else false
  | None => false
  end.

(** with or without [IGNORECASE], a comma is matched by a comma only *)
Lemma comma_only fl c : lit_matches fl "," c = true -> c = ","%char.
Proof.
  unfold lit_matches. destruct (ignorecase fl);
    destruct c as [b0 b1 b2 b3 b4 b5 b6 b7];
    destruct b0, b1, b2, b3, b4, b5, b6, b7; vm_compute;
    intros H; try discriminate H; reflexivity.
Qed.

Lemma only_digits_commas fl r w :
  matches fl r w -> digits_commas r = true -> forallb digit_or_comma w = true.
Proof.
  induction 1; cbn [digits_commas]; intros D; try discriminate D;
    try reflexivity.
  - apply Ascii.eqb_eq in D. subst x. apply comma_only in H. subst c.
    reflexivity.
  - cbn. unfold digit_or_comma. rewrite H. reflexivity.
  - apply andb_prop in D. destruct D as [D1 D2].
    rewrite forallb_app, IHmatches1, IHmatches2; auto.
  - apply andb_prop in D. destruct D as [D1 D2]. auto.
  - apply andb_prop in D. destruct D as [D1 D2]. auto.
  - rewrite forallb_app, IHmatches1, IHmatches2; auto.
  - auto.
Qed.

Lemma number_begins_with_digit fl w :
  matches fl number_body w ->
  exists c rest, w = c :: rest /\ Chars.is_digit c = true.
Proof.
  intros M.
  inversion M as [| | | | | |r1 r2 s1 s2 M1 M2| | | | |]; subst.
  inversion M1 as [| | | | | |r1 r2 s3 s4 M3 M4| | | | |]; subst.
  inversion M3; subst. cbn. eauto.
Qed.

Lemma strip_digits_commas w :
  forallb digit_or_comma w = true ->
  forallb Chars.is_digit (strip_separators w) = true.
Proof.
  induction w as [|c w IH]; cbn [forallb]; intros H; [reflexivity|].
  apply andb_prop in H. destruct H as [H1 H2]. unfold digit_or_comma in H1.
  destruct (Chars.is_digit c) eqn:D.
  - rewrite strip_cons_digit by exact D. cbn [forallb]. rewrite D. auto.
  - cbn [orb] in H1. apply Ascii.eqb_eq in H1. subst c.
    rewrite strip_cons_comma. auto.
Qed.

Lemma digit_value_nonneg c : Chars.is_digit c = true -> 0 <= Chars.digit_value c.
Proof.
  unfold Chars.is_digit, Chars.in_range, Chars.digit_value. intros H.
  apply andb_prop in H. destruct H as [H _]. apply Nat.leb_le in H. lia.
Qed.

Lemma digits_value_nonneg ds :
  forallb Chars.is_digit ds = true -> 0 <= digits_value ds.
Proof.
  unfold digits_value.
  assert (G : forall acc, 0 <= acc -> forallb Chars.is_digit ds = true ->
                0 <= fold_left (fun a c => 10 * a + Chars.digit_value c) ds acc).
  { induction ds as [|c ds IH]; intros acc Ha H; cbn [fold_left]; auto.
    cbn [forallb] in H. apply andb_prop in H. destruct H as [H1 H2].
    apply IH; auto. pose proof (digit_value_nonneg c H1). lia. }
  apply G. lia.
Qed.

(** The normalizer on a captured number: the separators go, what is
    left is a run of digits, and the result is the double nearest to
    the integer they spell. *)
Lemma clean_number_of_number fl w :
  matches fl number_body w ->
  let ds := strip_separators w in
  forallb digit_or_comma w = true
  /\ forallb Chars.is_digit ds = true
  /\ 0 <= digits_value ds
  /\ clean_number (Some (l2s w)) = PFloat (of_decimal false (digits_value ds) 0).
Proof.
  intros M ds.
  assert (DC : forallb digit_or_comma w = true).
  { apply (only_digits_commas fl number_body); auto. }
  pose proof (strip_digits_commas w DC) as D. fold ds in D.
  destruct (number_begins_with_digit fl w M) as (c & rest & E & Dc).
  assert (N : ds <> []).
  { subst ds. rewrite E, strip_cons_digit by exact Dc. discriminate. }
  split; [exact DC|]. split; [exact D|].
  split; [apply digits_value_nonneg; exact D|].
  rewrite clean_number_nonempty by (rewrite E; discriminate).
  assert (C : cleaned_literal (l2s w) = ds).
  { unfold cleaned_literal. rewrite s2l_l2s. fold ds.
    subst ds. rewrite E, strip_cons_digit by exact Dc.
    apply digit_facts in Dc. destruct Dc as (_ & _ & Dc & _).
    unfold startswith. rewrite Dc. reflexivity. }
  rewrite C, py_float_digits by auto. reflexivity.
Qed.

Lemma captures_number_spec pattern :
  captures_number pattern = true ->
  exists r, ReParse.compile pattern = Some r
            /\ has_group1 r = true /\ sets_group1 r = true
            /\ group1_bodies r = [number_body].
Proof.
  unfold captures_number. destruct (ReParse.compile pattern) as [r|];
    [|discriminate].
  intros H. apply andb_prop in H. destruct H as [H1 H2].
  apply andb_prop in H1. destruct H1 as [H0 H1].
  destruct (list_eq_dec regex_eq_dec (group1_bodies r) [number_body]);
    [|discriminate].
  exists r. auto.
Qed.

Lemma locators_capture_number e :
  In e unconditional_locators -> captures_number (loc_pattern e) = true.
Proof.
  assert (F : forallb (fun e => captures_number (loc_pattern e))
                      unconditional_locators = true)
    by (vm_compute; reflexivity).
  rewrite forallb_forall in F. apply F.
Qed.

Lemma treasury_captures_number : captures_number treasury_pattern = true.
Proof. vm_compute. reflexivity. Qed.

(** group 1 of a match of such a pattern *)
Lemma captured_number fl r text m :
  group1_bodies r = [number_body] ->
  search_re fl r text = Some m ->
  match m_group1 m with
  | Some g => matches fl number_body g
  | None => True
  end.
Proof.
  intros B S. apply search_sound in S.
  destruct S as (_ & _ & _ & _ & _ & C).
  destruct (m_group1 m) as [g|]; auto.
  destruct C as (body & I & M). rewrite B in I.
  destruct I as [<-|[]]. exact M.
Qed.

End NumberFacts.

(* ================================================================= *)
(** * The normalizer: separators and accounting parentheses *)

Module NormalizerProps.
Import Re Float FloatParse Populater.
Import FormatFacts ParseFacts NormalizerFacts SignFacts.
Local Open Scope Z_scope.

(** what [float] does with a literal once its sign is taken *)
Definition read_unsigned (neg : bool) (body : chars) : option float :=
  let low := lower_all body in
  if chars_eqb low (s2l "inf") || chars_eqb low (s2l "infinity")
  then Some (S754_infinity neg)
  else if chars_eqb low (s2l "nan") then Some S754_nan
  else
    let '(mant, expo) := split_first is_e body in
    match parse_mantissa mant, parse_exponent expo with
    | Some (d, fd), Some e =>
        Some (of_decimal neg (digits_value (d ++ fd))
                         (e - Z.of_nat (List.length fd)))
    | _, _ => None
    end.

(** a cleaned literal with no sign and no opening parenthesis in front *)
Definition unsigned (c : chars) : bool :=
  match c with
  | x :: _ => negb (Ascii.eqb x "(" || Ascii.eqb x "+" || Ascii.eqb x "-")
  | [] => true
  end.

Definition no_space (c : chars) : bool :=
  forallb (fun x => negb (Chars.is_space x)) c.

Lemma py_float_read s :
  py_float s
  = let '(neg, body) := take_sign (float_strip (s2l s)) in
    read_unsigned neg body.
Proof. reflexivity. Qed.

Lemma read_unsigned_opp body :
  read_unsigned true body = option_map opp (read_unsigned false body).
Proof.
  unfold read_unsigned. cbv zeta.
  destruct (chars_eqb _ (s2l "inf") || chars_eqb _ (s2l "infinity"));
    [reflexivity|].
  destruct (chars_eqb _ (s2l "nan")); [reflexivity|].
  destruct (split_first is_e body) as [mant expo].
  destruct (parse_mantissa mant) as [[d fd]|]; [|reflexivity].
  destruct (parse_exponent expo) as [e|]; [|reflexivity].
  cbn [option_map]. f_equal. apply (of_decimal_opp false).
Qed.

(** the normalizer in one piece: also on the empty literal, for which
    the function returns early, the result is what [float] makes of the
    cleaned literal *)
Lemma clean_number_cleaned v :
  clean_number (Some v)
  = match py_float (l2s (cleaned_literal v)) with
    | Some f => PFloat f
    | None => PInt 0
    end.
Proof. destruct v; [vm_compute; reflexivity|reflexivity]. Qed.

Lemma strip_separators_no_space s : no_space (strip_separators s) = true.
Proof.
  unfold no_space, strip_separators. apply forallb_forall. intros x I.
  apply filter_In in I. destruct I as [_ I].
  apply negb_true_iff in I. apply negb_true_iff.
  destruct (Chars.is_space x) eqn:E; [|reflexivity].
  unfold set_matches, items_have, comma_or_space in I. cbn in I.
  rewrite E in I. rewrite orb_true_r in I. discriminate.
Qed.

Lemma no_space_head c : no_space c = true -> head_not_space c.
Proof.
  destruct c as [|x c]; cbn; auto. intros H.
  apply andb_prop in H. destruct H as [H _]. apply negb_true_iff in H. exact H.
Qed.

Lemma no_space_rev c : no_space (rev c) = no_space c.
Proof. apply forallb_rev. Qed.


Lemma float_strip_no_space c : no_space c = true -> float_strip c = c.
Proof.
  intros H. apply float_strip_id.
  - apply no_space_head. exact H.
  - apply no_space_head. rewrite no_space_rev. exact H.
Qed.

(** [float] on a literal with a minus sign put in front *)
Lemma py_float_minus c :
  no_space c = true -> unsigned c = true ->
  py_float (l2s ("-"%char :: c)) = option_map opp (py_float (l2s c)).
Proof.
  intros S U. rewrite !py_float_read, !s2l_l2s.
  rewrite (float_strip_no_space c S).
  rewrite (float_strip_no_space ("-"%char :: c)) by (cbn; exact S).
  assert (T : take_sign c = (false, c)).
  { destruct c as [|x c]; [reflexivity|]. cbn in U.
    apply negb_true_iff in U. apply orb_false_iff in U. destruct U as [U Um].
    apply orb_false_iff in U. destruct U as [_ Up].
    unfold take_sign. rewrite Um, Up. reflexivity. }
  rewrite T. change (take_sign ("-"%char :: c)) with (true, c).
  apply read_unsigned_opp.
Qed.

Lemma strip_separators_wrapped v :
  strip_separators (s2l ("(" ++ v ++ ")")%string)
  = "("%char :: strip_separators (s2l v) ++ [")"%char].
Proof.
  change (s2l ("(" ++ v ++ ")")%string)
    with ("("%char :: s2l (v ++ ")")%string).
  rewrite s2l_app. unfold strip_separators at 1. cbn [filter].
  change (negb (set_matches no_flags false comma_or_space "("%char)) with true.
  cbv iota. rewrite filter_app. reflexivity.
Qed.

(** X1. Accounting parentheses negate: for every literal that, once
    its separators are dropped, begins with neither a sign nor an
    opening parenthesis, the normalizer gives on the literal wrapped in
    parentheses the negation of what it gives on the literal itself
    (decimals, exponents, [inf] and [nan] included; [0] for [0] when the
    literal does not parse). *)
Theorem parentheses_negate (v : string)
        (Hplain : unsigned (strip_separators (s2l v)) = true) :
  py_neg (clean_number (Some v))
  = Ok (clean_number (Some ("(" ++ v ++ ")")%string)).
Proof.
  rewrite !clean_number_cleaned.
  rewrite (cleaned_wrapped ("(" ++ v ++ ")")%string (strip_separators (s2l v)))
    by apply strip_separators_wrapped.
  assert (C : cleaned_literal v = strip_separators (s2l v)).
  { unfold cleaned_literal.
    destruct (strip_separators (s2l v)) as [|x c]; [reflexivity|].
    cbn in Hplain. apply negb_true_iff in Hplain.
    apply orb_false_iff in Hplain. destruct Hplain as [U _].
    apply orb_false_iff in U. destruct U as [U _].
    unfold startswith. rewrite U. reflexivity. }
  rewrite C, py_float_minus; auto using strip_separators_no_space.
  destruct (py_float (l2s (strip_separators (s2l v)))); reflexivity.
Qed.

Lemma parentheses_negate_witness :
  py_neg (clean_number (Some "1,250.75"))
  = Ok (clean_number (Some "(1,250.75)"))
  /\ clean_number (Some "(1,250.75)")
     = PFloat (opp (of_decimal false 125075 (-2)))
  /\ py_neg (clean_number (Some "12x")) = Ok (clean_number (Some "(12x)"))
  /\ clean_number (Some "(12x)") = PInt 0.
Proof.
  split; [apply (parentheses_negate "1,250.75"); reflexivity|].
  split; [vm_compute; reflexivity|].
  split; [apply (parentheses_negate "12x"); reflexivity|].
  vm_compute. reflexivity.
Defined.

End NormalizerProps.

(* ================================================================= *)
(** * The values the account locators give *)

Module ExtractorProps.
Import Re ReFacts CaptureFacts Float FloatParse Store Populater Locators.
Import FormatFacts ParseFacts NormalizerFacts SignFacts NumberFacts.
Import PopulaterFacts PopulateSpec.
Local Open Scope Z_scope.

Lemma search_number pattern fl text :
  captures_number pattern = true ->
  re_search pattern text fl = Ok None
  \/ exists m g,
       re_search pattern text fl = Ok (Some m)
       /\ m_group1 m = Some g
       /\ group1 pattern m = Ok (Some (l2s g))
       /\ matches fl number_body g.
Proof.
  intros C. apply captures_number_spec in C.
  destruct C as (r & Cr & G & S & B).
  rewrite (re_search_compiled pattern r text fl Cr).
  destruct (search_re fl r text) as [m|] eqn:E; [right|left; reflexivity].
  pose proof (scan_group1 fl r _ _ m S E) as N.
  pose proof (captured_number fl r text m B E) as M.
  destruct (m_group1 m) as [g|] eqn:Eg; [|congruence].
  exists m, g. split; [reflexivity|]. split; [exact Eg|].
  split; [|exact M]. unfold group1. rewrite Cr, G, Eg. reflexivity.
Qed.

(** X2. What an account locator extracts is a whole number: for each
    of the 32 unconditional statements and every text, the value is the
    [int] [0] when the locator finds no match, and otherwise the double
    nearest to the integer spelled by the digits of group 1, which
    consists of digits and commas only. It is never negative, never
    [nan], and a fraction written after the digits is not read. *)
Theorem account_value_is_a_whole_number
        (text : string) (e : locator) (He : In e unconditional_locators) :
  (re_search (loc_pattern e) text IMS = Ok None
   /\ extract_value_from_text text (loc_pattern e) = Ok (PInt 0))
  \/ (exists m g,
        re_search (loc_pattern e) text IMS = Ok (Some m)
        /\ m_group1 m = Some g
        /\ forallb digit_or_comma g = true
        /\ 0 <= digits_value (strip_separators g)
        /\ extract_value_from_text text (loc_pattern e)
           = Ok (PFloat (of_decimal false (digits_value (strip_separators g)) 0))
        /\ nonneg (of_decimal false (digits_value (strip_separators g)) 0) = true
        /\ Num.le (Num.NInt 0)
                  (Num.NFloat (of_decimal false
                                 (digits_value (strip_separators g)) 0)) = true).
Proof.
  destruct (search_number (loc_pattern e) IMS text (locators_capture_number e He))
    as [N|(m & g & S & G & G1 & M)].
  - left. split; [exact N|]. unfold extract_value_from_text. rewrite N.
    reflexivity.
  - right. exists m, g.
    destruct (clean_number_of_number IMS g M) as (DC & D & V & C).
    split; [exact S|]. split; [exact G|]. split; [exact DC|].
    split; [exact V|]. split.
    + unfold extract_value_from_text. rewrite S. cbn [rbind]. rewrite G1.
      cbn [rbind]. rewrite C. reflexivity.
    + split; [apply of_decimal_nonneg|].
      apply nonneg_le. apply of_decimal_nonneg.
Qed.

Lemma account_value_is_a_whole_number_witness :
  extract_value_from_text "1010 Checking 1,250.75
1020 Savings -300"
    "1010\s+Checking\s+(\d+(?:,\d+)*)"
  = Ok (PFloat (of_decimal false 1250 0))
  /\ extract_value_from_text "1010 Checking 1,250.75
1020 Savings -300"
       "1020\s+Savings\s+(\d+(?:,\d+)*)"
     = Ok (PInt 0).
Proof.
  split.
  - destruct (account_value_is_a_whole_number
                "1010 Checking 1,250.75
1020 Savings -300"
                (cash, "1010_checking"%string,
                 "1010\s+Checking\s+(\d+(?:,\d+)*)"%string))
      as [[N _]|(m & g & S & G & _ & _ & E & _)].
    + vm_compute. tauto.
    + vm_compute in N. discriminate N.
    + vm_compute in S. injection S as <-. cbn in G. injection G as <-.
      exact E.
  - destruct (account_value_is_a_whole_number
                "1010 Checking 1,250.75
1020 Savings -300"
                (cash, "1020_savings"%string,
                 "1020\s+Savings\s+(\d+(?:,\d+)*)"%string))
      as [[_ E]|(m & g & S & _)].
    + vm_compute. tauto.
    + exact E.
    + vm_compute in S. discriminate S.
Defined.

(** X3. The treasury-stock field is never positive: on a schema of the
    right shape and for every text, either the locator finds no match
    and the field is what the template held, or the field is the double
    nearest to [-n], [n] being the integer spelled by the digits between
    the parentheses (so [-0.0] for [(0)]). *)
Theorem treasury_stock_is_never_positive
        (text : string) (template : pyval) (h : store)
        (Hshape : well_shaped h template = true) :
  exists h',
    populate_balance_sheet text template h = Ok (PRef (List.length h), h')
    /\ ((re_search treasury_pattern text IGNORECASE = Ok None
         /\ lookup h' (PRef (List.length h)) treasury_path
            = lookup h template treasury_path)
        \/ exists m g,
             re_search treasury_pattern text IGNORECASE = Ok (Some m)
             /\ m_group1 m = Some g
             /\ forallb digit_or_comma g = true
             /\ 0 <= digits_value (strip_separators g)
             /\ lookup h' (PRef (List.length h)) treasury_path
                = Some (PFloat (of_decimal true
                                  (digits_value (strip_separators g)) 0))
             /\ Num.le (Num.NFloat (of_decimal true
                                      (digits_value (strip_separators g)) 0))
                       (Num.NInt 0) = true).
Proof.
  destruct (populate_spec text template h Hshape) as (h' & E & _ & T).
  exists h'. split; [exact E|].
  destruct (search_number treasury_pattern IGNORECASE text
              treasury_captures_number) as [N|(m & g & S & G & _ & M)].
  - left. split; [exact N|].
    rewrite (re_search_compiled _ _ text IGNORECASE treasury_compiles) in N.
    injection N as N. rewrite N in T. exact T.
  - right. exists m, g.
    rewrite (re_search_compiled _ _ text IGNORECASE treasury_compiles) in S.
    pose proof S as S'. injection S' as S'. rewrite S' in T.
    destruct T as (n & Cn & V). rewrite G in Cn. cbn [option_map] in Cn.
    destruct (clean_number_of_number IGNORECASE g M) as (DC & D & P & C).
    rewrite C in Cn. injection Cn as <-.
    split; [rewrite (re_search_compiled _ _ text IGNORECASE treasury_compiles);
            rewrite S'; reflexivity|].
    split; [exact G|]. split; [exact DC|]. split; [exact P|].
    change true with (negb false). rewrite of_decimal_opp.
    split; [exact V|]. apply opp_nonneg_le. apply of_decimal_nonneg.
Qed.

Lemma treasury_stock_is_never_positive_witness :
  exists h',
    populate_balance_sheet "3100 treasury stock (0)"
      (fst TreasuryClaims.loaded_zero_template)
      (snd TreasuryClaims.loaded_zero_template) = Ok (PRef 10%nat, h')
    /\ lookup h' (PRef 10%nat) treasury_path = Some (PFloat (S754_zero true)).
Proof.
  destruct (treasury_stock_is_never_positive "3100 treasury stock (0)"
              (fst TreasuryClaims.loaded_zero_template)
              (snd TreasuryClaims.loaded_zero_template))
    as (h' & E & [[N _]|(m & g & S & G & _ & _ & V & _)]).
  - vm_compute. reflexivity.
  - vm_compute in N. discriminate N.
  - exists h'. split; [exact E|].
    vm_compute in S. injection S as <-. cbn in G. injection G as <-.
    exact V.
Defined.

End ExtractorProps.

(* ================================================================= *)
(** * The balance validator on malformed input *)

Module ValidatorProps.
Import Num Validator BalanceSpec.

(** the reported data is a mapping, and so is each of the three
    sections it has *)
Definition sections_are_mappings (j : json) : bool :=
  match j with
  | JDict _ =>
      section_ok j "assets" && section_ok j "liabilities"
      && section_ok j "equity"
  | _ => false
  end.

Lemma operand_raise j e : operand j = Raise e -> e = TypeError.
Proof. unfold operand. destruct (json_num j); congruence. Qed.

Lemma to_float_raise n e : to_float n = Raise e -> e = OverflowError.
Proof.
  unfold to_float. destruct n as [z|f]; [|discriminate].
  destruct (Float.is_infinite (Float.of_Z z)); congruence.
Qed.

Lemma lift2_raise fi ff a b e : lift2 fi ff a b = Raise e -> e = OverflowError.
Proof.
  unfold lift2. intros H.
  assert (G : rbind (to_float a) (fun fa =>
              rbind (to_float b) (fun fb => Ok (NFloat (ff fa fb)))) = Raise e ->
              e = OverflowError).
  { clear H. intros H. destruct (to_float a) as [fa|e1] eqn:E1; cbn [rbind] in H.
    - destruct (to_float b) as [fb|e2] eqn:E2; cbn [rbind] in H;
        [discriminate|].
      injection H as <-. apply (to_float_raise _ _ E2).
    - injection H as <-. apply (to_float_raise _ _ E1). }
  destruct a as [x|fa], b as [y|fb]; try discriminate; apply G; exact H.
Qed.

(** a section as the validator takes it: the empty mapping when the
    data does not have it *)
Definition section (d : list (string * json)) (k : string) : json :=
  match Dict.get k d with Some v => v | None => JDict [] end.

Lemma section_ok_section d k :
  section_ok (JDict d) k
  = match section d k with JDict _ => true | _ => false end.
Proof.
  unfold section_ok, section. cbn [json_at].
  destruct (Dict.get k d) as [v|]; reflexivity.
Qed.

Lemma get_total v key :
  match v with
  | JDict s =>
      get_default v key (JInt 0)
      = Ok (match Dict.get key s with Some x => x | None => JInt 0 end)
  | _ => get_default v key (JInt 0) = Raise AttributeError
  end.
Proof. destruct v; reflexivity. Qed.

(** X4. Which input makes the validator fail, and how: it raises
    [AttributeError] exactly when the data is not a mapping or one of
    the sections [assets], [liabilities], [equity] is there and is not a
    mapping (an absent section counts as empty); any other failure is a
    [TypeError] or an [OverflowError] of the arithmetic, never a
    [KeyError]. *)
Theorem validate_attribute_error_iff (j : json) :
  (validate_balance_sheet j = Raise AttributeError
   <-> sections_are_mappings j = false)
  /\ (forall e, validate_balance_sheet j = Raise e ->
        e = AttributeError \/ e = TypeError \/ e = OverflowError).
Proof.
  destruct j as [ |b|n|s|l|d];
    try (split; [split; reflexivity|]; intros e H; injection H as <-; auto).
  unfold sections_are_mappings. rewrite !section_ok_section.
  unfold validate_balance_sheet.
  change (get_default (JDict d) "assets" (JDict [])) with (Ok (section d "assets")).
  change (get_default (JDict d) "liabilities" (JDict []))
    with (Ok (section d "liabilities")).
  change (get_default (JDict d) "equity" (JDict [])) with (Ok (section d "equity")).
  cbn [rbind].
  pose proof (get_total (section d "assets") "total_assets") as Ga.
  destruct (section d "assets") as [ | | | | |sa];
    try (rewrite Ga; cbn [rbind andb];
         split; [split; reflexivity|]; intros e H; injection H as <-; auto).
  rewrite Ga. cbn [rbind andb]. clear Ga.
  pose proof (get_total (section d "liabilities") "total_liabilities") as Gl.
  destruct (section d "liabilities") as [ | | | | |sl];
    try (rewrite Gl; cbn [rbind andb];
         split; [split; reflexivity|]; intros e H; injection H as <-; auto).
  rewrite Gl. cbn [rbind andb]. clear Gl.
  pose proof (get_total (section d "equity") "total_equity") as Ge.
  destruct (section d "equity") as [ | | | | |se];
    try (rewrite Ge; cbn [rbind andb];
         split; [split; reflexivity|]; intros e H; injection H as <-; auto).
  rewrite Ge. cbn [rbind andb get_default]. clear Ge.
  set (ta := match Dict.get "total_assets" sa with Some x => x | None => JInt 0 end).
  set (tl := match Dict.get "total_liabilities" sl with
             | Some x => x | None => JInt 0 end).
  set (te := match Dict.get "total_equity" se with Some x => x | None => JInt 0 end).
  set (st := match Dict.get "total_liabilities_and_equity" d with
             | Some x => x | None => JInt 0 end).
  assert (G : forall e, rbind (operand tl) (fun tl0 =>
               rbind (operand te) (fun te0 =>
               rbind (add tl0 te0) (fun calculated_total =>
               rbind (operand ta) (fun ta0 =>
               rbind (sub ta0 calculated_total) (fun d1 =>
               rbind (operand st) (fun st0 =>
               rbind (sub ta0 st0) (fun d2 =>
               Ok (Validation ta0 tl0 te0 calculated_total st0 (abs d1) (abs d2)
                     (lt (abs d1) one_point_zero)
                     (lt (abs d2) one_point_zero))))))))) = Raise e ->
             e = TypeError \/ e = OverflowError).
  { intros e.
    destruct (operand tl) as [tl0|e1] eqn:E1; cbn [rbind];
      [|intros H; injection H as <-; left; apply (operand_raise _ _ E1)].
    destruct (operand te) as [te0|e2] eqn:E2; cbn [rbind];
      [|intros H; injection H as <-; left; apply (operand_raise _ _ E2)].
    destruct (add tl0 te0) as [c|e3] eqn:E3; cbn [rbind];
      [|intros H; injection H as <-; right; apply (lift2_raise _ _ _ _ _ E3)].
    destruct (operand ta) as [ta0|e4] eqn:E4; cbn [rbind];
      [|intros H; injection H as <-; left; apply (operand_raise _ _ E4)].
    destruct (sub ta0 c) as [d1|e5] eqn:E5; cbn [rbind];
      [|intros H; injection H as <-; right; apply (lift2_raise _ _ _ _ _ E5)].
    destruct (operand st) as [st0|e6] eqn:E6; cbn [rbind];
      [|intros H; injection H as <-; left; apply (operand_raise _ _ E6)].
    destruct (sub ta0 st0) as [d2|e7] eqn:E7; cbn [rbind];
      [|intros H; injection H as <-; right; apply (lift2_raise _ _ _ _ _ E7)].
    discriminate. }
  split.
  - split; [|discriminate]. intros H. apply G in H.
    destruct H; discriminate.
  - intros e H. apply G in H. tauto.
Qed.

End ValidatorProps.

(* ================================================================= *)
(** * The rate of a full extraction *)

Module CoverageProps.
Import Float Num Validator CoverageSpec CoverageFacts RateFacts.
Local Open Scope Z_scope.

(** a positive integer divided by itself is [1.0] *)
Lemma div_pos_self p : div_pos p p = one.
Proof.
  unfold div_pos, div, SFdiv, SFdiv_core_binary.
  replace (Zdigits2 (Z.pos p) + 0 - (Zdigits2 (Z.pos p) + 0)) with 0 by lia.
  change (Z.min (fexp prec emax 0) (0 - 0)) with (-53).
  change (0 - 0 - -53) with 53.
  cbv iota beta.
  rewrite Z.shiftl_mul_pow2 by lia.
  assert (E : Z.div_eucl (Z.pos p * 2 ^ 53) (Z.pos p) = (2 ^ 53, 0)).
  { pose proof (Z_div_mod (Z.pos p * 2 ^ 53) (Z.pos p)) as DM.
    destruct (Z.div_eucl (Z.pos p * 2 ^ 53) (Z.pos p)) as [q r].
    destruct DM as [DM R]; [lia|].
    assert (q = 2 ^ 53) by nia. subst q. f_equal. lia. }
  rewrite E.
  assert (L : new_location (Z.pos p) 0 = loc_Exact).
  { unfold new_location, new_location_even, new_location_odd.
    destruct (Z.even (Z.pos p)); reflexivity. }
  rewrite L. vm_compute. reflexivity.
Qed.

Lemma count_result j r :
  count_extracted_fields j = Ok r ->
  let c := count_fields j "" (Counters 0 0 []) in
  extracted_fields r = extracted_count c
  /\ total_fields r = total_count c
  /\ missing_fields r = missing c.
Proof.
  unfold count_extracted_fields. cbv zeta.
  destruct (if (0 <? _)%nat then _ else _) as [rate|e]; cbn [rbind];
    [|discriminate].
  intros H. injection H as <-. cbn. auto.
Qed.

(** X5. A full extraction is reported as exactly [100.0]: when the
    schema has a numeric field and none is missing, the rate is the
    float [100.0], with no rounding error whatever the number of
    fields. *)
Theorem full_extraction_rate_is_100 (j : json) (r : coverage)
        (Hr : count_extracted_fields j = Ok r)
        (Hsome : (0 < total_fields r)%nat)
        (Hfull : missing_fields r = []) :
  extraction_rate r = NFloat hundred
  /\ extracted_fields r = total_fields r.
Proof.
  destruct (CoverageClaims.count_extracted_fields_returns j) as (S & _).
  destruct (count_result j r Hr) as (X & T & M).
  cbv zeta in S, X, T, M. rewrite T in Hsome. rewrite M in Hfull.
  rewrite Hfull in S. cbn [List.length] in S. rewrite Nat.add_0_r in S.
  split; [|congruence].
  unfold count_extracted_fields in Hr. rewrite S in Hr.
  destruct (total_count _) as [|t]; [lia|].
  cbn [Nat.ltb Nat.leb] in Hr. unfold of_nat in Hr.
  destruct (Z.of_nat (Datatypes.S t)) as [|p|p] eqn:Ep; try lia.
  assert (Q : truediv (NInt (Z.pos p)) (NInt (Z.pos p)) = Ok (NFloat one)).
  { unfold truediv. cbn [Z.ltb Z.compare Z.abs Z.to_pos].
    fold (div_pos p p). rewrite div_pos_self. reflexivity. }
  rewrite Q in Hr. cbn [rbind] in Hr.
  change (mul (NFloat one) (NInt 100)) with (Ok (NFloat hundred)) in Hr.
  cbn [rbind] in Hr. injection Hr as Hr. subst r. reflexivity.
Qed.

(** three numeric fields, none of them zero *)
Definition full_schema : json :=
  JDict [("cash", JInt 3);
         ("equity", JDict [("stock", JFloat one); ("paid", JBool true)])].

Lemma full_extraction_rate_is_100_witness :
  exists r,
    count_extracted_fields full_schema = Ok r
    /\ extraction_rate r = NFloat hundred
    /\ extracted_fields r = total_fields r.
Proof.
  destruct (count_extracted_fields full_schema) as [r|e] eqn:E;
    [|vm_compute in E; discriminate E].
  exists r. split; [reflexivity|].
  apply (full_extraction_rate_is_100 full_schema r E).
  - vm_compute in E. injection E as E. subst r. cbn. lia.
  - vm_compute in E. injection E as E. subst r. reflexivity.
Defined.

End CoverageProps.

(* ================================================================= *)
(** * What the populator reads from the text *)

Module TextReads.
Import Re ReFacts Store StoreFacts Populater Locators PopulaterFacts PopulateSpec.
Local Open Scope store_scope.

(** the string a header statement assigns, when its pattern matches *)
Definition header_value (fl : flags) (r : regex) (text : string)
  : option string :=
  match search_re fl r text with
  | Some m =>
      option_map (fun g => l2s (FloatParse.strip (s2l (l2s g)))) (m_group1 m)
  | None => None
  end.

Definition company_value (text : string) : option string :=
  header_value no_flags company_regex text.

Definition date_value (text : string) : option string :=
  header_value IGNORECASE date_regex text.

(** the number the treasury-stock statement assigns, when its pattern
    matches *)
Definition treasury_value (text : string) : option Num.num :=
  match search_re IGNORECASE treasury_regex text with
  | Some m =>
      option_map Num.neg
        (pyval_num (clean_number (option_map l2s (m_group1 m))))
  | None => None
  end.

(** the number the field extractor gives *)
Definition extracted_num (text pattern : string) : Num.num :=
  match extracted text pattern with
  | PNum n => n
  | _ => Num.NInt 0
  end.

(** ** The populator with what it reads given from outside *)

Definition assign (o : pyval) (key : string) (v : option pyval) : M unit :=
  match v with
  | Some x => setitem o key x
  | None => ret tt
  end.

Definition write (populated : pyval) (sections : list string) (key : string)
           (v : pyval) : M unit :=
  o <- getpath populated sections ;;
  setitem o key v.

Definition write_all {A} (populated : pyval) (E : string -> Num.num)
           (l : list locator) (k : M A) : M A :=
  fold_right
    (fun e acc =>
       write populated (loc_sections e) (loc_key e) (PNum (E (loc_pattern e))) ;;
       acc)
    k l.

Definition populate_with (company date : option string)
           (treasury : option Num.num) (E : string -> Num.num)
           (template : pyval) : M pyval :=
  populated <- dict_copy template ;;
  assign populated "company_name" (option_map PStr company) ;;
  assign populated "report_date" (option_map PStr date) ;;
  write_all populated E locators_before
    (match treasury with
     | Some n => write populated ["equity"] "3100_treasury_stock" (PNum n)
     | None => ret tt
     end ;;
     write_all populated E locators_after (ret populated)).

(** ** The schema of the template after a run *)

(** the pattern of the statement that writes a key *)
Definition pattern_of (key : string) : string :=
  match find (fun e => String.eqb (loc_key e) key) unconditional_locators with
  | Some e => loc_pattern e
  | None => ""
  end.

Definition new_header (text : string) (header : string -> string)
           (k : string) : string :=
  if String.eqb k "company_name" then
    match company_value text with Some s => s | None => header k end
  else if String.eqb k "report_date" then
    match date_value text with Some s => s | None => header k end
  else header k.

Definition new_leaf (text : string) (leaf : string -> Num.num)
           (k : string) : Num.num :=
  if String.eqb k "3100_treasury_stock" then
    match treasury_value text with Some n => n | None => leaf k end
  else extracted_num text (pattern_of k).

(** the leaves of the caller's template after the call: the one leaf
    at the top level is its own, the others are the result's *)
Definition shared_leaf (text : string) (leaf : string -> Num.num)
           (k : string) : Num.num :=
  if String.eqb k "total_liabilities_and_equity" then leaf k
  else new_leaf text leaf k.

End TextReads.

Module TextReadsFacts.
Import Re ReFacts Store StoreFacts Populater Locators PopulaterFacts PopulateSpec.
Import TextReads.
Local Open Scope store_scope.

Lemma bind_ext {A B} (m m' : M A) (f f' : A -> M B) h :
  m h = m' h -> (forall a h', f a h' = f' a h') ->
  bind m f h = bind m' f' h.
Proof.
  unfold bind. intros -> H. destruct (m' h) as [[a h']|e]; auto.
Qed.

Lemma extracted_is_num text pattern :
  pattern_ok pattern = true ->
  extracted text pattern = PNum (extracted_num text pattern).
Proof.
  unfold extracted_num, extracted, extract_value_from_text, pattern_ok,
    re_search, group1.
  destruct (ReParse.compile pattern) as [r|]; [|discriminate].
  intros G. cbn [rbind]. destruct (search_re IMS r text) as [m|]; [|reflexivity].
  rewrite G. cbn [rbind].
  destruct (clean_number_is_number (option_map l2s (m_group1 m))) as (n & ->).
  reflexivity.
Qed.

(** what the extractor leaves: the [int] [0] or a [float] *)
Lemma extracted_num_shape text pattern :
  BalanceSpec.is_extracted_value (JNum (extracted_num text pattern)) = true.
Proof.
  unfold extracted_num, extracted, extract_value_from_text, re_search, group1.
  destruct (ReParse.compile pattern) as [r|]; [|reflexivity].
  cbn [rbind]. destruct (search_re IMS r text) as [m|]; [|reflexivity].
  destruct (has_group1 r); [|reflexivity]. cbn [rbind].
  unfold clean_number.
  destruct (option_map l2s (m_group1 m)) as [[|c s]|]; try reflexivity.
  destruct (FloatParse.py_float _); reflexivity.
Qed.

Lemma set_header_reads pattern r fl key p text h :
  ReParse.compile pattern = Some r ->
  has_group1 r = true -> sets_group1 r = true ->
  set_header pattern fl key p text h
  = assign p key (option_map PStr (header_value fl r text)) h.
Proof.
  intros C G S. unfold set_header, bind, lift, header_value.
  rewrite (re_search_compiled pattern r text fl C).
  destruct (search_re fl r text) as [m|] eqn:E; [|reflexivity].
  unfold group1_strip, group1. rewrite C, G. cbn [rbind].
  pose proof (scan_group1 fl r _ _ m S E) as N.
  destruct (m_group1 m) as [g|]; [|congruence]. reflexivity.
Qed.

Lemma set_company_reads p text h :
  set_company p text h
  = assign p "company_name" (option_map PStr (company_value text)) h.
Proof.
  destruct header_groups as (G & S & _). rewrite set_company_eq.
  apply (set_header_reads company_pattern company_regex no_flags
           "company_name" p text h company_compiles G S).
Qed.

Lemma set_date_reads p text h :
  set_date p text h
  = assign p "report_date" (option_map PStr (date_value text)) h.
Proof.
  destruct header_groups as (_ & _ & G & S). rewrite set_date_eq.
  apply (set_header_reads date_pattern date_regex IGNORECASE
           "report_date" p text h date_compiles G S).
Qed.

Lemma set_treasury_reads p text h :
  set_treasury p text h
  = match treasury_value text with
    | Some n => write p ["equity"] "3100_treasury_stock" (PNum n)
    | None => ret tt
    end h.
Proof.
  unfold set_treasury, bind, lift, treasury_value.
  rewrite (re_search_compiled _ _ text IGNORECASE treasury_compiles).
  destruct (search_re IGNORECASE treasury_regex text) as [m|]; [|reflexivity].
  unfold group1. rewrite treasury_compiles, treasury_has_group1.
  destruct (clean_number_is_number (option_map l2s (m_group1 m))) as (n & ->).
  reflexivity.
Qed.

Lemma set_extracted_reads p secs key text pattern h :
  pattern_ok pattern = true ->
  set_extracted p secs key text pattern h
  = write p secs key (PNum (extracted_num text pattern)) h.
Proof.
  intros P. unfold set_extracted, write, bind, lift.
  rewrite (extract_ok text pattern P), (extracted_is_num text pattern P).
  reflexivity.
Qed.

Lemma run_locators_reads {A} p text (k k' : M A) : forall l h,
  (forall e, In e l -> pattern_ok (loc_pattern e) = true) ->
  (forall h', k h' = k' h') ->
  run_locators p text l k h = write_all p (extracted_num text) l k' h.
Proof.
  induction l as [|e l IH]; intros h P K; cbn [run_locators write_all fold_right].
  - apply K.
  - apply bind_ext.
    + apply set_extracted_reads. apply P. left. reflexivity.
    + intros [] h'. apply IH; auto. intros e' I. apply P. right. exact I.
Qed.

(** The function is the run of its statements on what they read from
    the text. *)
Lemma populate_reads text template h :
  populate_balance_sheet text template h
  = populate_with (company_value text) (date_value text)
                  (treasury_value text) (extracted_num text) template h.
Proof.
  rewrite populate_as_table. unfold populate_with.
  apply bind_ext; [reflexivity|]. intros p h1.
  apply bind_ext; [apply set_company_reads|]. intros [] h2.
  apply bind_ext; [apply set_date_reads|]. intros [] h3.
  apply run_locators_reads.
  - intros e I. apply locators_pattern_ok. unfold unconditional_locators.
    apply in_or_app. left. exact I.
  - intros h4. apply bind_ext; [apply set_treasury_reads|]. intros [] h5.
    apply run_locators_reads; [|reflexivity].
    intros e I. apply locators_pattern_ok. unfold unconditional_locators.
    apply in_or_app. right. exact I.
Qed.

Lemma schema_ext h1 h2 l1 l2 :
  (forall k, h1 k = h2 k) -> (forall k, l1 k = l2 k) ->
  Template.schema h1 l1 = Template.schema h2 l2.
Proof.
  intros H L. unfold Template.schema. rewrite !H, !L. reflexivity.
Qed.

(** Both schemas after a call on a template of the repository's
    shape, for every text. *)
Lemma populate_tree_on_schema text header leaf :
  Pipeline.populate_tree text (Template.schema header leaf)
  = Ok (Template.schema (new_header text header) (new_leaf text leaf),
        Template.schema header (shared_leaf text leaf)).
Proof.
  unfold Pipeline.populate_tree.
  destruct (load (Template.schema header leaf) []) as [t h] eqn:L.
  rewrite populate_reads.
  unfold shared_leaf, new_header, new_leaf.
  generalize (company_value text) (date_value text) (treasury_value text)
             (extracted_num text).
  intros c d tr E.
  vm_compute in L. injection L as <- <-.
  destruct c, d, tr; vm_compute; reflexivity.
Qed.

Lemma new_leaf_locator text leaf e :
  In e unconditional_locators ->
  new_leaf text leaf (loc_key e) = extracted_num text (loc_pattern e).
Proof.
  intros I.
  assert (F : forallb
                (fun e => negb (String.eqb (loc_key e) "3100_treasury_stock")
                          && String.eqb (pattern_of (loc_key e)) (loc_pattern e))
                unconditional_locators = true) by (vm_compute; reflexivity).
  rewrite forallb_forall in F. specialize (F e I).
  apply andb_prop in F. destruct F as [F1 F2].
  apply negb_true_iff in F1. apply String.eqb_eq in F2.
  unfold new_leaf. rewrite F1, F2. reflexivity.
Qed.

Lemma new_header_twice text header k :
  new_header text (new_header text header) k = new_header text header k.
Proof.
  unfold new_header.
  destruct (String.eqb k "company_name");
    [destruct (company_value text); reflexivity|].
  destruct (String.eqb k "report_date");
    [destruct (date_value text); reflexivity|].
  reflexivity.
Qed.

Lemma new_leaf_twice text leaf k :
  new_leaf text (new_leaf text leaf) k = new_leaf text leaf k.
Proof.
  unfold new_leaf.
  destruct (String.eqb k "3100_treasury_stock"); [|reflexivity].
  destruct (treasury_value text); reflexivity.
Qed.

End TextReadsFacts.

(* ================================================================= *)
(** * The populator on the repository's template, for every text *)

Module TemplateProps.
Import Num Re Store Populater Locators Pipeline Validator BalanceSpec.
Import TextReads TextReadsFacts.

(** X6. What a call does to both schemas, for every text, on a
    template of the repository's shape: the result is that shape with
    each of the 32 leaves at the extractor's value for its pattern, the
    treasury-stock leaf and the two header fields replaced when their
    patterns match and kept otherwise; the caller's template, after the
    call, holds the result's numbers at every nested leaf, and only its
    own entries at the top level (the header fields and
    [total_liabilities_and_equity]) are as they were. *)
Theorem populate_shares_the_nested_sections
        (text : string) (header : string -> string) (leaf : string -> num) :
  populated_of text (Template.schema header leaf)
  = Ok (Template.schema (new_header text header) (new_leaf text leaf))
  /\ template_after text (Template.schema header leaf)
     = Ok (Template.schema header (shared_leaf text leaf))
  /\ shared_leaf text leaf "total_liabilities_and_equity"
     = leaf "total_liabilities_and_equity"
  /\ (forall k, k <> "total_liabilities_and_equity"%string ->
                shared_leaf text leaf k = new_leaf text leaf k)
  /\ (forall e, In e unconditional_locators ->
                new_leaf text leaf (loc_key e)
                = extracted_num text (loc_pattern e)).
Proof.
  unfold populated_of, template_after. rewrite populate_tree_on_schema.
  split; [reflexivity|]. split; [reflexivity|]. split; [reflexivity|].
  split.
  - intros k N. unfold shared_leaf. apply String.eqb_neq in N. rewrite N.
    reflexivity.
  - intros e I. apply new_leaf_locator. exact I.
Qed.

(** X7. Populating is idempotent: populating the result again from the
    same text returns the result unchanged. *)
Theorem populate_is_idempotent
        (text : string) (header : string -> string) (leaf : string -> num) :
  exists p,
    populated_of text (Template.schema header leaf) = Ok p
    /\ populated_of text p = Ok p.
Proof.
  unfold populated_of. rewrite populate_tree_on_schema.
  exists (Template.schema (new_header text header) (new_leaf text leaf)).
  split; [reflexivity|]. rewrite populate_tree_on_schema.
  rewrite (schema_ext (new_header text (new_header text header))
                      (new_header text header)
                      (new_leaf text (new_leaf text leaf))
                      (new_leaf text leaf)
                      (new_header_twice text header)
                      (new_leaf_twice text leaf)).
  reflexivity.
Qed.

(** the arithmetic of the validator on four numbers *)
Definition check (ta tl te st : num) : result validation :=
  rbind (add tl te) (fun calculated_total =>
  rbind (sub ta calculated_total) (fun d1 =>
  rbind (sub ta st) (fun d2 =>
  Ok (Validation ta tl te calculated_total st (abs d1) (abs d2)
        (lt (abs d1) one_point_zero) (lt (abs d2) one_point_zero))))).

Lemma validate_schema header leaf :
  validate_balance_sheet (Template.schema header leaf)
  = check (leaf "total_assets") (leaf "total_liabilities")
          (leaf "total_equity") (leaf "total_liabilities_and_equity").
Proof. reflexivity. Qed.

Lemma check_extracted ta tl te st :
  is_extracted_value (JNum ta) = true -> is_extracted_value (JNum tl) = true ->
  is_extracted_value (JNum te) = true -> is_extracted_value (JNum st) = true ->
  exists r, check ta tl te st = Ok r.
Proof.
  intros A L E S. unfold check.
  destruct (BalanceFacts.extracted_add tl te L E) as (c & Ec & Xc). rewrite Ec.
  cbn [rbind].
  destruct (BalanceFacts.extracted_sub ta c A Xc) as (d1 & E1). rewrite E1.
  cbn [rbind].
  destruct (BalanceFacts.extracted_sub ta st A S) as (d2 & E2). rewrite E2.
  cbn [rbind]. eexists. reflexivity.
Qed.

Lemma totals_of_new_leaf text leaf :
  new_leaf text leaf "total_assets"
  = extracted_num text "Total\s+Assets\s+(\d+(?:,\d+)*)"
  /\ new_leaf text leaf "total_liabilities"
     = extracted_num text "Total\s+Liabilities\s+(\d+(?:,\d+)*)"
  /\ new_leaf text leaf "total_equity"
     = extracted_num text "Total\s+Equity\s+(\d+(?:,\d+)*)"
  /\ new_leaf text leaf "total_liabilities_and_equity"
     = extracted_num text
         "Total\s+Liabilities\s+and\s+Equity\s+(\d+(?:,\d+)*)".
Proof.
  split; [|split; [|split]].
  - apply (new_leaf_locator text leaf
             (["assets"], "total_assets",
              "Total\s+Assets\s+(\d+(?:,\d+)*)")%string).
    vm_compute. tauto.
  - apply (new_leaf_locator text leaf
             (["liabilities"], "total_liabilities",
              "Total\s+Liabilities\s+(\d+(?:,\d+)*)")%string).
    vm_compute. tauto.
  - apply (new_leaf_locator text leaf
             (["equity"], "total_equity",
              "Total\s+Equity\s+(\d+(?:,\d+)*)")%string).
    vm_compute. tauto.
  - apply (new_leaf_locator text leaf
             ([], "total_liabilities_and_equity",
              "Total\s+Liabilities\s+and\s+Equity\s+(\d+(?:,\d+)*)")%string).
    vm_compute. tauto.
Qed.

Lemma populated_of_schema text header leaf :
  populated_of text (Template.schema header leaf)
  = Ok (Template.schema (new_header text header) (new_leaf text leaf)).
Proof.
  unfold populated_of. rewrite populate_tree_on_schema. reflexivity.
Qed.

Lemma check_totals ta tl te st r :
  check ta tl te st = Ok r ->
  total_assets r = ta /\ total_liabilities r = tl /\ total_equity r = te
  /\ stated_total r = st.
Proof.
  unfold check. intros Er.
  destruct (add _ _) as [c|]; [|discriminate Er]. cbn [rbind] in Er.
  destruct (sub _ c) as [d1|]; [|discriminate Er]. cbn [rbind] in Er.
  destruct (sub _ _) as [d2|]; [|discriminate Er]. cbn [rbind] in Er.
  injection Er as Er. subst r. repeat split.
Qed.

(** the validator on a populated schema: its arithmetic on the four
    extracted totals *)
Lemma validate_populated text header leaf :
  validate_balance_sheet
    (Template.schema (new_header text header) (new_leaf text leaf))
  = check (extracted_num text "Total\s+Assets\s+(\d+(?:,\d+)*)")
          (extracted_num text "Total\s+Liabilities\s+(\d+(?:,\d+)*)")
          (extracted_num text "Total\s+Equity\s+(\d+(?:,\d+)*)")
          (extracted_num text
             "Total\s+Liabilities\s+and\s+Equity\s+(\d+(?:,\d+)*)").
Proof.
  destruct (totals_of_new_leaf text leaf) as (A & L & E & S).
  rewrite validate_schema, A, L, E, S. reflexivity.
Qed.

(** X8. Validation after population never fails and reads the text
    only: for every text and whatever the template holds, the validator
    returns a report on the populated schema; its four totals are the
    extractor's values for the four total lines, and the report is the
    one the text gives on the template of zeros. *)
Theorem validation_after_population
        (text : string) (header : string -> string) (leaf : string -> num) :
  exists p r,
    populated_of text (Template.schema header leaf) = Ok p
    /\ validate_balance_sheet p = Ok r
    /\ total_assets r = extracted_num text "Total\s+Assets\s+(\d+(?:,\d+)*)"
    /\ total_liabilities r
       = extracted_num text "Total\s+Liabilities\s+(\d+(?:,\d+)*)"
    /\ total_equity r = extracted_num text "Total\s+Equity\s+(\d+(?:,\d+)*)"
    /\ stated_total r
       = extracted_num text
           "Total\s+Liabilities\s+and\s+Equity\s+(\d+(?:,\d+)*)"
    /\ exists p0,
         populated_of text Template.zero_template = Ok p0
         /\ validate_balance_sheet p0 = Ok r.
Proof.
  destruct (check_extracted
              (extracted_num text "Total\s+Assets\s+(\d+(?:,\d+)*)")
              (extracted_num text "Total\s+Liabilities\s+(\d+(?:,\d+)*)")
              (extracted_num text "Total\s+Equity\s+(\d+(?:,\d+)*)")
              (extracted_num text
                 "Total\s+Liabilities\s+and\s+Equity\s+(\d+(?:,\d+)*)")
              (extracted_num_shape _ _) (extracted_num_shape _ _)
              (extracted_num_shape _ _) (extracted_num_shape _ _))
    as (r & Er).
  destruct (check_totals _ _ _ _ r Er) as (T1 & T2 & T3 & T4).
  exists (Template.schema (new_header text header) (new_leaf text leaf)), r.
  split; [apply populated_of_schema|].
  split; [rewrite validate_populated; exact Er|].
  split; [exact T1|]. split; [exact T2|]. split; [exact T3|]. split; [exact T4|].
  exists (Template.schema (new_header text Template.empty_header)
                          (new_leaf text Template.zero_leaf)).
  split; [apply populated_of_schema|].
  rewrite validate_populated. exact Er.
Qed.

End TemplateProps.

(* ================================================================= *)
(** * The header fields *)

Module HeaderFacts.
Import Re ReFacts CaptureFacts FloatParse Populater PopulateSpec ParseFacts.
Import FormatFacts TextReads.











(** ** [strip] *)






(** ** The two header values *)




End HeaderFacts.

(* ================================================================= *)
(** * More on the populator: header fields, coverage, a missing section *)

Module PopulatorProps.
Import Num Re Store StoreFacts Populater Locators Pipeline Validator.
Import BalanceSpec CoverageSpec CoverageFacts ParseFacts.
Import TextReads TextReadsFacts HeaderFacts TemplateProps PopulaterFacts.





(** ** Coverage of a populated schema *)

(** the numeric leaves of the template, in its order: sections and key *)
Definition leaf_places : list (list string * string) :=
  map (fun e => (loc_sections e, loc_key e)) locators_before
  ++ (["equity"], "3100_treasury_stock")
  :: map (fun e => (loc_sections e, loc_key e)) locators_after.

Definition place_path (pk : list string * string) : list string :=
  fst pk ++ [snd pk].

Definition leaf_entries (leaf : string -> num) : list (list string * json) :=
  map (fun pk => (place_path pk, JNum (leaf (snd pk)))) leaf_places.

Lemma counted_entries_schema header leaf :
  counted_entries (Template.schema header leaf) = leaf_entries leaf.
Proof. vm_compute. reflexivity. Qed.

Lemma NoDup_map_inj {A B} (f : A -> B) (l : list A) a b :
  NoDup (map f l) -> In a l -> In b l -> f a = f b -> a = b.
Proof.
  induction l as [|x l IH]; cbn; intros N Ia Ib E; [contradiction|].
  inversion N as [|y ys Ny Nl]; subst.
  destruct Ia as [<-|Ia], Ib as [<-|Ib]; auto.
  - exfalso. apply Ny. rewrite E. apply in_map. exact Ib.
  - exfalso. apply Ny. rewrite <- E. apply in_map. exact Ia.
Qed.

Lemma leaf_places_distinct :
  NoDup (map (fun pk => dotted (place_path pk)) leaf_places).
Proof. apply nodupb_spec. vm_compute. reflexivity. Qed.

Lemma missing_place leaf pk :
  In pk leaf_places ->
  In (dotted (place_path pk))
     (map (fun e => dotted (fst e))
          (filter (fun e => negb (is_nonzero (snd e))) (leaf_entries leaf)))
  <-> ne (leaf (snd pk)) zero = false.
Proof.
  intros I. rewrite in_map_iff. split.
  - intros (x & E & F). apply filter_In in F. destruct F as [F Z].
    unfold leaf_entries in F. apply in_map_iff in F.
    destruct F as (pk' & <- & I'). cbn [fst snd] in *.
    assert (pk' = pk).
    { apply (NoDup_map_inj (fun pk => dotted (place_path pk)) leaf_places);
        auto using leaf_places_distinct. }
    subst pk'. apply negb_true_iff in Z. exact Z.
  - intros Z. exists (place_path pk, JNum (leaf (snd pk))).
    split; [reflexivity|]. apply filter_In. split.
    + unfold leaf_entries. apply in_map_iff. exists pk. auto.
    + cbn [snd]. apply negb_true_iff. exact Z.
Qed.

Lemma locator_place e :
  In e unconditional_locators -> In (loc_sections e, loc_key e) leaf_places.
Proof.
  unfold unconditional_locators, leaf_places. intros I.
  apply in_app_or in I. apply in_or_app. destruct I as [I|I].
  - left. apply (in_map (fun e => (loc_sections e, loc_key e))). exact I.
  - right. right. apply (in_map (fun e => (loc_sections e, loc_key e))). exact I.
Qed.

(** X10. Coverage after population: for every text and whatever the
    template holds, the analyzer counts the same 33 fields on the
    populated schema, and an account is listed as missing exactly when
    the extractor's value for its pattern is zero (no match, or a
    matched amount of zero); the treasury-stock field is listed exactly
    when the value it ends with is zero. *)
Theorem coverage_after_population
        (text : string) (header : string -> string) (leaf : string -> num) :
  exists p r,
    populated_of text (Template.schema header leaf) = Ok p
    /\ count_extracted_fields p = Ok r
    /\ total_fields r = 33
    /\ (forall e, In e unconditional_locators ->
          In (dotted (loc_path e)) (missing_fields r)
          <-> ne (extracted_num text (loc_pattern e)) zero = false)
    /\ (In "equity.3100_treasury_stock"%string (missing_fields r)
        <-> ne (new_leaf text leaf "3100_treasury_stock") zero = false).
Proof.
  exists (Template.schema (new_header text header) (new_leaf text leaf)).
  destruct (CoverageClaims.count_extracted_fields_returns
              (Template.schema (new_header text header) (new_leaf text leaf)))
    as (_ & rate & E & _).
  destruct (count_fields_counters
              (Template.schema (new_header text header) (new_leaf text leaf)))
    as (T & _ & M).
  cbv zeta in E, T, M. rewrite counted_entries_schema in T, M.
  eexists. split; [apply populated_of_schema|]. split; [exact E|].
  cbn [total_fields missing_fields]. rewrite T, M.
  split; [reflexivity|]. split.
  - intros e I.
    rewrite <- (new_leaf_locator text leaf e I).
    apply (missing_place (new_leaf text leaf) (loc_sections e, loc_key e)).
    apply locator_place. exact I.
  - apply (missing_place (new_leaf text leaf)
             (["equity"], "3100_treasury_stock"%string)).
    unfold leaf_places. apply in_or_app. right. left. reflexivity.
Qed.

(** ** A template without its first section *)

Lemma assign_keeps a d h key v k :
  nth_error h a = Some d -> k <> key ->
  exists h' d',
    assign (PRef a) key v h = Ok (tt, h')
    /\ nth_error h' a = Some d' /\ Dict.get k d' = Dict.get k d.
Proof.
  intros E N. destruct v as [x|]; cbn [assign].
  - unfold setitem. rewrite E. eexists. eexists. split; [reflexivity|].
    split; [apply (nth_error_update_same a _ h d E)|].
    apply dict_get_set_other. exact N.
  - exists h, d. auto.
Qed.

(** X11. A template without an [assets] section: whatever the text,
    the call raises [KeyError] at its first account statement (the two
    header statements before it write to the copy and cannot fail). *)
Theorem missing_assets_section_raises
        (text : string) (a : addr) (d : dict) (h : store)
        (Hdict : nth_error h a = Some d)
        (Hmissing : Dict.get "assets" d = None) :
  populate_balance_sheet text (PRef a) h = Raise KeyError.
Proof.
  rewrite populate_reads. unfold populate_with, bind at 1, dict_copy.
  rewrite Hdict.
  assert (E0 : nth_error (h ++ [d]) (List.length h) = Some d).
  { rewrite nth_error_app2, Nat.sub_diag by lia. reflexivity. }
  destruct (assign_keeps (List.length h) d (h ++ [d]) "company_name"
              (option_map PStr (company_value text)) "assets" E0)
    as (h1 & d1 & A1 & E1 & G1); [discriminate|].
  unfold bind at 1. rewrite A1.
  destruct (assign_keeps (List.length h) d1 h1 "report_date"
              (option_map PStr (date_value text)) "assets" E1)
    as (h2 & d2 & A2 & E2 & G2); [discriminate|].
  unfold bind at 1. rewrite A2.
  unfold locators_before. cbn [write_all fold_right loc_sections fst].
  unfold bind at 1, write at 1, bind at 1, cash. cbn [getpath].
  unfold bind at 1, getitem. rewrite E2, G2, G1, Hmissing. reflexivity.
Qed.

Lemma missing_assets_section_raises_witness :
  populate_balance_sheet "Total Assets 100" (PRef 0)
    [[("company_name", PStr "")]] = Raise KeyError.
Proof.
  apply (missing_assets_section_raises "Total Assets 100" 0
           [("company_name", PStr "")] [[("company_name", PStr "")]]);
    reflexivity.
Defined.

End PopulatorProps.

(* ================================================================= *)
(** * Whole numbers in binary64: sums and differences are exact *)

Module ExactFacts.
Import Float FloatFacts SignFacts.
Local Open Scope Z_scope.

Lemma pow2_pos k : 0 <= k -> 0 < 2 ^ k.
Proof. intros H. apply Z.pow_pos_nonneg; lia. Qed.

(** the bit length is fixed by the powers of two around a number *)
Lemma Zdigits2_unique m d :
  0 < d -> 2 ^ (d - 1) <= m < 2 ^ d -> Zdigits2 m = d.
Proof.
  intros Hd [L U]. pose proof (pow2_pos (d - 1)) as P.
  destruct m as [|p|p]; try lia. cbn [Zdigits2].
  pose proof (digits2_pos_bounds p) as [L' U'].
  set (d' := Z.pos (digits2_pos p)) in *.
  destruct (Z.lt_trichotomy d' d) as [Lt|[Eq|Gt]]; auto.
  - assert (2 ^ d' <= 2 ^ (d - 1)) by (apply Z.pow_le_mono_r; lia). lia.
  - assert (2 ^ d <= 2 ^ (d' - 1)) by (apply Z.pow_le_mono_r; lia). lia.
Qed.

Lemma Zdigits2_shift z n :
  0 <= n -> Zdigits2 (Z.pos z * 2 ^ n) = Z.pos (digits2_pos z) + n.
Proof.
  intros Hn. apply Zdigits2_unique; [lia|].
  pose proof (digits2_pos_bounds z) as [L U].
  replace (Z.pos (digits2_pos z) + n - 1)
    with (Z.pos (digits2_pos z) - 1 + n) by lia.
  rewrite !Z.pow_add_r by lia.
  pose proof (pow2_pos n Hn). split; nia.
Qed.

(** the double of a positive integer below [2^53]: its 53-bit mantissa
    and its exponent *)
Definition canon_exp (z : positive) : Z := Z.pos (digits2_pos z) - 53.

Definition canon_mant (z : positive) : positive :=
  Z.to_pos (Z.pos z * 2 ^ (- canon_exp z)).

Definition canon (s : bool) (z : positive) : float :=
  S754_finite s (canon_mant z) (canon_exp z).

Lemma canon_exp_range z : Z.pos z < 2 ^ 53 -> -52 <= canon_exp z <= 0.
Proof.
  intros H. unfold canon_exp.
  assert (Z.pos (digits2_pos z) <= 53)
    by (apply (Zdigits2_le (Z.pos z) 53); lia).
  lia.
Qed.

Lemma canon_mant_value z :
  Z.pos z < 2 ^ 53 ->
  Z.pos (canon_mant z) = Z.pos z * 2 ^ (- canon_exp z).
Proof.
  intros H. pose proof (canon_exp_range z H) as R.
  unfold canon_mant. rewrite Z2Pos.id; [reflexivity|].
  pose proof (pow2_pos (- canon_exp z)). nia.
Qed.

(** An integer below [2^53] held with any exponent at or below the one
    of its double rounds to its double. *)
Lemma binary_round_aux_int s z E :
  Z.pos z < 2 ^ 53 -> E <= canon_exp z ->
  binary_round_aux prec emax s (Z.pos z * 2 ^ (- E)) E loc_Exact = canon s z.
Proof.
  intros Hz HE. pose proof (canon_exp_range z Hz) as Ht.
  unfold canon. rewrite <- (Pos2Z.id (canon_mant z)), (canon_mant_value z Hz).
  set (t := canon_exp z) in *.
  set (M := Z.pos z * 2 ^ (- E)).
  assert (PE : 0 < 2 ^ (- E)) by (apply pow2_pos; lia).
  assert (HM : 0 <= M) by (unfold M; nia).
  assert (DM : Zdigits2 M + E = t + 53).
  { unfold M. rewrite Zdigits2_shift by lia. unfold t, canon_exp. lia. }
  unfold binary_round_aux.
  destruct (shr_fexp_cases M E loc_Exact HM) as (mrs1 & E1 & M1 & _ & LX).
  rewrite DM, fexp_eq in E1, M1, LX.
  replace (Z.max (Z.max (t + 53 - 53) (-1074) - E) 0) with (t - E) in * by lia.
  rewrite E1. replace (E + (t - E)) with t by lia.
  assert (Pk : 0 < 2 ^ (t - E)) by (apply pow2_pos; lia).
  assert (Q : M = Z.pos z * 2 ^ (- t) * 2 ^ (t - E)).
  { unfold M. rewrite <- Z.mul_assoc, <- Z.pow_add_r by lia.
    f_equal. f_equal. lia. }
  assert (V1 : shr_m mrs1 = Z.pos z * 2 ^ (- t)).
  { rewrite M1, Q. apply Z.div_mul. lia. }
  assert (X1 : loc_of_shr_record mrs1 = loc_Exact).
  { apply LX; auto. rewrite Q. apply Z.mod_mul. lia. }
  rewrite X1, V1. cbn [round_nearest_even].
  set (m1 := Z.pos z * 2 ^ (- t)).
  assert (P1 : 0 < m1).
  { unfold m1. pose proof (pow2_pos (- t)). nia. }
  assert (D1 : Zdigits2 m1 + t = t + 53).
  { unfold m1. rewrite Zdigits2_shift by lia. unfold t, canon_exp. lia. }
  destruct (shr_fexp_cases m1 t loc_Exact) as (mrs2 & E2 & M2 & _ & _); [lia|].
  rewrite D1, fexp_eq in E2, M2.
  replace (Z.max (Z.max (t + 53 - 53) (-1074) - t) 0) with 0 in * by lia.
  rewrite E2. rewrite Z.pow_0_r, Z.div_1_r in M2. rewrite M2.
  destruct m1 as [|q|q]; try lia.
  replace (t + 0) with t by lia.
  replace (t <=? emax - prec) with true; [reflexivity|].
  symmetry. apply Z.leb_le. unfold emax, prec. lia.
Qed.

(** however the integer is held, [binary_round] gives its double *)
Lemma binary_round_int s p e z :
  e <= 0 -> Z.pos p = Z.pos z * 2 ^ (- e) -> Z.pos z < 2 ^ 53 ->
  binary_round prec emax s p e = canon s z.
Proof.
  intros He Hp Hz. pose proof (canon_exp_range z Hz) as Ht.
  unfold binary_round.
  assert (Dp : Z.pos (digits2_pos p) + e = canon_exp z + 53).
  { change (Z.pos (digits2_pos p)) with (Zdigits2 (Z.pos p)).
    rewrite Hp, Zdigits2_shift by lia. unfold canon_exp. lia. }
  rewrite Dp, fexp_eq.
  replace (Z.max (canon_exp z + 53 - 53) (-1074)) with (canon_exp z) by lia.
  unfold shl_align. destruct (canon_exp z - e) as [|k|k] eqn:K.
  - rewrite Hp. apply binary_round_aux_int; lia.
  - rewrite Hp. apply binary_round_aux_int; lia.
  - rewrite iter_xO_value, Hp.
    replace (Z.pos z * 2 ^ (- e) * 2 ^ Z.pos k)
      with (Z.pos z * 2 ^ (- canon_exp z)).
    + apply binary_round_aux_int; lia.
    + rewrite <- Z.mul_assoc, <- Z.pow_add_r by lia. f_equal. f_equal. lia.
Qed.

(** [float(n)] for a whole number [n] *)
Lemma of_Z_pos z : Z.pos z < 2 ^ 53 -> of_Z (Z.pos z) = canon false z.
Proof.
  intros H. unfold of_Z. cbn [binary_normalize].
  apply binary_round_int; try lia; try (simpl (2 ^ (- 0)); lia).
Qed.

Lemma of_Z_neg z : Z.pos z < 2 ^ 53 -> of_Z (Z.neg z) = canon true z.
Proof.
  intros H. unfold of_Z. cbn [binary_normalize].
  apply binary_round_int; try lia; try (simpl (2 ^ (- 0)); lia).
Qed.

(** a whole number held with a negative power of two normalizes to its
    double *)
Lemma normalize_int V e :
  e <= 0 -> Z.abs V < 2 ^ 53 ->
  binary_normalize prec emax (V * 2 ^ (- e)) e false = of_Z V.
Proof.
  intros He HV. pose proof (pow2_pos (- e)) as P.
  destruct V as [|v|v].
  - reflexivity.
  - rewrite of_Z_pos by lia.
    destruct (Z.pos v * 2 ^ (- e)) as [|q|q] eqn:Q; try nia.
    cbn [binary_normalize]. apply binary_round_int; lia.
  - rewrite of_Z_neg by lia.
    destruct (Z.neg v * 2 ^ (- e)) as [|q|q] eqn:Q; try nia.
    cbn [binary_normalize]. apply binary_round_int; try lia.
Qed.

Lemma shl_align_value m e e' :
  e' <= e -> Z.pos (fst (shl_align m e e')) = Z.pos m * 2 ^ (e - e').
Proof.
  intros H. unfold shl_align. destruct (e' - e) as [|k|k] eqn:K; cbn [fst].
  - replace (e - e') with 0 by lia. simpl (2 ^ 0). lia.
  - lia.
  - rewrite iter_xO_value. f_equal. f_equal. lia.
Qed.

Definition signed (s : bool) (z : positive) : Z := cond_Zopp s (Z.pos z).

Lemma aligned_canon s z ez :
  Z.pos z < 2 ^ 53 -> ez <= canon_exp z ->
  cond_Zopp s (Z.pos (fst (shl_align (canon_mant z) (canon_exp z) ez)))
  = signed s z * 2 ^ (- ez).
Proof.
  intros Hz He. pose proof (canon_exp_range z Hz) as R.
  rewrite shl_align_value by lia. rewrite (canon_mant_value z Hz).
  rewrite <- Z.mul_assoc, <- Z.pow_add_r by lia.
  replace (- canon_exp z + (canon_exp z - ez)) with (- ez) by lia.
  unfold signed. destruct s; cbn [cond_Zopp]; lia.
Qed.

(** The sum and the difference of two doubles of whole numbers are the
    doubles of the sum and of the difference. *)
Lemma add_canon sx x sy y :
  Z.pos x < 2 ^ 53 -> Z.pos y < 2 ^ 53 ->
  Z.abs (signed sx x + signed sy y) < 2 ^ 53 ->
  add (canon sx x) (canon sy y) = of_Z (signed sx x + signed sy y).
Proof.
  intros Hx Hy HV. unfold add, canon, SFadd.
  pose proof (canon_exp_range x Hx). pose proof (canon_exp_range y Hy).
  rewrite !aligned_canon by lia. rewrite <- Z.mul_add_distr_r.
  apply normalize_int; lia.
Qed.

Lemma sub_canon sx x sy y :
  Z.pos x < 2 ^ 53 -> Z.pos y < 2 ^ 53 ->
  Z.abs (signed sx x - signed sy y) < 2 ^ 53 ->
  sub (canon sx x) (canon sy y) = of_Z (signed sx x - signed sy y).
Proof.
  intros Hx Hy HV. unfold sub, canon, SFsub.
  pose proof (canon_exp_range x Hx). pose proof (canon_exp_range y Hy).
  rewrite !aligned_canon by lia. rewrite <- Z.mul_sub_distr_r.
  apply normalize_int; lia.
Qed.

Lemma of_Z_signed s z :
  Z.pos z < 2 ^ 53 -> of_Z (signed s z) = canon s z.
Proof.
  intros H. destruct s; [apply of_Z_neg|apply of_Z_pos]; exact H.
Qed.

Lemma add_of_Z X Y :
  Z.abs X < 2 ^ 53 -> Z.abs Y < 2 ^ 53 -> Z.abs (X + Y) < 2 ^ 53 ->
  add (of_Z X) (of_Z Y) = of_Z (X + Y).
Proof.
  intros HX HY HV.
  assert (G : forall sx x sy y,
             Z.pos x < 2 ^ 53 -> Z.pos y < 2 ^ 53 ->
             Z.abs (signed sx x + signed sy y) < 2 ^ 53 ->
             add (of_Z (signed sx x)) (of_Z (signed sy y))
             = of_Z (signed sx x + signed sy y)).
  { intros sx x sy y Hx Hy Hv. rewrite !of_Z_signed by lia.
    apply add_canon; lia. }
  destruct X as [|x|x], Y as [|y|y].
  - reflexivity.
  - cbn [Z.add]. rewrite of_Z_pos by lia. reflexivity.
  - cbn [Z.add]. rewrite of_Z_neg by lia. reflexivity.
  - rewrite Z.add_0_r, of_Z_pos by lia. reflexivity.
  - apply (G false x false y); unfold signed, cond_Zopp; lia.
  - apply (G false x true y); unfold signed, cond_Zopp; lia.
  - rewrite Z.add_0_r, of_Z_neg by lia. reflexivity.
  - apply (G true x false y); unfold signed, cond_Zopp; lia.
  - apply (G true x true y); unfold signed, cond_Zopp; lia.
Qed.

Lemma sub_of_Z X Y :
  Z.abs X < 2 ^ 53 -> Z.abs Y < 2 ^ 53 -> Z.abs (X - Y) < 2 ^ 53 ->
  sub (of_Z X) (of_Z Y) = of_Z (X - Y).
Proof.
  intros HX HY HV.
  assert (G : forall sx x sy y,
             Z.pos x < 2 ^ 53 -> Z.pos y < 2 ^ 53 ->
             Z.abs (signed sx x - signed sy y) < 2 ^ 53 ->
             sub (of_Z (signed sx x)) (of_Z (signed sy y))
             = of_Z (signed sx x - signed sy y)).
  { intros sx x sy y Hx Hy Hv. rewrite !of_Z_signed by lia.
    apply sub_canon; lia. }
  destruct X as [|x|x], Y as [|y|y].
  - reflexivity.
  - change (0 - Z.pos y) with (Z.neg y).
    rewrite of_Z_pos, of_Z_neg by lia. reflexivity.
  - change (0 - Z.neg y) with (Z.pos y).
    rewrite of_Z_pos, of_Z_neg by lia. reflexivity.
  - rewrite Z.sub_0_r, of_Z_pos by lia. reflexivity.
  - apply (G false x false y); unfold signed, cond_Zopp; lia.
  - apply (G false x true y); unfold signed, cond_Zopp; lia.
  - rewrite Z.sub_0_r, of_Z_neg by lia. reflexivity.
  - apply (G true x false y); unfold signed, cond_Zopp; lia.
  - apply (G true x true y); unfold signed, cond_Zopp; lia.
Qed.

Lemma abs_of_Z X : Z.abs X < 2 ^ 53 -> abs (of_Z X) = of_Z (Z.abs X).
Proof.
  intros HX. destruct X as [|x|x]; cbn [Z.abs].
  - reflexivity.
  - rewrite of_Z_pos by lia. reflexivity.
  - rewrite of_Z_neg, of_Z_pos by lia. reflexivity.
Qed.

Lemma of_Z_finite X : Z.abs X < 2 ^ 53 -> is_infinite (of_Z X) = false.
Proof.
  intros HX. destruct X as [|x|x].
  - reflexivity.
  - rewrite of_Z_pos by lia. reflexivity.
  - rewrite of_Z_neg by lia. reflexivity.
Qed.

(** a whole number that is not negative is below [1.0] exactly when it
    is zero *)
Lemma lt_one_of_Z X :
  0 <= X < 2 ^ 53 ->
  Num.lt (Num.NFloat (of_Z X)) (Num.NFloat one) = (X =? 0)
  /\ Num.lt (Num.NInt X) (Num.NFloat one) = (X =? 0).
Proof.
  intros HX. split.
  - destruct X as [|x|x]; try lia; [reflexivity|].
    rewrite of_Z_pos by lia. pose proof (canon_exp_range x ltac:(lia)) as R.
    unfold Num.lt, Num.compare, Num.view, view, cmp, canon, one, cmp_fin.
    rewrite (canon_mant_value x) by lia.
    rewrite Z.min_r by lia.
    rewrite <- Z.mul_assoc, <- Z.pow_add_r by lia.
    replace (- canon_exp x + (canon_exp x - -52)) with 52 by lia.
    replace (-52 - -52) with 0 by lia.
    destruct (Z.compare_spec (Z.pos x * 2 ^ 52) (4503599627370496 * 2 ^ 0));
      try reflexivity.
    simpl (2 ^ 0) in *. change (2 ^ 52) with 4503599627370496 in *. lia.
  - unfold Num.lt, Num.compare, Num.view, view, cmp, one, cmp_fin.
    rewrite Z.min_r by lia.
    replace (0 - -52) with 52 by lia. replace (-52 - -52) with 0 by lia.
    simpl (2 ^ 0). change (2 ^ 52) with 4503599627370496.
    destruct (Z.compare_spec (X * 4503599627370496) (4503599627370496 * 1));
      destruct (Z.eqb_spec X 0); try reflexivity; lia.
Qed.

End ExactFacts.

(* ================================================================= *)
(** * The tolerance on whole numbers *)

Module ExactProps.
Import Float Num Validator BalanceSpec BalanceFacts ExactFacts ValidatorProps.
Local Open Scope Z_scope.

(** a number that is the whole number [X]: the [int] [X] or the
    [float] of [X] *)
Definition is_whole (n : num) (X : Z) : Prop :=
  n = NInt X \/ n = NFloat (of_Z X).

Lemma to_float_int X :
  Z.abs X < 2 ^ 53 -> to_float (NInt X) = Ok (of_Z X).
Proof. intros H. unfold to_float. rewrite (of_Z_finite X H). reflexivity. Qed.

Lemma add_whole a b X Y :
  is_whole a X -> is_whole b Y ->
  Z.abs X < 2 ^ 53 -> Z.abs Y < 2 ^ 53 -> Z.abs (X + Y) < 2 ^ 53 ->
  exists c, Num.add a b = Ok c /\ is_whole c (X + Y).
Proof.
  intros [->| ->] [->| ->] HX HY HV; unfold Num.add, lift2;
    rewrite ?to_float_int by lia; cbn [rbind to_float];
    try (eexists; split; [reflexivity|left; reflexivity]);
    rewrite add_of_Z by lia; eexists; split; try reflexivity;
    right; reflexivity.
Qed.

Lemma sub_whole a b X Y :
  is_whole a X -> is_whole b Y ->
  Z.abs X < 2 ^ 53 -> Z.abs Y < 2 ^ 53 -> Z.abs (X - Y) < 2 ^ 53 ->
  exists c, Num.sub a b = Ok c /\ is_whole c (X - Y).
Proof.
  intros [->| ->] [->| ->] HX HY HV; unfold Num.sub, lift2;
    rewrite ?to_float_int by lia; cbn [rbind to_float];
    try (eexists; split; [reflexivity|left; reflexivity]);
    rewrite sub_of_Z by lia; eexists; split; try reflexivity;
    right; reflexivity.
Qed.

Lemma abs_whole a X :
  is_whole a X -> Z.abs X < 2 ^ 53 -> is_whole (Num.abs a) (Z.abs X).
Proof.
  intros [->| ->] HX; cbn [Num.abs]; [left; reflexivity|].
  right. rewrite abs_of_Z by lia. reflexivity.
Qed.

Lemma lt_one_whole a X :
  is_whole a X -> 0 <= X < 2 ^ 53 -> lt a one_point_zero = (X =? 0).
Proof.
  intros W HX. destruct (lt_one_of_Z X HX) as [F I].
  destruct W as [->| ->]; assumption.
Qed.

(** the validator's arithmetic on four whole numbers *)
Lemma check_whole ta tl te st A L E S :
  is_whole ta A -> is_whole tl L -> is_whole te E -> is_whole st S ->
  Z.abs A < 2 ^ 51 -> Z.abs L < 2 ^ 51 -> Z.abs E < 2 ^ 51 ->
  Z.abs S < 2 ^ 51 ->
  exists c d1 d2,
    Num.add tl te = Ok c /\ Num.sub ta c = Ok d1 /\ Num.sub ta st = Ok d2
    /\ is_whole (Num.abs d1) (Z.abs (A - (L + E)))
    /\ (lt (Num.abs d1) one_point_zero = true <-> A = L + E)
    /\ (lt (Num.abs d2) one_point_zero = true <-> A = S).
Proof.
  intros Wa Wl We Ws Ba Bl Be Bs.
  assert (P : 2 ^ 53 = 4 * 2 ^ 51) by reflexivity.
  destruct (add_whole tl te L E Wl We) as (c & Ec & Wc); try lia.
  destruct (sub_whole ta c A (L + E) Wa Wc) as (d1 & E1 & W1); try lia.
  destruct (sub_whole ta st A S Wa Ws) as (d2 & E2 & W2); try lia.
  exists c, d1, d2. split; [exact Ec|]. split; [exact E1|]. split; [exact E2|].
  pose proof (abs_whole d1 _ W1 ltac:(lia)) as A1.
  pose proof (abs_whole d2 _ W2 ltac:(lia)) as A2.
  split; [exact A1|].
  rewrite (lt_one_whole _ _ A1) by lia. rewrite (lt_one_whole _ _ A2) by lia.
  split; rewrite Z.eqb_eq; lia.
Qed.

(** X12. On whole numbers the tolerance is exact equality. When the
    three totals and the stated total are whole numbers of magnitude
    below [2^51], each held as an [int] or as the [float] of that number
    (what the field extractor leaves is of this kind), the validator
    returns a report, the sum and the differences are computed without
    rounding, and [is_balanced] holds exactly when
    [total_assets = total_liabilities + total_equity]; [matches_stated]
    holds exactly when total assets equal the stated total. A difference
    is never forgiven by the tolerance of [1.0]. *)
Theorem whole_totals_balance_exactly
        (d : list (string * json)) (ta tl te st : num) (A L E S : Z)
        (Hsec : sections_are_mappings (JDict d) = true)
        (Ha : aggregate (JDict d) ["assets"; "total_assets"] = JNum ta)
        (Hl : aggregate (JDict d) ["liabilities"; "total_liabilities"]
              = JNum tl)
        (He : aggregate (JDict d) ["equity"; "total_equity"] = JNum te)
        (Hs : aggregate (JDict d) ["total_liabilities_and_equity"] = JNum st)
        (Wa : is_whole ta A) (Wl : is_whole tl L)
        (We : is_whole te E) (Ws : is_whole st S)
        (Ba : Z.abs A < 2 ^ 51) (Bl : Z.abs L < 2 ^ 51)
        (Be : Z.abs E < 2 ^ 51) (Bs : Z.abs S < 2 ^ 51) :
  exists r,
    validate_balance_sheet (JDict d) = Ok r
    /\ (is_balanced r = true <-> A = L + E)
    /\ (matches_stated r = true <-> A = S)
    /\ is_whole (balance_difference r) (Z.abs (A - (L + E))).
Proof.
  unfold sections_are_mappings in Hsec.
  apply andb_prop in Hsec. destruct Hsec as [Hsec Se].
  apply andb_prop in Hsec. destruct Hsec as [Sa Sl].
  destruct (get_default_section d "assets" Sa) as (sa & Ea & Ga).
  destruct (get_default_section d "liabilities" Sl) as (sl & El & Gl).
  destruct (get_default_section d "equity" Se) as (se & Ee & Ge).
  rewrite Ga in Ha. rewrite Gl in Hl. rewrite Ge in He.
  assert (Hs' : match Dict.get "total_liabilities_and_equity" d with
                | Some v => v
                | None => JInt 0
                end = JNum st).
  { unfold aggregate in Hs. cbn [json_at] in Hs.
    destruct (Dict.get "total_liabilities_and_equity" d); exact Hs. }
  destruct (check_whole ta tl te st A L E S Wa Wl We Ws Ba Bl Be Bs)
    as (c & d1 & d2 & Ec & E1 & E2 & W1 & I1 & I2).
  unfold validate_balance_sheet.
  rewrite Ea, El, Ee. cbn [rbind get_default].
  rewrite Ha, Hl, He, Hs'. cbn [rbind operand json_num].
  rewrite Ec. cbn [rbind]. rewrite E1. cbn [rbind]. rewrite E2. cbn [rbind].
  eexists. split; [reflexivity|].
  cbn [is_balanced matches_stated balance_difference]. auto.
Qed.

(** a sheet with a float, an [int] and a float as its totals, and no
    stated total *)
Definition whole_sheet : list (string * json) :=
  [("assets", JDict [("total_assets", JFloat (of_Z 100))]);
   ("liabilities", JDict [("total_liabilities", JInt 60)]);
   ("equity", JDict [("total_equity", JFloat (of_Z 40))])].

Lemma whole_totals_balance_exactly_witness :
  exists r,
    validate_balance_sheet (JDict whole_sheet) = Ok r
    /\ is_balanced r = true /\ matches_stated r = false.
Proof.
  destruct (whole_totals_balance_exactly whole_sheet
              (NFloat (of_Z 100)) (NInt 60) (NFloat (of_Z 40)) (NInt 0)
              100 60 40 0)
    as (r & E & B & M & _);
    try reflexivity; try (right; reflexivity); try (left; reflexivity).
  exists r. split; [exact E|]. split; [apply B; reflexivity|].
  destruct (matches_stated r); [|reflexivity].
  assert (X : 100 = 0) by (apply M; reflexivity). discriminate X.
Defined.

End ExactProps.

(* ================================================================= *)
(** * The balance check on what the text spells *)

Module PipelineProps.
Import Re ReFacts CaptureFacts Float FloatParse Num Store Populater Locators.
Import Validator BalanceSpec Pipeline.
Import FormatFacts ParseFacts NormalizerFacts SignFacts NumberFacts.
Import PopulaterFacts PopulateSpec ExtractorProps.
Import TextReads TextReadsFacts TemplateProps ExactFacts ExactProps.
Local Open Scope Z_scope.

(** the whole number a total line of the text spells: the digits of
    group 1 of the first match of the pattern, commas left out; [0] when
    the pattern finds nothing *)
Definition amount (text pattern : string) : Z :=
  match re_search pattern text IMS with
  | Ok (Some m) =>
      match m_group1 m with
      | Some g => digits_value (strip_separators g)
      | None => 0
      end
  | _ => 0
  end.

Definition total_assets_pattern : string :=
  "Total\s+Assets\s+(\d+(?:,\d+)*)".
Definition total_liabilities_pattern : string :=
  "Total\s+Liabilities\s+(\d+(?:,\d+)*)".
Definition total_equity_pattern : string :=
  "Total\s+Equity\s+(\d+(?:,\d+)*)".
Definition stated_total_pattern : string :=
  "Total\s+Liabilities\s+and\s+Equity\s+(\d+(?:,\d+)*)".

Lemma of_decimal_whole n : 0 <= n -> of_decimal false n 0 = of_Z n.
Proof.
  intros H. destruct n as [|p|p]; [reflexivity| |lia].
  unfold of_decimal, of_Z. cbn [Z.leb Z.compare].
  change (10 ^ 0) with 1. rewrite Z.mul_1_r. reflexivity.
Qed.

Lemma extracted_whole text pattern :
  captures_number pattern = true ->
  is_whole (extracted_num text pattern) (amount text pattern)
  /\ 0 <= amount text pattern.
Proof.
  intros C. unfold extracted_num, extracted, extract_value_from_text, amount.
  destruct (search_number pattern IMS text C) as [N|(m & g & S & G & G1 & M)].
  - rewrite N. cbn [rbind]. split; [left; reflexivity|lia].
  - rewrite S. cbn [rbind]. rewrite G, G1. cbn [rbind].
    destruct (clean_number_of_number IMS g M) as (DC & D & V & Cn).
    rewrite Cn. split; [|exact V].
    right. cbn. rewrite (of_decimal_whole _ V). reflexivity.
Qed.

(** X13. The verdict on a populated sheet compares the whole numbers
    the text spells. For every text and whatever the template holds,
    when the amounts on the four total lines are below [2^51],
    populating and validating succeed, and the sheet is reported
    balanced exactly when the amount of total assets equals the sum of
    the amounts of total liabilities and total equity; it matches the
    stated total exactly when the two amounts are equal. A total line
    the text lacks counts as [0]. *)
Theorem populated_sheet_balances_exactly
        (text : string) (header : string -> string) (leaf : string -> num)
        (Ba : amount text total_assets_pattern < 2 ^ 51)
        (Bl : amount text total_liabilities_pattern < 2 ^ 51)
        (Be : amount text total_equity_pattern < 2 ^ 51)
        (Bs : amount text stated_total_pattern < 2 ^ 51) :
  exists p r,
    populated_of text (Template.schema header leaf) = Ok p
    /\ validate_balance_sheet p = Ok r
    /\ (is_balanced r = true
        <-> amount text total_assets_pattern
            = amount text total_liabilities_pattern
              + amount text total_equity_pattern)
    /\ (matches_stated r = true
        <-> amount text total_assets_pattern
            = amount text stated_total_pattern).
Proof.
  destruct (extracted_whole text total_assets_pattern) as [Wa Pa];
    [vm_compute; reflexivity|].
  destruct (extracted_whole text total_liabilities_pattern) as [Wl Pl];
    [vm_compute; reflexivity|].
  destruct (extracted_whole text total_equity_pattern) as [We Pe];
    [vm_compute; reflexivity|].
  destruct (extracted_whole text stated_total_pattern) as [Ws Ps];
    [vm_compute; reflexivity|].
  destruct (check_whole _ _ _ _ _ _ _ _ Wa Wl We Ws)
    as (c & d1 & d2 & Ec & E1 & E2 & W1 & I1 & I2); try lia.
  exists (Template.schema (new_header text header) (new_leaf text leaf)).
  eexists. split; [apply populated_of_schema|].
  rewrite validate_populated. unfold check.
  fold total_assets_pattern total_liabilities_pattern total_equity_pattern
       stated_total_pattern.
  rewrite Ec. cbn [rbind]. rewrite E1. cbn [rbind]. rewrite E2. cbn [rbind].
  split; [reflexivity|].
  cbn [is_balanced matches_stated]. split; assumption.
Qed.

(** a statement whose totals agree, and one where they differ by one *)
Definition agreeing_text : string :=
  "Total Assets 1,000,000
Total Liabilities 600,000
Total Equity 400,000
Total Liabilities and Equity 1,000,001".

Lemma populated_sheet_balances_exactly_witness :
  exists p r,
    populated_of agreeing_text Template.zero_template = Ok p
    /\ validate_balance_sheet p = Ok r
    /\ is_balanced r = true
    /\ matches_stated r = false.
Proof.
  assert (Ba : amount agreeing_text total_assets_pattern < 2 ^ 51)
    by (vm_compute; reflexivity).
  assert (Bl : amount agreeing_text total_liabilities_pattern < 2 ^ 51)
    by (vm_compute; reflexivity).
  assert (Be : amount agreeing_text total_equity_pattern < 2 ^ 51)
    by (vm_compute; reflexivity).
  assert (Bs : amount agreeing_text stated_total_pattern < 2 ^ 51)
    by (vm_compute; reflexivity).
  destruct (populated_sheet_balances_exactly
              agreeing_text Template.empty_header Template.zero_leaf
              Ba Bl Be Bs)
    as (p & r & P & V & B & M).
  exists p, r. split; [exact P|]. split; [exact V|].
  split; [apply B; vm_compute; reflexivity|].
  destruct (matches_stated r); [|reflexivity].
  assert (X : amount agreeing_text total_assets_pattern
              = amount agreeing_text stated_total_pattern)
    by (apply M; reflexivity).
  vm_compute in X. discriminate X.
Defined.

End PipelineProps.
